(** * SalesFlow AI 2.0 -- the retrieval-augmented generation pipeline

  A shallow embedding of the parts of the RAG subsystem that its
  specification describes:

  - [EmbeddingService]  (src/lib/rag/embedding-service.ts)
  - [VectorDatabase]    (lib/rag/vector-database.ts)
  - [RAGManager]        (src/lib/rag/rag-manager.ts)
  - [GenerationService] (src/lib/rag/generation-service.ts)
  - [DocumentProcessor] (lib/rag/document-processor.ts)
  - [S3Manager]         (src/lib/rag/index.ts), as far as the deletion of
                         a document calls it

  JavaScript numbers are IEEE 754 binary64 values.  They are modelled by
  the inductive [spec_float] of the standard library, with the operations
  of [SpecFloat] at precision 53 and maximal exponent 1024, so that NaN,
  the infinities and the signed zeros are first-class values. *)

From Stdlib Require Import Strings.String Strings.Ascii.
From Stdlib Require Import ZArith NArith QArith Qminmax List Bool Lia Lqa.
From Stdlib Require Import Permutation Sorted.
From Stdlib Require Import Floats.SpecFloat.
Import ListNotations.

Set Implicit Arguments.
Local Open Scope Z_scope.

(* ================================================================== *)
(** * JavaScript numbers                                               *)
(* ================================================================== *)

Module JsNumber.

Definition number := spec_float.

Definition prec : Z := 53.
Definition emax : Z := 1024.

Definition add : number -> number -> number := SFadd prec emax.
Definition sub : number -> number -> number := SFsub prec emax.
Definition mul : number -> number -> number := SFmul prec emax.
Definition div : number -> number -> number := SFdiv prec emax.
Definition sqrt : number -> number := SFsqrt prec emax.

(** The number that an integer denotes ([ToNumber] of an integral
    value; exact below 2^53). *)
Definition of_Z (z : Z) : number := binary_normalize prec emax z 0 false.

(** A decimal literal [n/d] is the double nearest to the quotient, which
    is what the correctly rounded division of the two integers yields. *)
Definition lit (n d : Z) : number := div (of_Z n) (of_Z d).

Definition NaN : number := S754_nan.
Definition Infinity : number := S754_infinity false.
Definition zero : number := S754_zero false.

(** [isNaN] on a value that already is a number. *)
Definition isNaN (x : number) : bool :=
  match x with S754_nan => true | _ => false end.

(** [Number.isFinite]. *)
Definition isFinite (x : number) : bool :=
  match x with
  | S754_zero _ | S754_finite _ _ _ => true
  | _ => false
  end.

(** [x === y], [x < y], [x > y] on numbers. *)
Definition strict_eq (x y : number) : bool := SFeqb x y.
Definition lt (x y : number) : bool := SFltb x y.
Definition gt (x y : number) : bool := SFltb y x.

(** [Math.min] and [Math.max] of two numbers: NaN is contagious and
    the negative zero is below the positive one. *)
Definition is_neg_zero (x : number) : bool :=
  match x with S754_zero true => true | _ => false end.

Definition math_min (x y : number) : number :=
  match SFcompare x y with
  | None => NaN
  | Some Lt => x
  | Some Gt => y
  | Some Eq => if is_neg_zero x then x else y
  end.

Definition math_max (x y : number) : number :=
  match SFcompare x y with
  | None => NaN
  | Some Lt => y
  | Some Gt => x
  | Some Eq => if is_neg_zero x then y else x
  end.

(** A number that is not NaN and whose sign bit is [s]. *)
Inductive signed (s : bool) : number -> Prop :=
| signed_zero : signed s (S754_zero s)
| signed_inf : signed s (S754_infinity s)
| signed_fin : forall m e, signed s (S754_finite s m e).

Definition not_nan (x : number) : Prop := x <> NaN.

Definition positive_finite (x : number) : Prop :=
  exists m e, x = S754_finite false m e.

Definition is_positive_finite (x : number) : bool :=
  match x with S754_finite false _ _ => true | _ => false end.

(** [x <= y] *)
Definition le (x y : number) : bool := SFleb x y.

End JsNumber.

Import JsNumber.


(* ================================================================== *)
(** * Optional values and scores                                       *)
(* ================================================================== *)

(** Similarity and relevance scores are modelled as exact rationals.
    [x || d] on an optional number takes [d] for a missing one and for
    zero. *)
Definition Qgtb (x y : Q) : bool := negb (Qle_bool x y).

Definition Q_or (x : option Q) (d : Q) : Q :=
  match x with
  | Some q => if Qeq_bool q 0%Q then d else q
  | None => d
  end.

Definition Z_or (x : option Z) (d : Z) : Z :=
  match x with
  | Some z => if z =? 0 then d else z
  | None => d
  end.

(** The sign bit of a number ([false] for NaN, which has none that can
    be observed). *)
Definition sign_bit (x : number) : bool :=
  match x with
  | S754_zero s | S754_infinity s | S754_finite s _ _ => s
  | S754_nan => false
  end.

(** The double [2^e], for an exponent in the normal range. *)
Definition pow2 (e : Z) : number := S754_finite false 4503599627370496 (e - 52).

(* ================================================================== *)
(** * JavaScript strings                                               *)
(* ================================================================== *)

(** A string is its sequence of UTF-16 code units, so that [length],
    [slice] and [indexOf] count what the host counts. *)
Module JsString.

Definition jsstring := list N.

(** Literals are written as in the source and decoded from UTF-8 (one
    to three bytes a character, which covers Latin and Cyrillic). *)
Fixpoint utf16_of_bytes (bytes : list N) : jsstring :=
  match bytes with
  | [] => []
  | b0 :: rest =>
      if (b0 <? 128)%N then b0 :: utf16_of_bytes rest
      else if (b0 <? 224)%N then
        match rest with
        | b1 :: rest' => ((b0 - 192) * 64 + (b1 - 128))%N :: utf16_of_bytes rest'
        | [] => []
        end
      else
        match rest with
        | b1 :: b2 :: rest' =>
            ((b0 - 224) * 4096 + (b1 - 128) * 64 + (b2 - 128))%N
              :: utf16_of_bytes rest'
        | _ => []
        end
  end.

Definition js (s : string) : jsstring :=
  utf16_of_bytes (map N_of_ascii (list_ascii_of_string s)).

Fixpoint str_eqb (a b : jsstring) : bool :=
  match a, b with
  | [], [] => true
  | x :: a', y :: b' => (x =? y)%N && str_eqb a' b'
  | _, _ => false
  end.

(** White space and line terminators: the class [\s] of regular
    expressions, which is also what [trim] removes. *)
Definition is_whitespace (c : N) : bool :=
  ((9 <=? c) && (c <=? 13) || (c =? 32) || (c =? 160) || (c =? 5760)
   || (8192 <=? c) && (c <=? 8202) || (c =? 8232) || (c =? 8233)
   || (c =? 8239) || (c =? 8287) || (c =? 12288) || (c =? 65279))%N.

Definition newline : N := 10.
Definition space : N := 32.

Fixpoint trimStart (s : jsstring) : jsstring :=
  match s with
  | c :: rest => if is_whitespace c then trimStart rest else s
  | [] => []
  end.

Definition trimEnd (s : jsstring) : jsstring := rev (trimStart (rev s)).

Definition trim (s : jsstring) : jsstring := trimEnd (trimStart s).

(** [s.split(sep)] for a separator of one code unit. *)
Fixpoint split_on (sep : N) (s : jsstring) : list jsstring :=
  match s with
  | [] => [[]]
  | c :: rest =>
      if (c =? sep)%N then [] :: split_on sep rest
      else match split_on sep rest with
           | w :: ws => (c :: w) :: ws
           | [] => [[c]]
           end
  end.

Fixpoint starts_with (prefix s : jsstring) : bool :=
  match prefix, s with
  | [], _ => true
  | p :: prefix', c :: s' => (p =? c)%N && starts_with prefix' s'
  | _ :: _, [] => false
  end.

(** [s.includes(sub)] *)
Fixpoint includes (s sub : jsstring) : bool :=
  starts_with sub s ||
  match s with
  | [] => false
  | _ :: rest => includes rest sub
  end.

(** [s.indexOf(sub)], counted from [i]; [-1] when absent. *)
Fixpoint indexOf_from (i : Z) (s sub : jsstring) : Z :=
  if starts_with sub s then i
  else match s with
       | [] => -1
       | _ :: rest => indexOf_from (i + 1) rest sub
       end.

Definition indexOf (s sub : jsstring) : Z := indexOf_from 0 s sub.

(** [s.slice(-n)] for [0 < n]: the last [n] code units. *)
Definition slice_last (n : Z) (s : jsstring) : jsstring :=
  skipn (length s - Z.to_nat n) s.

(** [s.substring(0, n)] *)
Definition substring_to (n : Z) (s : jsstring) : jsstring :=
  firstn (Z.to_nat n) s.

(** [s.replace(/\s+/g, ' ')]: every maximal run of white space becomes
    one space.  [in_run] tells that the previous unit was white space. *)
Fixpoint collapse_whitespace (in_run : bool) (s : jsstring) : jsstring :=
  match s with
  | [] => []
  | c :: rest =>
      if is_whitespace c then
        if in_run then collapse_whitespace true rest
        else space :: collapse_whitespace true rest
      else c :: collapse_whitespace false rest
  end.

(** The regular expression [/\n\s*\n/] at a position just behind a line
    feed: the greedy [\s*] runs over the white space that follows and
    backs up to its last line feed.  The result is the number of code
    units the rest of the match consumes. *)
Fixpoint blank_line_match (s : jsstring) : option nat :=
  match s with
  | c :: rest =>
      if is_whitespace c then
        match blank_line_match rest with
        | Some n => Some (S n)
        | None => if (c =? newline)%N then Some 1%nat else None
        end
      else None
  | [] => None
  end.

(** [s.split(/\n\s*\n/)]: [skip] code units of a match are still to be
    passed over, [current] is the piece read so far, reversed. *)
Fixpoint split_blank_lines (skip : nat) (current : jsstring) (s : jsstring)
  : list jsstring :=
  match s with
  | [] => [rev current]
  | c :: rest =>
      match skip with
      | S k => split_blank_lines k current rest
      | O =>
          if (c =? newline)%N then
            match blank_line_match rest with
            | Some n => rev current :: split_blank_lines n [] rest
            | None => split_blank_lines 0 (c :: current) rest
            end
          else split_blank_lines 0 (c :: current) rest
      end
  end.

Definition split_paragraphs (s : jsstring) : list jsstring :=
  split_blank_lines 0 [] s.

(** [l.join(sep)] *)
Fixpoint join (sep : jsstring) (l : list jsstring) : jsstring :=
  match l with
  | [] => []
  | [s] => s
  | s :: rest => s ++ sep ++ join sep rest
  end.

End JsString.

Import JsString.

(** A function ends by returning a value or by throwing an error, of
    which the message is kept. *)
Inductive Completion (A : Type) :=
| Returned (value : A)
| Thrown (error_message : jsstring).

Arguments Returned {A} value.
Arguments Thrown {A} error_message.

(* ================================================================== *)
(** * EmbeddingService: vector utilities                               *)
(* ================================================================== *)

Module EmbeddingService.

(** Values as the runtime sees them: the declared parameter type
    [number[]] is erased, and [validateEmbedding] tests the shape itself
    with [Array.isArray] and [typeof].  An array is the list of its
    slots up to its length; a slot of a sparse array may be a hole,
    which is [None]. *)
#[warnings="-register-all"]
Inductive jsvalue :=
| JsUndefined
| JsNull
| JsBool (b : bool)
| JsNum (x : number)
| JsStr (s : jsstring)
| JsArray (slots : list (option jsvalue))
| JsObject.

Inductive Provider := openai | huggingface | custom.

(** [EmbeddingModelConfig]; the configured dimension and token budget
    are integers. *)
Record EmbeddingModelConfig := {
  provider : Provider;
  model : jsstring;
  dimensions : Z;
  maxTokens : Z
}.

(** [typeof value === 'number' && !isNaN(value)] *)
Definition is_valid_component (value : jsvalue) : bool :=
  match value with
  | JsNum x => negb (isNaN x)
  | _ => false
  end.

(** [Array.prototype.every] calls the test on the slots that hold a
    value and passes over the holes. *)
Definition every (test : jsvalue -> bool) (slots : list (option jsvalue))
  : bool :=
  forallb (fun slot => match slot with
                       | Some value => test value
                       | None => true
                       end) slots.

Definition validateEmbedding (config : EmbeddingModelConfig)
  (embedding : jsvalue) : bool :=
  match embedding with
  | JsArray slots =>
      if negb (Z.of_nat (length slots) =? dimensions config) then false
      else every is_valid_component slots
  | _ => false
  end.

(** The acceptance criterion in the words of the specification: an array
    of the configured length whose components are all finite numbers. *)
Definition finite_of_dimension (config : EmbeddingModelConfig)
  (embedding : jsvalue) : Prop :=
  exists slots,
    embedding = JsArray slots /\
    Z.of_nat (length slots) = dimensions config /\
    Forall (fun slot => exists x, slot = Some (JsNum x) /\ isFinite x = true)
      slots.

(** The criterion the code implements: the components that are there
    are numbers other than NaN.  The infinities pass, and so do the
    holes of a sparse array. *)
Definition numbers_of_dimension (config : EmbeddingModelConfig)
  (embedding : jsvalue) : Prop :=
  exists slots,
    embedding = JsArray slots /\
    Z.of_nat (length slots) = dimensions config /\
    Forall (fun slot => forall value, slot = Some value ->
                        exists x, value = JsNum x /\ x <> NaN) slots.

(** [embedding.reduce((sum, value) => sum + value * value, 0)] *)
Definition sumSquares (embedding : list number) : number :=
  fold_left (fun sum value => add sum (mul value value)) embedding zero.

Definition magnitude (embedding : list number) : number :=
  sqrt (sumSquares embedding).

Definition normalizeEmbedding (embedding : list number) : list number :=
  if strict_eq (magnitude embedding) zero then embedding
  else map (fun value => div value (magnitude embedding)) embedding.

Definition is_zero (x : number) : Prop :=
  match x with S754_zero _ => True | _ => False end.

(** *** Batches and the provider

    The OpenAI client is outside the repository.  What it answers to
    the n-th [embeddings.create] request is given by an oracle; the
    requests and the pauses of a run are recorded in order. *)

Record ProviderError := {
  code : jsstring;
  message : jsstring
}.

Record CreateResponse := {
  data : list (list number);      (* [item.embedding] of every item *)
  usage_total_tokens : option Z   (* [usage?.total_tokens] *)
}.

Inductive Settled (A : Type) :=
| Resolved (value : A)
| Rejected (error : ProviderError).

Arguments Resolved {A} value.
Arguments Rejected {A} error.

Record BatchResult := {
  embeddings : list (list number);
  totalTokens : Z
}.

Inductive Event :=
| EvCreate (model_id : jsstring) (input : list jsstring)
| EvDelay (ms : Z)
| EvWarn (text : jsstring).

Record World := {
  requests : nat;            (* [embeddings.create] requests sent so far *)
  timeline : list Event      (* what happened, oldest first *)
}.

Definition initial : World := {| requests := 0; timeline := [] |}.

Definition delay (ms : Z) (w : World) : World :=
  {| requests := requests w; timeline := timeline w ++ [EvDelay ms] |}.

Definition warn (text : jsstring) (w : World) : World :=
  {| requests := requests w; timeline := timeline w ++ [EvWarn text] |}.

Definition sent (model_id : jsstring) (input : list jsstring) (w : World)
  : World :=
  {| requests := S (requests w);
     timeline := timeline w ++ [EvCreate model_id input] |}.

Definition rate_limit_exceeded : jsstring := js "rate_limit_exceeded".

Section Batches.

Variable config : EmbeddingModelConfig.

(** The answer of the provider to its n-th request. *)
Variable create : nat -> list jsstring -> Settled CreateResponse.

Definition cleanText (text : jsstring) : jsstring :=
  let cleaned := trim (collapse_whitespace false text) in
  if Z.of_nat (length cleaned) >? maxTokens config * 4
  then substring_to (maxTokens config * 4) cleaned
  else cleaned.

(** The constructor makes the client [this.openai] for the provider
    ['openai'] and for no other. *)
Definition has_client : bool :=
  match provider config with
  | openai => true
  | _ => false
  end.

(** The [TypeError] of [this.openai.embeddings] without a client; it
    has no [code]. *)
Definition no_client : ProviderError :=
  {| code := [];
     message := js "Cannot read properties of undefined (reading 'embeddings')" |}.

(** [processOpenAIBatch] calls itself from its own [catch] block, so
    its recursion is bounded by [fuel] here: [None] means that the call
    has not settled within [fuel] requests.  Without a client no
    request is sent: the [TypeError] is caught and thrown again. *)
Fixpoint processOpenAIBatch (fuel : nat) (texts : list jsstring) (w : World)
  : option (Settled BatchResult) * World :=
  match fuel with
  | O => (None, w)
  | S fuel' =>
      let cleanedTexts := map cleanText texts in
      if has_client then
        match create (requests w) cleanedTexts with
        | Resolved response =>
            (Some (Resolved
               {| embeddings := data response;
                  totalTokens := Z_or (usage_total_tokens response) 0 |}),
             sent (model config) cleanedTexts w)
        | Rejected error =>
            if str_eqb (code error) rate_limit_exceeded then
              (* Wait and retry once *)
              processOpenAIBatch fuel' texts
                (delay 5000 (sent (model config) cleanedTexts w))
            else (Some (Rejected error), sent (model config) cleanedTexts w)
        end
      else (Some (Rejected no_client), w)
  end.

(** The fallback has no client to fall back on: after the warning the
    call is rejected by [processOpenAIBatch]. *)
Definition processHuggingFaceBatch (fuel : nat) (texts : list jsstring)
  (w : World) : option (Settled BatchResult) * World :=
  processOpenAIBatch fuel texts
    (warn (js "HuggingFace provider not implemented, falling back to OpenAI") w).

Definition processCustomBatch (texts : list jsstring) (w : World)
  : option (Settled BatchResult) * World :=
  (Some (Rejected {| code := [];
                     message := js "Custom embedding provider not implemented" |}),
   w).

Definition processBatch (fuel : nat) (texts : list jsstring) (w : World)
  : option (Settled BatchResult) * World :=
  match provider config with
  | openai => processOpenAIBatch fuel texts w
  | huggingface => processHuggingFaceBatch fuel texts w
  | custom => processCustomBatch texts w
  end.

(** The n-th request for [texts] is refused for throttling. *)
Definition throttled (texts : list jsstring) (n : nat) : Prop :=
  exists error,
    create n (map cleanText texts) = Rejected error /\
    str_eqb (code error) rate_limit_exceeded = true.

(** The n-th request for [texts] is served, or refused for another
    reason, and [outcome] is what the caller then gets. *)
Definition settles (texts : list jsstring) (n : nat)
  (outcome : Settled BatchResult) : Prop :=
  match create n (map cleanText texts) with
  | Resolved response =>
      exists tokens,
        outcome = Resolved {| embeddings := data response; totalTokens := tokens |}
  | Rejected error =>
      str_eqb (code error) rate_limit_exceeded = false /\
      outcome = Rejected error
  end.

End Batches.

End EmbeddingService.

(* ================================================================== *)
(** * Array.prototype.sort                                             *)
(* ================================================================== *)

(** [sort] with a comparison function is stable.  It is modelled by the
    insertion sort that moves an element behind exactly those it has to
    follow: [after x y] says that the comparison function puts [x]
    strictly behind [y]. *)
Module JsArray.

Section Sort.

Variable A : Type.
Variable after : A -> A -> bool.

Fixpoint insert (x : A) (l : list A) : list A :=
  match l with
  | [] => [x]
  | y :: l' => if after x y then y :: insert x l' else x :: l
  end.

Fixpoint sort (l : list A) : list A :=
  match l with
  | [] => []
  | x :: l' => insert x (sort l')
  end.

End Sort.

(** [l.slice(0, end)] for an integral [end]; a negative [end] counts
    from the end of the array. *)
Definition slice_to (A : Type) (finish : Z) (l : list A) : list A :=
  if finish <? 0
  then firstn (Z.to_nat (Z.max (Z.of_nat (length l) + finish) 0)) l
  else firstn (Z.to_nat finish) l.

(** [l.slice(start, end)] for integral bounds; a negative bound counts
    from the end of the array.  A string is sliced in the same way. *)
Definition relative (len k : Z) : Z :=
  if k <? 0 then Z.max (len + k) 0 else Z.min k len.

Definition slice (A : Type) (start finish : Z) (l : list A) : list A :=
  let len := Z.of_nat (length l) in
  firstn (Z.to_nat (relative len finish - relative len start))
         (skipn (Z.to_nat (relative len start)) l).

End JsArray.

(* ================================================================== *)
(** * VectorDatabase                                                   *)
(* ================================================================== *)

(** The table [knowledge_chunks] is the list of its rows.  A score is
    the rational that a finite double is.  The distance operator of
    pgvector is a parameter, and so are the type of the vectors and the
    product of two doubles, of which nothing is assumed: no statement
    below depends on how a product is rounded. *)
Module VectorDatabase.

(** *** The type [uuid] of the database

    The columns [id], [document_id] and [tenant_id] are declared
    [UUID].  The database reads sixteen bytes of two hexadecimal digits
    each, with an optional hyphen after every second byte but the last,
    and optionally in braces. *)
Definition is_hex (c : N) : bool :=
  ((48 <=? c) && (c <=? 57) || (65 <=? c) && (c <=? 70)
   || (97 <=? c) && (c <=? 102))%N.

Definition hyphen : N := 45.

(** [bytes_left] bytes are still to be read; the rest of the text
    behind them is returned. *)
Fixpoint read_uuid (bytes_left : nat) (s : jsstring) : option jsstring :=
  match bytes_left with
  | O => Some s
  | S n =>
      match s with
      | h1 :: h2 :: rest =>
          if is_hex h1 && is_hex h2 then
            let index := (15 - n)%nat in
            let rest :=
              if Nat.odd index && (index <? 15)%nat then
                match rest with
                | c :: rest' => if (c =? hyphen)%N then rest' else rest
                | [] => rest
                end
              else rest in
            read_uuid n rest
          else None
      | _ => None
      end
  end.

Definition is_uuid (s : jsstring) : bool :=
  match s with
  | 123%N :: body =>
      match read_uuid 16 body with
      | Some [125%N] => true
      | _ => false
      end
  | _ =>
      match read_uuid 16 s with
      | Some [] => true
      | _ => false
      end
  end.

Section Database.

Variable Vector : Type.

(** [1 - (embedding <=> query_embedding)] *)
Variable similarity : Vector -> Vector -> Q.

(** [x * y] on doubles *)
Variable times : Q -> Q -> Q.

(** The JSON paths of a [metadata] blob that the database reads. *)
Record Metadata := {
  documentType : option jsstring;
  salesCategory : option jsstring;
  salesMetadata : bool;                      (* is the entry present *)
  productIds : list jsstring;                (* salesMetadata->productIds *)
  salesStages : list jsstring;
  customerSegments : list jsstring
}.

Record Row := {
  id : jsstring;
  document_id : jsstring;
  chunk_id : jsstring;
  tenant_id : jsstring;
  content : jsstring;
  embedding : Vector;
  metadata : Metadata;
  created_at : Z
}.

Definition Table := list Row.

(** A [DocumentChunk] as [indexChunks] reads it. *)
Record DocumentChunk := {
  chunk_ident : jsstring;
  chunk_content : jsstring;
  chunk_embedding : Vector;
  chunk_metadata : Metadata
}.

Record VectorSearchFilters := {
  f_documentTypes : list jsstring;
  f_salesCategories : list jsstring;
  f_dateRange : option (Z * Z);
  f_productIds : list jsstring;
  f_salesStages : list jsstring;
  f_customerSegments : list jsstring
}.

Record VectorSearchRequest := {
  q_embedding : Vector;
  tenantId : jsstring;
  limit : option Z;
  threshold : option Q;
  filters : option VectorSearchFilters;
  includeEmbedding : bool;
  rerank : bool                              (* options?.rerankResults *)
}.

Record VectorSearchResult := {
  r_id : jsstring;                           (* row.chunk_id *)
  score : Q;
  r_documentId : jsstring;                   (* metadata.documentId *)
  r_chunkId : jsstring;
  r_content : jsstring;
  r_metadata : Metadata;
  originalScore : option Q;                  (* set by the reranking *)
  rerankingScore : option Q;
  r_embedding : option Vector
}.

(** *** Queries *)

Definition member (x : jsstring) (l : list jsstring) : bool :=
  existsb (str_eqb x) l.

Definition overlaps (l1 l2 : list jsstring) : bool :=
  existsb (fun x => member x l2) l1.

Definition in_column (value : option jsstring) (l : list jsstring) : bool :=
  match value with
  | Some v => member v l
  | None => false
  end.

(** [applyFilters]: each filter that is given and not empty narrows the
    rows further. *)
Definition applyFilters (rows : Table) (f : VectorSearchFilters) : Table :=
  let rows :=
    match f_documentTypes f with
    | [] => rows
    | types => filter (fun r => in_column (documentType (metadata r)) types) rows
    end in
  let rows :=
    match f_salesCategories f with
    | [] => rows
    | cats => filter (fun r => in_column (salesCategory (metadata r)) cats) rows
    end in
  let rows :=
    match f_dateRange f with
    | Some (from, to) =>
        filter (fun r => (from <=? created_at r) && (created_at r <=? to)) rows
    | None => rows
    end in
  let rows :=
    match f_productIds f with
    | [] => rows
    | ids => filter (fun r => overlaps (productIds (metadata r)) ids) rows
    end in
  let rows :=
    match f_salesStages f with
    | [] => rows
    | stages => filter (fun r => overlaps (salesStages (metadata r)) stages) rows
    end in
  match f_customerSegments f with
  | [] => rows
  | segs => filter (fun r => overlaps (customerSegments (metadata r)) segs) rows
  end.

(** The SQL function [match_chunks]: of the rows of the table
    ([FROM knowledge_chunks kc]), those above the threshold, most
    similar first, at most [match_count] of them.  A negative [LIMIT]
    is an error.  The function has three parameters and no predicate
    on the tenant.  (The policy of row-level security that
    [createRLSPolicies] declares does not bind the service role, which
    is the role of the client that the class makes for itself.) *)
Definition match_chunks (table : Table) (query_embedding : Vector)
  (match_threshold : Q) (match_count : Z) : option (list (Row * Q)) :=
  if match_count <? 0 then None
  else
    let scored := map (fun r => (r, similarity (embedding r) query_embedding)) table in
    let above := filter (fun rs => Qgtb (snd rs) match_threshold) scored in
    let ordered := JsArray.sort (fun x y => Qgtb (snd y) (snd x)) above in
    Some (firstn (Z.to_nat match_count) ordered).

(** [query.rpc('match_chunks', { ... })]: a call of the function of the
    database with the three arguments.  The conditions of the query
    that it is written behind are no part of the call; the function
    reads the table. *)
Definition rpc_match_chunks (query table : Table) (query_embedding : Vector)
  (match_threshold : Q) (match_count : Z) : option (list (Row * Q)) :=
  match_chunks table query_embedding match_threshold match_count.

Definition to_result (request : VectorSearchRequest) (rs : Row * Q)
  : VectorSearchResult :=
  let (row, sim) := rs in
  {| r_id := chunk_id row;
     score := sim;
     r_documentId := document_id row;
     r_chunkId := chunk_id row;
     r_content := content row;
     r_metadata := metadata row;
     originalScore := None;
     rerankingScore := None;
     r_embedding := if includeEmbedding request then Some (embedding row) else None |}.

Definition rerank_one (result : VectorSearchResult) : VectorSearchResult :=
  let contentLength := Z.of_nat (length (r_content result)) in
  let s1 := if (100 <? contentLength) && (contentLength <? 1000)
            then times (score result) (11 # 10) else score result in
  let s2 := if salesMetadata (r_metadata result) then times s1 (21 # 20) else s1 in
  {| r_id := r_id result;
     score := s2;
     r_documentId := r_documentId result;
     r_chunkId := r_chunkId result;
     r_content := r_content result;
     r_metadata := r_metadata result;
     originalScore := Some (score result);
     rerankingScore := Some s2;
     r_embedding := r_embedding result |}.

(** [(a, b) => b.score - a.score] puts [a] behind [b] when [b] scores
    higher. *)
Definition rerankResults (results : list VectorSearchResult)
  : list VectorSearchResult :=
  JsArray.sort (fun a b => Qgtb (score b) (score a)) (map rerank_one results).

(** [search]: a query on the table is narrowed to the tenant of the
    request with [.eq('tenant_id', request.tenantId)] and then by the
    filters, and [.rpc('match_chunks', ...)] is written behind it. *)
Definition search (table : Table) (request : VectorSearchRequest)
  : Completion (list VectorSearchResult) :=
  let query := filter (fun r => str_eqb (tenant_id r) (tenantId request)) table in
  let query :=
    match filters request with
    | Some f => applyFilters query f
    | None => query
    end in
  match rpc_match_chunks query table (q_embedding request)
          (Q_or (threshold request) (7 # 10)%Q) (Z_or (limit request) 10) with
  | None => Thrown (js "Vector search failed")
  | Some data =>
      let results := map (to_result request) data in
      Returned (if rerank request then rerankResults results else results)
  end.

(** The row a result was made from. *)
Definition made_from (result : VectorSearchResult) (row : Row) : Prop :=
  r_id result = chunk_id row /\ r_documentId result = document_id row.

(** *** Updates *)

Definition extractTenantFromDocumentId (documentId : jsstring) : jsstring :=
  js "default-tenant".

(** [chunk_id] is declared [UNIQUE] and [id] is the primary key. *)
Fixpoint distinct (ids : list jsstring) : bool :=
  match ids with
  | [] => true
  | x :: rest => negb (member x rest) && distinct rest
  end.

(** The first value of a row that its column does not take. *)
Definition ill_typed (r : Row) : option jsstring :=
  if negb (is_uuid (id r)) then Some (id r)
  else if negb (is_uuid (document_id r)) then Some (document_id r)
  else if negb (is_uuid (tenant_id r)) then Some (tenant_id r)
  else None.

Fixpoint first_ill_typed (rows : list Row) : option jsstring :=
  match rows with
  | [] => None
  | r :: rest =>
      match ill_typed r with
      | Some value => Some value
      | None => first_ill_typed rest
      end
  end.

Definition quote : N := 34.

(** An insertion is refused as a whole when a value is not of the type
    of its column, or when it would repeat a key. *)
Definition insert_rows (table : Table) (rows : list Row) : Completion Table :=
  match first_ill_typed rows with
  | Some value =>
      Thrown (js "invalid input syntax for type uuid: "
              ++ quote :: value ++ [quote])
  | None =>
      if distinct (map id (table ++ rows))
         && distinct (map chunk_id (table ++ rows))
      then Returned (table ++ rows)
      else Thrown (js "duplicate key value violates unique constraint")
  end.

(** A state of the table that the declaration of the table admits. *)
Definition admitted (table : Table) : bool :=
  match first_ill_typed table with
  | Some _ => false
  | None => distinct (map id table) && distinct (map chunk_id table)
  end.

(** The rows of one insertion are stamped with the time [now] of the
    database. *)
Definition indexChunks (table : Table) (now : Z) (documentId : jsstring)
  (chunks : list DocumentChunk) : Completion Table :=
  let vectorRecords :=
    map (fun chunk =>
           {| id := chunk_ident chunk;
              document_id := documentId;
              chunk_id := chunk_ident chunk;
              tenant_id := extractTenantFromDocumentId documentId;
              content := chunk_content chunk;
              embedding := chunk_embedding chunk;
              metadata := chunk_metadata chunk;
              created_at := now |}) chunks in
  match insert_rows table vectorRecords with
  | Returned table' => Returned table'
  | Thrown problem =>
      Thrown (js "Chunk indexing failed: Failed to index chunks: " ++ problem)
  end.

Definition deleteDocument (table : Table) (documentId tenantId : jsstring)
  : Table :=
  filter (fun r => negb (str_eqb (document_id r) documentId
                         && str_eqb (tenant_id r) tenantId)) table.

Definition deleteChunks (table : Table) (chunkIds : list jsstring)
  (tenantId : jsstring) : Table :=
  filter (fun r => negb (member (chunk_id r) chunkIds
                         && str_eqb (tenant_id r) tenantId)) table.

End Database.

End VectorDatabase.

(* ================================================================== *)
(** * RAGManager: search                                               *)
(* ================================================================== *)

Module RAGManager.

Inductive Urgency := low | medium | high | critical.

Record SalesSearchContext := {
  ctx_productIds : option (list jsstring);
  salesStage : option jsstring;
  customerSegment : option jsstring;
  urgencyLevel : option Urgency
}.

Record RAGSearchRequest := {
  query : jsstring;
  tenantId : jsstring;
  limit : option Z;
  threshold : option Q;
  documentTypes : list jsstring;
  salesCategories : list jsstring;
  salesContext : option SalesSearchContext;
  rerankResults : option bool;
  useHybridSearch : bool
}.

(** [config.search] *)
Record SearchConfig := {
  defaultLimit : Z;
  defaultThreshold : Q;
  rerankingEnabled : bool
}.

Record DocumentSalesMetadata := {
  productIds : option (list jsstring);
  salesStages : option (list jsstring);
  customerSegments : option (list jsstring);
  accessCount : Z                               (* usage.accessCount *)
}.

Record RAGDocument := {
  doc_id : jsstring;
  doc_tenantId : jsstring;
  title : jsstring;
  doc_content : jsstring;
  doc_salesMetadata : option DocumentSalesMetadata;
  createdAt : Z                                 (* milliseconds since the epoch *)
}.

(** A row of the table [knowledge_documents]. *)
Record DocumentRow := {
  row_id : jsstring;
  row_tenant_id : jsstring;
  row_title : jsstring;
  row_content : jsstring;
  row_created_at : Z
}.

Inductive SearchType := semantic_search | keyword_search | hybrid_search.

Record RAGSearchResult := {
  document : RAGDocument;
  relevanceScore : Q;           (* the score of the vector search *)
  salesRelevanceScore : option Q;
  contextScore : Q;
  matchedContent : jsstring;
  highlightedText : jsstring;
  searchType : SearchType;
  embeddingDistance : Q;
  hit_rerankingScore : option Q
}.

(** [mapDatabaseToDocument] copies no sales metadata. *)
Definition mapDatabaseToDocument (data : DocumentRow) : RAGDocument :=
  {| doc_id := row_id data;
     doc_tenantId := row_tenant_id data;
     title := row_title data;
     doc_content := row_content data;
     doc_salesMetadata := None;
     createdAt := row_created_at data |}.

(** [.eq('id', documentId).eq('tenant_id', tenantId).single()] is an
    error unless exactly one row qualifies; [getDocument] then returns
    [null]. *)
Definition getDocument (documents : list DocumentRow)
  (documentId tenant : jsstring) : option RAGDocument :=
  match filter (fun row => str_eqb (row_id row) documentId
                           && str_eqb (row_tenant_id row) tenant) documents with
  | [row] => Some (mapDatabaseToDocument row)
  | _ => None
  end.

Definition truthy (s : option jsstring) : option jsstring :=
  match s with
  | Some (c :: rest) => Some (c :: rest)
  | _ => None
  end.

Definition listed (x : jsstring) (l : option (list jsstring)) : bool :=
  match l with
  | Some l => existsb (str_eqb x) l
  | None => false
  end.

(** [calculateSalesRelevance].  For an empty list of product ids the
    quotient is 0/0, which is NaN in the source and 0 in the rationals;
    the documents that [searchDocuments] passes in carry no sales
    metadata, so that this branch is not taken there. *)
Definition calculateSalesRelevance (doc : RAGDocument)
  (context : SalesSearchContext) : Q :=
  let meta := doc_salesMetadata doc in
  let score := 0%Q in
  let score :=
    match ctx_productIds context, option_map productIds meta with
    | Some wanted, Some (Some owned) =>
        let overlap :=
          length (filter (fun id => existsb (str_eqb id) owned) wanted) in
        (score + (inject_Z (Z.of_nat overlap)
                  / inject_Z (Z.of_nat (length wanted))) * (3 # 10))%Q
    | _, _ => score
    end in
  let score :=
    match truthy (salesStage context), meta with
    | Some stage, Some m =>
        if listed stage (salesStages m) then (score + (2 # 10))%Q else score
    | _, _ => score
    end in
  let score :=
    match truthy (customerSegment context), meta with
    | Some segment, Some m =>
        if listed segment (customerSegments m) then (score + (2 # 10))%Q
        else score
    | _, _ => score
    end in
  let score :=
    match urgencyLevel context with
    | Some critical => (score + (1 # 10))%Q
    | _ => score
    end in
  let score :=
    match meta with
    | Some m => if 10 <? accessCount m then (score + (2 # 10))%Q else score
    | None => score
    end in
  Qmin score 1.

(** [a.salesRelevanceScore ? (a.relevanceScore + a.salesRelevanceScore) / 2
                           : a.relevanceScore]: a missing score is
    falsy, and so is a score of zero. *)
Definition combinedScore (a : RAGSearchResult) : Q :=
  match salesRelevanceScore a with
  | Some s => if Qeq_bool s 0%Q then relevanceScore a
              else ((relevanceScore a + s) / 2)%Q
  | None => relevanceScore a
  end.

(** The comparison function returns [scoreB - scoreA]; it is positive,
    and [a] goes behind [b], when [b] has the higher combined score. *)
Definition compare_results (a b : RAGSearchResult) : Q :=
  (combinedScore b - combinedScore a)%Q.

Definition ranks_after (a b : RAGSearchResult) : bool :=
  Qgtb (compare_results a b) 0%Q.

(** The request comes from a sales conversation of critical urgency. *)
Definition urgent (request : RAGSearchRequest) : bool :=
  match salesContext request with
  | Some context =>
      match urgencyLevel context with
      | Some critical => true
      | _ => false
      end
  | None => false
  end.

(** The last two statements of [searchDocuments]: [results] is the list
    built from the hits of the vector search, in their order. *)
Definition rankResults (requested : option Z) (defaultLimit : Z)
  (results : list RAGSearchResult) : list RAGSearchResult :=
  JsArray.slice_to (Z_or requested defaultLimit)
    (JsArray.sort ranks_after results).

(** Two hits tie when their combined scores are equal. *)
Definition scores (k : Q) (a : RAGSearchResult) : bool :=
  Qeq_bool (combinedScore a) k.

(** [a] may stand before [b] in a ranking: it has the higher combined
    score, or the same and not the lower retrieval score. *)
Definition ranked_before (a b : RAGSearchResult) : Prop :=
  (combinedScore b < combinedScore a)%Q \/
  ((combinedScore a == combinedScore b)%Q /\
   (relevanceScore b <= relevanceScore a)%Q).

Section Search.

Variable Vector : Type.
Variable similarity : Vector -> Vector -> Q.
Variable times : Q -> Q -> Q.

(** [embeddingService.generateEmbedding] and the replacement of the
    matches of [new RegExp(query, 'gi')], which throws on a query that
    is no regular expression. *)
Variable generateEmbedding : jsstring -> Completion Vector.
Variable highlight : jsstring -> jsstring -> Completion jsstring.

Variable config : SearchConfig.

Definition vectorSearchRequest (request : RAGSearchRequest)
  (queryEmbedding : Vector) : VectorDatabase.VectorSearchRequest Vector :=
  {| VectorDatabase.q_embedding := queryEmbedding;
     VectorDatabase.tenantId := tenantId request;
     VectorDatabase.limit := Some (Z_or (limit request) (defaultLimit config));
     VectorDatabase.threshold :=
       Some (Q_or (threshold request) (defaultThreshold config));
     VectorDatabase.filters :=
       Some {| VectorDatabase.f_documentTypes := documentTypes request;
               VectorDatabase.f_salesCategories := salesCategories request;
               VectorDatabase.f_dateRange := None;
               VectorDatabase.f_productIds :=
                 match salesContext request with
                 | Some context =>
                     match ctx_productIds context with
                     | Some ids => ids
                     | None => []
                     end
                 | None => []
                 end;
               VectorDatabase.f_salesStages :=
                 match salesContext request with
                 | Some context =>
                     match truthy (salesStage context) with
                     | Some stage => [stage]
                     | None => []
                     end
                 | None => []
                 end;
               VectorDatabase.f_customerSegments :=
                 match salesContext request with
                 | Some context =>
                     match truthy (customerSegment context) with
                     | Some segment => [segment]
                     | None => []
                     end
                 | None => []
                 end |};
     VectorDatabase.includeEmbedding := false;
     VectorDatabase.rerank :=
       match rerankResults request with
       | Some b => b
       | None => rerankingEnabled config
       end |}.

(** The loop over the hits of the vector search: a hit whose document
    is not found is skipped, an error ends the search. *)
Fixpoint collect (request : RAGSearchRequest) (documents : list DocumentRow)
  (vectorResults : list (VectorDatabase.VectorSearchResult Vector))
  : Completion (list RAGSearchResult) :=
  match vectorResults with
  | [] => Returned []
  | vectorResult :: rest =>
      match getDocument documents (VectorDatabase.r_documentId vectorResult)
              (tenantId request) with
      | None => collect request documents rest
      | Some doc =>
          let matched := substring_to 500 (doc_content doc) in
          match highlight (query request) matched with
          | Thrown problem => Thrown problem
          | Returned highlighted =>
              match collect request documents rest with
              | Thrown problem => Thrown problem
              | Returned results =>
                  Returned
                    ({| document := doc;
                        relevanceScore := VectorDatabase.score vectorResult;
                        salesRelevanceScore :=
                          option_map (calculateSalesRelevance doc)
                            (salesContext request);
                        contextScore := VectorDatabase.score vectorResult;
                        matchedContent := matched;
                        highlightedText := highlighted;
                        searchType :=
                          if useHybridSearch request then hybrid_search
                          else semantic_search;
                        embeddingDistance :=
                          (1 - VectorDatabase.score vectorResult)%Q;
                        hit_rerankingScore :=
                          VectorDatabase.rerankingScore vectorResult |}
                     :: results)
              end
          end
      end
  end.

Definition search_failed (problem : jsstring) : jsstring :=
  js "Search failed: " ++ problem.

Definition searchDocuments (chunks : VectorDatabase.Table Vector)
  (documents : list DocumentRow) (request : RAGSearchRequest)
  : Completion (list RAGSearchResult) :=
  match generateEmbedding (query request) with
  | Thrown problem => Thrown (search_failed problem)
  | Returned queryEmbedding =>
      match VectorDatabase.search similarity times chunks
              (vectorSearchRequest request queryEmbedding) with
      | Thrown problem => Thrown (search_failed problem)
      | Returned vectorResults =>
          match collect request documents vectorResults with
          | Thrown problem => Thrown (search_failed problem)
          | Returned results =>
              Returned (rankResults (limit request) (defaultLimit config) results)
          end
      end
  end.

End Search.

End RAGManager.

(* ================================================================== *)
(** * GenerationService: the confidence heuristic                      *)
(* ================================================================== *)

Module GenerationService.

(** [String.prototype.toLowerCase] belongs to the host.  The functions
    below take it as a parameter; the scenarios use the case mapping of
    the Latin and Cyrillic letters, which are the alphabets of the
    hedging phrases. *)
Definition lower_unit (c : N) : N :=
  if ((65 <=? c) && (c <=? 90))%N then (c + 32)%N          (* A-Z *)
  else if ((1040 <=? c) && (c <=? 1071))%N then (c + 32)%N (* А-Я *)
  else if ((1024 <=? c) && (c <=? 1039))%N then (c + 80)%N (* Ѐ-Џ *)
  else c.

Definition lower_latin_cyrillic (s : jsstring) : jsstring := map lower_unit s.

Definition uncertaintyPhrases : list jsstring :=
  [js "не уверен"; js "возможно"; js "вероятно"; js "может быть";
   js "not sure"; js "possibly"; js "maybe"; js "might be"].

Section Confidence.

Variable toLowerCase : jsstring -> jsstring.

(** [confidence = 0.5], raised by the two tests on the length of the
    answer. *)
Definition base (answer : jsstring) : number :=
  let confidence := lit 1 2 in
  let confidence :=
    if 200 <? Z.of_nat (length answer) then add confidence (lit 1 10)
    else confidence in
  if 500 <? Z.of_nat (length answer) then add confidence (lit 1 10)
  else confidence.

Definition contextWords (context : jsstring) : list jsstring :=
  split_on space (toLowerCase context).

Definition answerWords (answer : jsstring) : list jsstring :=
  split_on space (toLowerCase answer).

(** [contextWords.filter(word => answerWords.includes(word) &&
    word.length > 3).length] *)
Definition overlap (answer context : jsstring) : nat :=
  length
    (filter (fun word =>
               existsb (str_eqb word) (answerWords answer)
               && (3 <? Z.of_nat (length word)))
       (contextWords context)).

(** [overlap / Math.min(contextWords.length, 100)]: both operands are
    lengths of arrays, and the minimum of two such integers is taken on
    the integers. *)
Definition overlapRatio (answer context : jsstring) : number :=
  div (of_Z (Z.of_nat (overlap answer context)))
      (of_Z (Z.min (Z.of_nat (length (contextWords context))) 100)).

Definition overlapBonus (answer context : jsstring) : number :=
  mul (overlapRatio answer context) (lit 3 10).

Definition hedged (answer phrase : jsstring) : bool :=
  includes (toLowerCase answer) phrase.

Definition clamp (confidence : number) : number :=
  math_max (lit 1 10) (math_min (lit 95 100) confidence).

Definition calculateConfidence (answer context : jsstring) : number :=
  let confidence := base answer in
  let confidence := add confidence (overlapBonus answer context) in
  let confidence :=
    fold_left
      (fun confidence phrase =>
         if hedged answer phrase then sub confidence (lit 1 10)
         else confidence)
      uncertaintyPhrases confidence in
  clamp confidence.

(** The number of hedging phrases found in the answer. *)
Definition hedges (answer : jsstring) : nat :=
  length (filter (hedged answer) uncertaintyPhrases).

End Confidence.

End GenerationService.

(* ================================================================== *)
(** * DocumentProcessor                                                *)
(* ================================================================== *)

Module DocumentProcessor.

Inductive SourceType := from_file | from_url | from_text | from_api.

Record File := {
  buffer : list N;
  filename : jsstring;
  mimetype : jsstring
}.

Record DocumentSource := {
  source_type : SourceType;
  file : option File;
  url : option jsstring;
  text : option jsstring
}.

Inductive ChunkStrategy := sentence | paragraph | section | fixed_size | semantic.

Record ProcessingOptions := {
  chunkStrategy : ChunkStrategy;
  chunkSize : option Z;
  chunkOverlap : option Z;
  extractProductInfo : bool;
  extractPricing : bool;
  extractCompetitorMentions : bool;
  detectSalesStages : bool
}.

Record DocumentProcessingRequest := {
  source : DocumentSource;
  options : ProcessingOptions
}.

Inductive ChunkType := type_text | type_table | type_list | type_heading.

(** [`chunk_${index}_${Date.now()}`] *)
Record ChunkId := {
  id_index : Z;
  id_stamp : Z
}.

Record ChunkMetadata := {
  chunkType : ChunkType;
  section_title : option jsstring;
  pageNumber : Z
}.

Record SalesMetadata := {
  containsProductInfo : bool;
  containsPricing : bool;
  containsCompetitorInfo : bool;
  salesRelevanceScore : number
}.

Record DocumentChunk := {
  id : ChunkId;
  content : jsstring;
  startPosition : Z;
  endPosition : Z;
  chunkIndex : Z;
  metadata : ChunkMetadata;
  salesMetadata : SalesMetadata
}.

Record ProcessingMetadata := {
  processingTime : Z;
  chunksCreated : Z;
  embeddingsGenerated : Z;
  tokensProcessed : Z;
  errors : option (list jsstring);
  warnings : option (list jsstring)
}.

(** The clock and the console: how often [Date.now()] has been read,
    and what has been written with [console.warn]. *)
Record World := {
  reads : nat;
  console : list jsstring
}.

Definition M (A : Type) : Type := World -> A * World.

Definition ret {A : Type} (a : A) : M A := fun w => (a, w).

Definition bind {A B : Type} (m : M A) (k : A -> M B) : M B :=
  fun w => let (a, w') := m w in k a w'.

Notation "x <- m ;; k" := (bind m (fun x => k))
  (at level 61, m at next level, right associativity).

Definition console_warn (text : jsstring) : M unit :=
  fun w => (tt, {| reads := reads w; console := console w ++ [text] |}).

(** The world with the clock at its [n]-th reading and a silent
    console. *)
Definition at_reading (n : nat) : World := {| reads := n; console := [] |}.

(** A computation that reads at most the clock: its value and the
    number of readings follow from the readings before it, and it
    leaves the console as it is. *)
Definition clock_only {A : Type} (m : M A) : Prop :=
  forall w,
    m w = (fst (m (at_reading (reads w))),
           {| reads := reads (snd (m (at_reading (reads w))));
              console := console w |}).

(** The options [opts] with another strategy. *)
Definition with_strategy (strategy : ChunkStrategy) (opts : ProcessingOptions)
  : ProcessingOptions :=
  {| chunkStrategy := strategy;
     chunkSize := chunkSize opts;
     chunkOverlap := chunkOverlap opts;
     extractProductInfo := extractProductInfo opts;
     extractPricing := extractPricing opts;
     extractCompetitorMentions := extractCompetitorMentions opts;
     detectSalesStages := detectSalesStages opts |}.

(** [/[.!?]\s+/] *)
Definition is_mark (c : N) : bool := ((c =? 46) || (c =? 33) || (c =? 63))%N.

Fixpoint run_of_whitespace (s : jsstring) : nat :=
  match s with
  | c :: rest => if is_whitespace c then S (run_of_whitespace rest) else 0
  | [] => 0
  end.

(** [s.split(/[.!?]\s+/)]: [skip] code units of a match are still to be
    passed over, [current] is the piece read so far, reversed. *)
Fixpoint split_marks (skip : nat) (current : jsstring) (s : jsstring)
  : list jsstring :=
  match s with
  | [] => [rev current]
  | c :: rest =>
      match skip with
      | S k => split_marks k current rest
      | O =>
          if is_mark c && (0 <? run_of_whitespace rest)%nat
          then rev current :: split_marks (run_of_whitespace rest) [] rest
          else split_marks 0 (c :: current) rest
      end
  end.

Definition splitIntoSentences (fullText : jsstring) : list jsstring :=
  map trim
    (filter (fun sentence => 0 <? Z.of_nat (length (trim sentence)))
       (split_marks 0 [] fullText)).

(** The host and the pattern matchers that the processor relies on: the
    case mapping, the clock, the decoder of byte buffers, the functions
    that are written with regular expressions or with [JSON.parse], and
    the strategy [section], which splits the text with a regular
    expression and visits every piece once.  Nothing below depends on
    how they work. *)
Record Host := {
  toLowerCase : jsstring -> jsstring;
  now : nat -> Z;
  decode_utf8 : list N -> jsstring;
  extractFromHTML : jsstring -> jsstring;
  extractFromJSON : jsstring -> Completion jsstring;
  inferChunkType : jsstring -> ChunkType;
  extractSection : jsstring -> option jsstring;
  matchesPricing : jsstring -> bool;
  Pricing : Type;
  extractPricingMatches : jsstring -> list Pricing;
  chunkBySection : jsstring -> ProcessingOptions -> M (list DocumentChunk)
}.

Section Processor.

Variable host : Host.

#[local] Abbreviation toLowerCase := (toLowerCase host).
#[local] Abbreviation now := (now host).
#[local] Abbreviation decode_utf8 := (decode_utf8 host).
#[local] Abbreviation extractFromHTML := (extractFromHTML host).
#[local] Abbreviation extractFromJSON := (extractFromJSON host).
#[local] Abbreviation inferChunkType := (inferChunkType host).
#[local] Abbreviation extractSection := (extractSection host).
#[local] Abbreviation matchesPricing := (matchesPricing host).
#[local] Abbreviation extractPricingMatches := (extractPricingMatches host).
#[local] Abbreviation chunkBySection := (chunkBySection host).

Record ExtractedInfo := {
  products : option (list jsstring);
  pricing : option (list (Pricing host));
  competitors : option (list jsstring);
  salesStages : option (list jsstring)
}.

Record DocumentProcessingResult := {
  success : bool;
  extractedText : option jsstring;
  chunks : option (list DocumentChunk);
  extractedInfo : option ExtractedInfo;
  processingMetadata : ProcessingMetadata
}.

Definition Date_now : M Z :=
  fun w => (now (reads w), {| reads := S (reads w); console := console w |}).

(** *** Extraction of the text *)

(** The share of printable Latin and Cyrillic code units is above
    0.8. *)
Definition is_printable (c : N) : bool :=
  ((32 <=? c) && (c <=? 126) || (1024 <=? c) && (c <=? 1279))%N.

Definition isValidText (t : jsstring) : bool :=
  gt (div (of_Z (Z.of_nat (length (filter is_printable t))))
          (of_Z (Z.of_nat (length t))))
     (lit 8 10).

Definition word_mimetypes : list jsstring :=
  [js "application/vnd.openxmlformats-officedocument.wordprocessingml.document";
   js "application/msword"].

Definition extractFromFile (f : File) : Completion jsstring :=
  if str_eqb (mimetype f) (js "text/plain") then
    Returned (decode_utf8 (buffer f))
  else if str_eqb (mimetype f) (js "application/pdf") then
    Thrown (js "PDF extraction not implemented yet. Please use text files.")
  else if existsb (str_eqb (mimetype f)) word_mimetypes then
    Thrown (js "Word document extraction not implemented yet. Please use text files.")
  else if str_eqb (mimetype f) (js "text/html") then
    Returned (extractFromHTML (decode_utf8 (buffer f)))
  else if str_eqb (mimetype f) (js "application/json") then
    extractFromJSON (decode_utf8 (buffer f))
  else
    let t := decode_utf8 (buffer f) in
    if isValidText t then Returned t
    else Thrown (js "Unsupported file type: " ++ mimetype f).

Definition extractText (s : DocumentSource) : Completion jsstring :=
  match source_type s with
  | from_text =>
      match text s with
      | Some t => Returned t          (* [source.text || ''] *)
      | None => Returned []
      end
  | from_file =>
      match file s with
      | Some f => extractFromFile f
      | None => Thrown (js "Cannot destructure property 'buffer' of 'file' as it is undefined.")
      end
  | from_url =>
      Thrown (js "URL extraction not implemented yet. Please upload files directly.")
  | from_api =>
      Thrown (js "API source extraction not implemented yet.")
  end.

(** *** Signals of a chunk *)

Definition any_keyword (content : jsstring) (keywords : list jsstring) : bool :=
  existsb (fun keyword => includes (toLowerCase content) keyword) keywords.

Definition hasProductInfo (content : jsstring) : bool :=
  any_keyword content
    [js "продукт"; js "товар"; js "услуга"; js "функция"; js "характеристика"].

Definition hasCompetitorInfo (content : jsstring) : bool :=
  any_keyword content
    [js "конкурент"; js "сравнение"; js "альтернатива"; js "competitor"].

Definition salesTerms : list jsstring :=
  [js "продажи"; js "клиент"; js "сделка"; js "договор"; js "контракт"].

Definition calculateSalesRelevance (content : jsstring) : number :=
  let score := of_Z 0 in
  let score := if hasProductInfo content then add score (lit 3 10) else score in
  let score := if matchesPricing content then add score (lit 4 10) else score in
  let score := if hasCompetitorInfo content then add score (lit 2 10) else score in
  let score :=
    fold_left
      (fun score term =>
         if includes (toLowerCase content) term then add score (lit 1 10)
         else score)
      salesTerms score in
  math_min score (of_Z 1).

Definition createChunk (body : jsstring) (index : Z) (start : Z)
  (fullText : jsstring) : M DocumentChunk :=
  stamp <- Date_now ;;
  ret {| id := {| id_index := index; id_stamp := stamp |};
         content := trim body;
         startPosition := start;
         endPosition := start + Z.of_nat (length body);
         chunkIndex := index;
         metadata :=
           {| chunkType := inferChunkType body;
              section_title := extractSection body;
              pageNumber := start / 2000 + 1 |};
         salesMetadata :=
           {| containsProductInfo := hasProductInfo body;
              containsPricing := matchesPricing body;
              containsCompetitorInfo := hasCompetitorInfo body;
              salesRelevanceScore := calculateSalesRelevance body |} |}.

(** *** Chunking by paragraphs *)

(** What the loop of [chunkByParagraph] carries from one paragraph to
    the next. *)
Record Accumulator := {
  made : list DocumentChunk;         (* [chunks] *)
  currentChunk : jsstring;
  start_of_current : Z               (* [startPosition] *)
}.

Definition blank_line : jsstring := [newline; newline].

Definition paragraph_step (fullText : jsstring) (opts : ProcessingOptions)
  (maxChunkSize : Z) (acc : Accumulator) (p : jsstring) : M Accumulator :=
  let current := currentChunk acc in
  if (Z.of_nat (length current) + Z.of_nat (length p) >? maxChunkSize)
     && (Z.of_nat (length current) >? 0)
  then
    chunk <- createChunk (trim current) (Z.of_nat (length (made acc)))
               (start_of_current acc) fullText ;;
    let overlap := Z_or (chunkOverlap opts) 0 in
    ret {| made := made acc ++ [chunk];
           currentChunk :=
             if (overlap >? 0) && (Z.of_nat (length current) >? overlap)
             then slice_last overlap current ++ blank_line ++ p
             else p;
           start_of_current := indexOf fullText p |}
  else
    ret {| made := made acc;
           currentChunk :=
             current ++ (if Z.of_nat (length current) >? 0
                         then blank_line else []) ++ p;
           start_of_current :=
             if Z.of_nat (length current) =? 0 then indexOf fullText p
             else start_of_current acc |}.

Fixpoint paragraph_loop (fullText : jsstring) (opts : ProcessingOptions)
  (maxChunkSize : Z) (paragraphs : list jsstring) (acc : Accumulator)
  : M Accumulator :=
  match paragraphs with
  | [] => ret acc
  | p :: rest =>
      acc' <- paragraph_step fullText opts maxChunkSize acc p ;;
      paragraph_loop fullText opts maxChunkSize rest acc'
  end.

Definition chunkByParagraph (fullText : jsstring) (opts : ProcessingOptions)
  : M (list DocumentChunk) :=
  let paragraphs :=
    filter (fun p => 0 <? Z.of_nat (length (trim p)))
      (split_paragraphs fullText) in
  let maxChunkSize := Z_or (chunkSize opts) 1000 in
  acc <- paragraph_loop fullText opts maxChunkSize paragraphs
           {| made := []; currentChunk := []; start_of_current := 0 |} ;;
  if 0 <? Z.of_nat (length (trim (currentChunk acc))) then
    chunk <- createChunk (trim (currentChunk acc))
               (Z.of_nat (length (made acc))) (start_of_current acc) fullText ;;
    ret (made acc ++ [chunk])
  else ret (made acc).

Definition chunkBySemantic (fullText : jsstring) (opts : ProcessingOptions)
  : M (list DocumentChunk) :=
  _ <- console_warn
         (js "Semantic chunking not implemented, falling back to paragraph chunking") ;;
  chunkByParagraph fullText opts.

(** *** Chunking by sentences and by a fixed size

    The loops of these two strategies advance by the chunk size minus
    the overlap, which need not be positive.  They are bounded by
    [fuel] here: [None] means that a loop has not come to its end
    within [fuel] rounds. *)

(** The loop of [chunkByFixedSize] from index [i] on. *)
Fixpoint fixed_size_loop (fuel : nat) (fullText : jsstring)
  (size overlap i : Z) (made : list DocumentChunk)
  : M (option (list DocumentChunk)) :=
  match fuel with
  | O => ret None
  | S fuel' =>
      if i <? Z.of_nat (length fullText) then
        let chunk := JsArray.slice i (i + size) fullText in
        if 0 <? Z.of_nat (length (trim chunk)) then
          c <- createChunk chunk (Z.of_nat (length made)) i fullText ;;
          fixed_size_loop fuel' fullText size overlap (i + (size - overlap))
            (made ++ [c])
        else
          fixed_size_loop fuel' fullText size overlap (i + (size - overlap))
            made
      else ret (Some made)
  end.

Definition chunkByFixedSize (fuel : nat) (fullText : jsstring)
  (opts : ProcessingOptions) : M (option (list DocumentChunk)) :=
  let size := Z_or (chunkSize opts) 1000 in
  let overlap := Z_or (chunkOverlap opts) 100 in
  fixed_size_loop fuel fullText size overlap 0 [].

(** The loop of [chunkBySentence]; the start position of a chunk is the
    index of its first sentence. *)
Fixpoint sentence_loop (fuel : nat) (fullText : jsstring)
  (sentences : list jsstring) (size overlap i : Z) (made : list DocumentChunk)
  : M (option (list DocumentChunk)) :=
  match fuel with
  | O => ret None
  | S fuel' =>
      if i <? Z.of_nat (length sentences) then
        let chunkSentences := JsArray.slice i (i + size) sentences in
        let body := join [space] chunkSentences in
        if 0 <? Z.of_nat (length (trim body)) then
          c <- createChunk body (Z.of_nat (length made)) i fullText ;;
          sentence_loop fuel' fullText sentences size overlap
            (i + (size - overlap)) (made ++ [c])
        else
          sentence_loop fuel' fullText sentences size overlap
            (i + (size - overlap)) made
      else ret (Some made)
  end.

Definition chunkBySentence (fuel : nat) (fullText : jsstring)
  (opts : ProcessingOptions) : M (option (list DocumentChunk)) :=
  let sentences := splitIntoSentences fullText in
  let size := Z_or (chunkSize opts) 3 in
  let overlap := Z_or (chunkOverlap opts) 1 in
  sentence_loop fuel fullText sentences size overlap 0 [].

(** A strategy whose loop visits every piece of the text once. *)
Definition returned (m : M (list DocumentChunk))
  : M (option (list DocumentChunk)) :=
  cs <- m ;; ret (Some cs).

Definition createChunks (fuel : nat) (fullText : jsstring)
  (opts : ProcessingOptions) : M (option (list DocumentChunk)) :=
  match chunkStrategy opts with
  | sentence => chunkBySentence fuel fullText opts
  | paragraph => returned (chunkByParagraph fullText opts)
  | section => returned (chunkBySection fullText opts)
  | fixed_size => chunkByFixedSize fuel fullText opts
  | semantic => returned (chunkBySemantic fullText opts)
  end.

(** *** Sales information, tokens and warnings *)

Definition stageKeywords : list (jsstring * list jsstring) :=
  [(js "prospecting", [js "поиск клиентов"; js "лиды"; js "prospects"]);
   (js "qualification", [js "квалификация"; js "потребности"; js "бюджет"]);
   (js "proposal", [js "предложение"; js "презентация"; js "proposal"]);
   (js "negotiation", [js "переговоры"; js "обсуждение цены"; js "negotiation"]);
   (js "closing", [js "закрытие сделки"; js "подписание"; js "closing"])].

Definition detectStages (t : jsstring) : list jsstring :=
  map fst
    (filter (fun entry =>
               existsb (fun keyword =>
                          includes (toLowerCase t) (toLowerCase keyword))
                 (snd entry))
       stageKeywords).

Definition extractSalesInfo (t : jsstring) (opts : ProcessingOptions)
  : ExtractedInfo :=
  {| products := if extractProductInfo opts then Some [] else None;
     pricing := if extractPricing opts then Some (extractPricingMatches t) else None;
     competitors := if extractCompetitorMentions opts then Some [] else None;
     salesStages := if detectSalesStages opts then Some (detectStages t) else None |}.

(** [Math.ceil(text.length / 4)] *)
Definition estimateTokens (t : jsstring) : Z := (Z.of_nat (length t) + 3) / 4.

Definition generateWarnings (t : jsstring) (cs : list DocumentChunk)
  : list jsstring :=
  (if Z.of_nat (length t) <? 100
   then [js "Document is very short, may not provide sufficient context"]
   else [])
  ++ (if Z.of_nat (length cs) =? 0
      then [js "No chunks were created from the document"] else [])
  ++ (if 1000 <? Z.of_nat (length cs)
      then [js "Document created many chunks, consider using larger chunk size"]
      else []).

(** *** The entry point *)

Definition failure (elapsed : Z) (problem : jsstring) : DocumentProcessingResult :=
  {| success := false;
     extractedText := None;
     chunks := None;
     extractedInfo := None;
     processingMetadata :=
       {| processingTime := elapsed;
          chunksCreated := 0;
          embeddingsGenerated := 0;
          tokensProcessed := 0;
          errors := Some [problem];
          warnings := None |} |}.

Definition no_text : jsstring := js "No text could be extracted from the document".

(** [process]; [None] when the chunking has not come to its end
    within [fuel] rounds, so that the call has not returned. *)
Definition process (fuel : nat) (request : DocumentProcessingRequest)
  : M (option DocumentProcessingResult) :=
  startTime <- Date_now ;;
  match extractText (source request) with
  | Thrown problem =>
      finish <- Date_now ;;
      ret (Some (failure (finish - startTime) problem))
  | Returned extracted =>
      if (Z.of_nat (length extracted) =? 0)
         || (Z.of_nat (length (trim extracted)) =? 0)
      then
        finish <- Date_now ;;
        ret (Some (failure (finish - startTime) no_text))
      else
        made <- createChunks fuel extracted (options request) ;;
        match made with
        | None => ret None
        | Some cs =>
            let info := extractSalesInfo extracted (options request) in
            let tokens := estimateTokens extracted in
            finish <- Date_now ;;
            ret (Some
                   {| success := true;
                      extractedText := Some extracted;
                      chunks := Some cs;
                      extractedInfo := Some info;
                      processingMetadata :=
                        {| processingTime := finish - startTime;
                           chunksCreated := Z.of_nat (length cs);
                           embeddingsGenerated := 0;
                           tokensProcessed := tokens;
                           errors := None;
                           warnings := Some (generateWarnings extracted cs) |} |})
        end
  end.

End Processor.

End DocumentProcessor.

(* ================================================================== *)
(** * Concrete scenarios                                               *)
(* ================================================================== *)

Module ThrottledTwice.

Import EmbeddingService.

Definition config : EmbeddingModelConfig :=
  {| provider := openai; model := js "text-embedding-3-small";
     dimensions := 2; maxTokens := 8191 |}.

Definition throttling : ProviderError :=
  {| code := js "rate_limit_exceeded"; message := js "Rate limit reached" |}.

Definition answer : CreateResponse :=
  {| data := [[of_Z 1; of_Z 0]]; usage_total_tokens := Some 3 |}.

(** The provider throttles the first two requests and serves the
    third. *)
Definition create (n : nat) (input : list jsstring) : Settled CreateResponse :=
  match n with
  | 0%nat | 1%nat => Rejected throttling
  | _ => Resolved answer
  end.

Definition texts : list jsstring := [js "  price   list "].

End ThrottledTwice.

(** Vectors of one rational component; the similarity of two of them is
    one minus their distance, and products are exact. *)
Module ToyIndex.

Import VectorDatabase.

Definition Vector := Q.

Definition similarity (v q : Vector) : Q :=
  Qred (if Qle_bool v q then 1 - (q - v) else 1 - (v - q))%Q.

Definition times (x y : Q) : Q := Qred (x * y).

Definition tenant_a : string := "aaaaaaaa-0000-4000-8000-000000000001".
Definition tenant_b : string := "bbbbbbbb-0000-4000-8000-000000000002".
Definition doc_a : string := "d0c0000a-0000-4000-8000-00000000000a".
Definition doc_b : string := "d0c0000b-0000-4000-8000-00000000000b".
Definition doc_x : string := "d0c00001-0000-4000-8000-0000000000f1".
Definition doc_y : string := "d0c00002-0000-4000-8000-0000000000f2".
Definition doc_1 : string := "d0c00003-0000-4000-8000-0000000000f3".

Definition plain : Metadata :=
  {| documentType := None; salesCategory := None; salesMetadata := false;
     productIds := []; salesStages := []; customerSegments := [] |}.

Definition row (key tenant document chunk : string) (v : Vector) : Row Vector :=
  {| id := js key; document_id := js document; chunk_id := js chunk;
     tenant_id := js tenant; content := js "price list";
     embedding := v; metadata := plain; created_at := 0 |}.

(** Tenant B stores the very vector that tenant A asks for. *)
Definition row_a : Row Vector :=
  row "00000000-0000-4000-8000-00000000000a" tenant_a doc_a "chunk-a" (1 # 3)%Q.
Definition row_b : Row Vector :=
  row "00000000-0000-4000-8000-00000000000b" tenant_b doc_b "chunk-b" 1%Q.
Definition table : Table Vector := [row_a; row_b].

Definition ask (tenant : string) (v : Vector) : VectorSearchRequest Vector :=
  {| q_embedding := v; tenantId := js tenant; limit := None;
     threshold := Some (1 # 4)%Q; filters := None;
     includeEmbedding := false; rerank := false |}.

Definition hit (document chunk : string) (s : Q) : VectorSearchResult Vector :=
  {| r_id := js chunk; score := s; r_documentId := js document;
     r_chunkId := js chunk; r_content := js "price list";
     r_metadata := plain; originalScore := None; rerankingScore := None;
     r_embedding := None |}.

(** One chunk of the document [doc_1], as the document processor makes
    it. *)
Definition chunk_1 : DocumentChunk Vector :=
  {| chunk_ident := js "chunk_0_1700000000000";
     chunk_content := js "price list";
     chunk_embedding := 1%Q;
     chunk_metadata := plain |}.

(** The same chunk under an id that is a UUID. *)
Definition chunk_u : DocumentChunk Vector :=
  {| chunk_ident := js "c0000000-0000-4000-8000-000000000001";
     chunk_content := js "price list";
     chunk_embedding := 1%Q;
     chunk_metadata := plain |}.

(** Two documents of tenant A with one chunk each, at the similarities
    0.9 and 0.8 to the query vector 1. *)
Definition library : Table Vector :=
  [row "00000000-0000-4000-8000-0000000000f2" tenant_a doc_y "chunk-y" (8 # 10)%Q;
   row "00000000-0000-4000-8000-0000000000f1" tenant_a doc_x "chunk-x" (9 # 10)%Q].

Definition documents : list RAGManager.DocumentRow :=
  [{| RAGManager.row_id := js doc_x; RAGManager.row_tenant_id := js tenant_a;
      RAGManager.row_title := js "X"; RAGManager.row_content := js "price list";
      RAGManager.row_created_at := 2000 |};
   {| RAGManager.row_id := js doc_y; RAGManager.row_tenant_id := js tenant_a;
      RAGManager.row_title := js "Y"; RAGManager.row_content := js "price list";
      RAGManager.row_created_at := 1000 |}].

Definition config : RAGManager.SearchConfig :=
  {| RAGManager.defaultLimit := 5; RAGManager.defaultThreshold := (7 # 10)%Q;
     RAGManager.rerankingEnabled := true |}.

Definition question : RAGManager.RAGSearchRequest :=
  {| RAGManager.query := js "price"; RAGManager.tenantId := js tenant_a;
     RAGManager.limit := None; RAGManager.threshold := None;
     RAGManager.documentTypes := []; RAGManager.salesCategories := [];
     RAGManager.salesContext := None; RAGManager.rerankResults := Some false;
     RAGManager.useHybridSearch := false |}.

(** The same question in a sales conversation of critical urgency,
    about a product, a stage and a segment. *)
Definition urgent_question : RAGManager.RAGSearchRequest :=
  {| RAGManager.query := js "price"; RAGManager.tenantId := js tenant_a;
     RAGManager.limit := None; RAGManager.threshold := None;
     RAGManager.documentTypes := []; RAGManager.salesCategories := [];
     RAGManager.salesContext :=
       Some {| RAGManager.ctx_productIds := None;
               RAGManager.salesStage := None;
               RAGManager.customerSegment := None;
               RAGManager.urgencyLevel := Some RAGManager.critical |};
     RAGManager.rerankResults := Some false;
     RAGManager.useHybridSearch := false |}.

Definition found_with (name title : string) (created : Z) (s : Q)
  (domain : option Q) : RAGManager.RAGSearchResult :=
  {| RAGManager.document :=
       {| RAGManager.doc_id := js name; RAGManager.doc_tenantId := js tenant_a;
          RAGManager.title := js title; RAGManager.doc_content := js "price list";
          RAGManager.doc_salesMetadata := None; RAGManager.createdAt := created |};
     RAGManager.relevanceScore := s;
     RAGManager.salesRelevanceScore := domain;
     RAGManager.contextScore := s;
     RAGManager.matchedContent := js "price list";
     RAGManager.highlightedText := js "price list";
     RAGManager.searchType := RAGManager.semantic_search;
     RAGManager.embeddingDistance := (1 - s)%Q;
     RAGManager.hit_rerankingScore := None |}.

Definition found (name title : string) (created : Z) (s : Q)
  : RAGManager.RAGSearchResult :=
  found_with name title created s None.

Definition searchDocuments (chunks : Table Vector)
  (request : RAGManager.RAGSearchRequest)
  : Completion (list RAGManager.RAGSearchResult) :=
  RAGManager.searchDocuments similarity times (fun _ => Returned 1%Q)
    (fun _ matched => Returned matched) config chunks documents request.

Definition ask_library : Completion (list RAGManager.RAGSearchResult) :=
  searchDocuments library question.

(** Two chunks that are equally similar to the query; the document of
    the first is the older one. *)
Definition twins : Table Vector :=
  [row "00000000-0000-4000-8000-0000000000f2" tenant_a doc_y "chunk-y" (8 # 10)%Q;
   row "00000000-0000-4000-8000-0000000000f1" tenant_a doc_x "chunk-x" (8 # 10)%Q].

End ToyIndex.

(** Answers and contexts for the confidence heuristic. *)
Module Answers.

Fixpoint words (n : nat) (w : jsstring) : jsstring :=
  match n with
  | O => []
  | 1%nat => w
  | S n' => w ++ space :: words n' w
  end.

(** A context that repeats one word two hundred times, and an answer
    that uses the word and hedges twice. *)
Definition long_context : jsstring := words 200 (js "price").
Definition hedging_answer : jsstring := js "price maybe possibly".

Definition confidence (answer context : jsstring) : number :=
  GenerationService.calculateConfidence
    GenerationService.lower_latin_cyrillic answer context.

End Answers.

(** A host for the document processor: the clock advances by one
    millisecond a reading, buffers hold UTF-8, and the pattern matchers
    find nothing. *)
Module PlainHost.

Import DocumentProcessor.

Definition host : Host :=
  {| toLowerCase := GenerationService.lower_latin_cyrillic;
     now := fun n => 1700000000000 + Z.of_nat n;
     decode_utf8 := utf16_of_bytes;
     extractFromHTML := fun html => html;
     extractFromJSON := fun json => Returned json;
     inferChunkType := fun _ => type_text;
     extractSection := fun _ => None;
     matchesPricing := fun _ => false;
     Pricing := unit;
     extractPricingMatches := fun _ => [];
     chunkBySection := fun _ _ => ret [] |}.

Definition start : World := {| reads := 0; console := [] |}.

Definition options_for (strategy : ChunkStrategy) : ProcessingOptions :=
  {| chunkStrategy := strategy; chunkSize := Some 1000; chunkOverlap := None;
     extractProductInfo := false; extractPricing := false;
     extractCompetitorMentions := false; detectSalesStages := false |}.

(** A text source that holds nothing but white space. *)
Definition blank_request : DocumentProcessingRequest :=
  {| source := {| source_type := from_text; file := None; url := None;
                  text := Some [space; newline; 9%N; space] |};
     options := options_for paragraph |}.

End PlainHost.

(* ================================================================== *)
(** * EmbeddingService: similarity, search in memory, batches          *)
(* ================================================================== *)

Module Similarity.

(** White space in the form that [cleanText] leaves it in: every white
    space unit is a space, and no two stand side by side. *)
Fixpoint single_spaced (s : jsstring) : bool :=
  match s with
  | [] => true
  | c :: rest =>
      (if is_whitespace c
       then (c =? space)%N
            && match rest with
               | d :: _ => negb (is_whitespace d)
               | [] => true
               end
       else true)
      && single_spaced rest
  end.

(** A text that does not begin with white space. *)
Definition head_not_whitespace (s : jsstring) : Prop :=
  match s with
  | c :: _ => is_whitespace c = false
  | [] => True
  end.

(** The loop of [calculateCosineSimilarity] over the indices of the two
    arrays, which have the same length: the three sums it keeps, from
    the values [acc] on. *)
Definition sums_from (acc : number * number * number)
  (pairs : list (number * number)) : number * number * number :=
  fold_left
    (fun acc pair =>
       let '(dotProduct, norm1, norm2) := acc in
       let '(x, y) := pair in
       (add dotProduct (mul x y), add norm1 (mul x x), add norm2 (mul y y)))
    pairs acc.

Definition sums (embedding1 embedding2 : list number)
  : number * number * number :=
  sums_from (zero, zero, zero) (combine embedding1 embedding2).

Definition calculateCosineSimilarity (embedding1 embedding2 : list number)
  : Completion number :=
  if negb (length embedding1 =? length embedding2)%nat
  then Thrown (js "Embeddings must have the same length")
  else
    let '(dotProduct, norm1, norm2) := sums embedding1 embedding2 in
    Returned (div dotProduct (mul (sqrt norm1) (sqrt norm2))).

Record Candidate := {
  candidate_id : jsstring;
  candidate_embedding : list number
}.

Record Scored := {
  scored_id : jsstring;
  similarity : number
}.

(** [candidateEmbeddings.map(...)]: the first candidate of another
    length ends the call. *)
Fixpoint score_all (queryEmbedding : list number) (candidates : list Candidate)
  : Completion (list Scored) :=
  match candidates with
  | [] => Returned []
  | candidate :: rest =>
      match calculateCosineSimilarity queryEmbedding
              (candidate_embedding candidate) with
      | Thrown problem => Thrown problem
      | Returned s =>
          match score_all queryEmbedding rest with
          | Thrown problem => Thrown problem
          | Returned scored =>
              Returned ({| scored_id := candidate_id candidate;
                           similarity := s |} :: scored)
          end
      end
  end.

(** [(a, b) => b.similarity - a.similarity] is positive, and [a] goes
    behind [b], when the difference is above zero. *)
Definition less_similar (a b : Scored) : bool :=
  gt (sub (similarity b) (similarity a)) zero.

(** [findMostSimilar]; a parameter that is left out takes its default,
    10 for the limit and 0.7 for the threshold. *)
Definition findMostSimilar (queryEmbedding : list number)
  (candidateEmbeddings : list Candidate) (limit : option Z)
  (threshold : option number) : Completion (list Scored) :=
  let limit := match limit with Some l => l | None => 10 end in
  let threshold := match threshold with Some t => t | None => lit 7 10 end in
  match score_all queryEmbedding candidateEmbeddings with
  | Thrown problem => Thrown problem
  | Returned scored =>
      Returned
        (JsArray.slice_to limit
           (JsArray.sort less_similar
              (filter (fun result => le threshold (similarity result)) scored)))
  end.

End Similarity.

(** ** Batches of texts *)

Module Batching.

Import EmbeddingService.

Record BatchEmbeddingResponse := {
  embeddings : list (list number);
  totalTokens : Z;
  model : jsstring;
  processingTime : Z
}.

(** The pauses of a run, in milliseconds and in order. *)
Definition delays (w : World) : list Z :=
  flat_map (fun event => match event with EvDelay ms => [ms] | _ => [] end)
           (timeline w).

Section Batches.

Variable config : EmbeddingModelConfig.
Variable create : nat -> list jsstring -> Settled CreateResponse.

(** [Date.now()]: the time at which the clock is read is a function of
    what has happened so far. *)
Variable now : World -> Z.

(** The loop of [generateEmbeddings] from index [i] on.  [fuel] bounds
    the number of batches, and the number of requests of each of them;
    [None] means that the loop has not come to its end within it. *)
Fixpoint batches (fuel : nat) (texts : list jsstring) (batchSize i : Z)
  (allEmbeddings : list (list number)) (total : Z) (w : World)
  : option (Settled (list (list number) * Z)) * World :=
  match fuel with
  | O => (None, w)
  | S fuel' =>
      if i <? Z.of_nat (length texts) then
        let batch := JsArray.slice i (i + batchSize) texts in
        match processBatch config create fuel batch w with
        | (None, w') => (None, w')
        | (Some (Rejected error), w') => (Some (Rejected error), w')
        | (Some (Resolved batchResponse), w') =>
            let allEmbeddings' :=
              allEmbeddings ++ EmbeddingService.embeddings batchResponse in
            let total' := total + EmbeddingService.totalTokens batchResponse in
            let w'' :=
              if i + batchSize <? Z.of_nat (length texts)
              then delay 100 w' else w' in
            batches fuel' texts batchSize (i + batchSize) allEmbeddings' total' w''
        end
      else (Some (Resolved (allEmbeddings, total)), w)
  end.

(** [generateEmbeddings(texts, batchSize = 100)] *)
Definition generateEmbeddings (fuel : nat) (texts : list jsstring)
  (batchSize : option Z) (w : World)
  : option (Settled BatchEmbeddingResponse) * World :=
  let batchSize := match batchSize with Some size => size | None => 100 end in
  let startTime := now w in
  match batches fuel texts batchSize 0 [] 0 w with
  | (None, w') => (None, w')
  | (Some (Rejected error), w') => (Some (Rejected error), w')
  | (Some (Resolved (allEmbeddings, total)), w') =>
      (Some (Resolved {| embeddings := allEmbeddings;
                         totalTokens := total;
                         model := EmbeddingService.model config;
                         processingTime := now w' - startTime |}),
       w')
  end.

(** [new Error(prefix + error.message)]: an error without a code. *)
Definition wrapped (prefix : jsstring) (error : ProviderError) : ProviderError :=
  {| code := []; message := prefix ++ message error |}.

(** [generateBatchEmbeddings(texts, options)] *)
Definition generateBatchEmbeddings (fuel : nat) (texts : list jsstring)
  (options_batchSize : option Z) (w : World)
  : option (Settled (list (list number))) * World :=
  match generateEmbeddings fuel texts options_batchSize w with
  | (None, w') => (None, w')
  | (Some (Rejected error), w') =>
      (Some (Rejected
               (wrapped (js "Failed to generate batch embeddings: ") error)),
       w')
  | (Some (Resolved response), w') => (Some (Resolved (embeddings response)), w')
  end.

(** [generateEmbedding(text)]: the first embedding of the answer, or
    [undefined] when the provider sent none. *)
Definition generateEmbedding (fuel : nat) (text : jsstring) (w : World)
  : option (Settled (option (list number))) * World :=
  match generateEmbeddings fuel [text] None w with
  | (None, w') => (None, w')
  | (Some (Rejected error), w') =>
      (Some (Rejected (wrapped (js "Failed to generate embedding: ") error)),
       w')
  | (Some (Resolved response), w') =>
      (Some (Resolved (nth_error (embeddings response) 0)), w')
  end.

(** The provider serves every request, with the embedding [embed] of
    each text of the input, in the order of the input. *)
Definition serves (embed : jsstring -> list number) : Prop :=
  forall n input, exists tokens,
    create n input = Resolved {| data := map embed input;
                                 usage_total_tokens := tokens |}.

(** The number of batches of [size] texts that [n] texts make. *)
Definition batch_count (n size : Z) : nat := Z.to_nat ((n + size - 1) / size).

End Batches.

End Batching.

(** Three texts in batches of two, with a provider that answers every
    text by the number of its code units. *)
Module ThreeTexts.

Import EmbeddingService.

Definition config : EmbeddingModelConfig :=
  {| provider := openai; model := js "text-embedding-3-small";
     dimensions := 1; maxTokens := 8191 |}.

Definition embed (text : jsstring) : list number :=
  [of_Z (Z.of_nat (length text))].

Definition create (n : nat) (input : list jsstring) : Settled CreateResponse :=
  Resolved {| data := map embed input; usage_total_tokens := Some 1 |}.

Definition now (w : World) : Z := Z.of_nat (length (timeline w)).

Definition texts : list jsstring := [js "one"; js " two  words "; js "three"].

End ThreeTexts.

(* ================================================================== *)
(** * VectorDatabase: updates of embeddings, filters as one predicate  *)
(* ================================================================== *)

Module VectorUpdates.

Import VectorDatabase.

Section Updates.

Variable Vector : Type.

(** [updateChunkEmbeddings]: [.update({ embedding })] on the rows with
    the chunk id and the tenant given.  (The column [updated_at], which
    a trigger of the table sets, is not among the columns of [Row].) *)
Definition updateChunkEmbeddings (table : Table Vector)
  (chunkId tenantId : jsstring) (new_embedding : Vector) : Table Vector :=
  map (fun r =>
         if str_eqb (chunk_id r) chunkId && str_eqb (tenant_id r) tenantId
         then {| id := id r;
                 document_id := document_id r;
                 chunk_id := chunk_id r;
                 tenant_id := tenant_id r;
                 content := content r;
                 embedding := new_embedding;
                 metadata := metadata r;
                 created_at := created_at r |}
         else r)
      table.

(** What a row has to satisfy to pass the filters of a request: every
    filter that is given and not empty. *)
Definition passes (f : VectorSearchFilters) (r : Row Vector) : bool :=
  match f_documentTypes f with
  | [] => true
  | types => in_column (documentType (metadata r)) types
  end
  && match f_salesCategories f with
     | [] => true
     | cats => in_column (salesCategory (metadata r)) cats
     end
  && match f_dateRange f with
     | Some (from, to) => (from <=? created_at r) && (created_at r <=? to)
     | None => true
     end
  && match f_productIds f with
     | [] => true
     | ids => overlaps (productIds (metadata r)) ids
     end
  && match f_salesStages f with
     | [] => true
     | stages => overlaps (salesStages (metadata r)) stages
     end
  && match f_customerSegments f with
     | [] => true
     | segs => overlaps (customerSegments (metadata r)) segs
     end.

(** The request [request] on behalf of another tenant and with other
    filters. *)
Definition rescoped (tenant : jsstring) (f : option VectorSearchFilters)
  (request : VectorSearchRequest Vector) : VectorSearchRequest Vector :=
  {| q_embedding := q_embedding request;
     tenantId := tenant;
     limit := limit request;
     threshold := threshold request;
     filters := f;
     includeEmbedding := includeEmbedding request;
     rerank := rerank request |}.

(** The content of the hit is longer than 100 and shorter than 1000
    units: [contentLength > 100 && contentLength < 1000]. *)
Definition of_boosted_length (result : VectorSearchResult Vector) : bool :=
  (100 <? Z.of_nat (length (r_content result)))
  && (Z.of_nat (length (r_content result)) <? 1000).

(** The similarity that the database found for a hit: its score, or
    the score it had before the reranking. *)
Definition retrieved (result : VectorSearchResult Vector) : Q :=
  match originalScore result with
  | Some s => s
  | None => score result
  end.

End Updates.

End VectorUpdates.

(* ================================================================== *)
(** * GenerationService: the prompt                                    *)
(* ================================================================== *)

Module Prompting.

Inductive CommunicationStyle := formal | casual | technical | friendly.

Inductive ResponseType := answer | proposal | objection_handling | follow_up.

Inductive ResponseFormat := text | structured | bullets | table.

Record DealContext := {
  dealValue : option number;
  timeline : option jsstring;
  decisionMakers : option (list jsstring);
  competitorsInvolved : option (list jsstring)
}.

Record SalesContext := {
  customerName : option jsstring;
  customerRole : option jsstring;
  customerCompany : option jsstring;
  salesRepName : option jsstring;
  salesRepRole : option jsstring;
  communicationStyle : option CommunicationStyle;
  responseType : option ResponseType;
  dealContext : option DealContext
}.

Record GenerationRequest := {
  query : jsstring;
  context : jsstring;
  salesContext : option SalesContext;
  maxTokens : option number;
  temperature : option number;
  responseFormat : option ResponseFormat
}.

(** A number in a condition: zero and NaN are falsy. *)
Definition nonzero (x : number) : bool :=
  negb (isNaN x || strict_eq x zero).

(** The first statement of [buildSystemPrompt]. *)
Definition instructions : jsstring :=
  js "Ты - экспертный AI-ассистент для продаж в системе SalesFlow AI. "
  ++ [newline]
  ++ js "Твоя задача - предоставлять точные, полезные и релевантные ответы на основе предоставленного контекста."
  ++ [newline; newline]
  ++ js "Основные принципы:" ++ [newline]
  ++ js "- Отвечай только на основе предоставленной информации" ++ [newline]
  ++ js "- Если информации недостаточно, честно об этом скажи" ++ [newline]
  ++ js "- Адаптируй стиль общения под контекст продаж" ++ [newline]
  ++ js "- Предлагай конкретные действия, когда это уместно" ++ [newline]
  ++ js "- Учитывай специфику российского рынка".

Definition styleMap (style : CommunicationStyle) : jsstring :=
  match style with
  | formal => js "официальный"
  | casual => js "неформальный"
  | technical => js "технический"
  | friendly => js "дружелюбный"
  end.

Definition typeMap (type : ResponseType) : jsstring :=
  match type with
  | answer => js "ответ на вопрос"
  | proposal => js "коммерческое предложение"
  | objection_handling => js "работа с возражениями"
  | follow_up => js "последующий контакт"
  end.

(** For the four formats of a request the entry of [formatMap] is
    found, so that the alternative 'в текстовом формате' is not
    taken. *)
Definition formatMap (format : ResponseFormat) : jsstring :=
  match format with
  | text => js "в виде текста"
  | structured => js "структурированно с заголовками"
  | bullets => js "в виде маркированного списка"
  | table => js "в виде таблицы"
  end.

(** A prompt that was extended at its end. *)
Definition extends (prompt prompt' : jsstring) : Prop :=
  exists tail, prompt' = prompt ++ tail.

Section Prompt.

(** The decimal form of a number in a template literal. *)
Variable show : number -> jsstring.

(** [if (value) prompt += label + value] for a string. *)
Definition line (label : jsstring) (value : option jsstring)
  (prompt : jsstring) : jsstring :=
  match RAGManager.truthy value with
  | Some v => prompt ++ label ++ v
  | None => prompt
  end.

Definition deal (d : DealContext) (prompt : jsstring) : jsstring :=
  let prompt := prompt ++ newline :: js "- Контекст сделки:" in
  let prompt :=
    match dealValue d with
    | Some value =>
        if nonzero value
        then prompt ++ js " бюджет " ++ show value ++ js " руб."
        else prompt
    | None => prompt
    end in
  let prompt := line (js " сроки: ") (timeline d) prompt in
  match competitorsInvolved d with
  | Some (c :: rest) => prompt ++ js " конкуренты: " ++ join (js ", ") (c :: rest)
  | _ => prompt
  end.

Definition buildSystemPrompt (salesContext : option SalesContext) : jsstring :=
  let prompt := instructions in
  match salesContext with
  | None => prompt
  | Some sc =>
      let prompt := prompt ++ newline :: newline :: js "Контекст продаж:" in
      let prompt := line (newline :: js "- Клиент: ") (customerName sc) prompt in
      let prompt :=
        line (newline :: js "- Компания: ") (customerCompany sc) prompt in
      let prompt :=
        line (newline :: js "- Менеджер: ") (salesRepName sc) prompt in
      let prompt :=
        match communicationStyle sc with
        | Some style =>
            prompt ++ newline :: js "- Стиль общения: " ++ styleMap style
        | None => prompt
        end in
      let prompt :=
        match responseType sc with
        | Some type => prompt ++ newline :: js "- Тип ответа: " ++ typeMap type
        | None => prompt
        end in
      match dealContext sc with
      | Some d => deal d prompt
      | None => prompt
      end
  end.

Definition buildContextPrompt (context : jsstring) : jsstring :=
  js "Доступная информация для ответа:" ++ newline :: newline :: context.

Definition buildQueryPrompt (query : jsstring) (format : option ResponseFormat)
  : jsstring :=
  let prompt :=
    js "Вопрос клиента: " ++ query
    ++ newline :: newline :: js "Ответь на вопрос" in
  let prompt :=
    match format with
    | Some f => prompt ++ space :: formatMap f
    | None => prompt
    end in
  prompt
  ++ js ". Включи конкретные рекомендации по следующим шагам, если это уместно.".

Definition buildPrompt (request : GenerationRequest) : jsstring :=
  buildSystemPrompt (salesContext request)
  ++ newline :: newline :: buildContextPrompt (context request)
  ++ newline :: newline
     :: buildQueryPrompt (query request) (responseFormat request).

End Prompt.

End Prompting.

(* ================================================================== *)
(** * DocumentProcessor: the shape of chunks                           *)
(* ================================================================== *)

Module ChunkShape.

Import DocumentProcessor.

(** A text that holds a code unit other than white space. *)
Definition has_ink (s : jsstring) : bool :=
  existsb (fun c => negb (is_whitespace c)) s.

(** A chunk that is not empty and not padded, whose two positions are
    as far apart as its content is long, and whose id carries its
    index. *)
Definition well_formed (c : DocumentChunk) : Prop :=
  content c <> [] /\
  trim (content c) = content c /\
  endPosition c = startPosition c + Z.of_nat (length (content c)) /\
  id_index (id c) = chunkIndex c.

(** Chunks that are numbered 0, 1, 2, ... in their order. *)
Definition numbered (chunks : list DocumentChunk) : Prop :=
  map chunkIndex chunks = map Z.of_nat (seq 0 (length chunks)).

(** The loop of [chunkByParagraph]: the chunks made so far are in
    order, and the chunk in the making is empty or holds more than
    white space. *)
Definition in_order (acc : Accumulator) : Prop :=
  numbered (made acc) /\ Forall well_formed (made acc) /\
  (currentChunk acc = [] \/ has_ink (currentChunk acc) = true).

(** No chunk made so far, nor the one in the making, is longer than
    [bound]. *)
Definition within (bound : Z) (acc : Accumulator) : Prop :=
  Forall (fun c => Z.of_nat (length (content c)) <= bound) (made acc) /\
  Z.of_nat (length (currentChunk acc)) <= bound.

(** A chunk has been made, or one is in the making. *)
Definition under_way (acc : Accumulator) : Prop :=
  made acc <> [] \/ has_ink (currentChunk acc) = true.

End ChunkShape.

(** A short text of two paragraphs, and options that ask for chunks of
    one hundred code units without naming an overlap. *)
Module TwoParagraphs.

Import DocumentProcessor.

Definition fullText : jsstring :=
  js "Price list." ++ [newline; newline] ++ js "Valid for one year.".

Definition request : DocumentProcessingRequest :=
  {| source := {| source_type := from_text; file := None; url := None;
                  text := Some fullText |};
     options := PlainHost.options_for paragraph |}.

Definition hundred : ProcessingOptions :=
  {| chunkStrategy := fixed_size; chunkSize := Some 100; chunkOverlap := None;
     extractProductInfo := false; extractPricing := false;
     extractCompetitorMentions := false; detectSalesStages := false |}.

Definition ten_by_four : ProcessingOptions :=
  {| chunkStrategy := fixed_size; chunkSize := Some 10; chunkOverlap := Some 6;
     extractProductInfo := false; extractPricing := false;
     extractCompetitorMentions := false; detectSalesStages := false |}.

End TwoParagraphs.

(* ================================================================== *)
(** * RAGManager: embeddings of chunks, deletion of a document         *)
(* ================================================================== *)

Module Pipeline.

Import EmbeddingService.

(** [{ ...chunk, embedding: embeddings[index] }] *)
Record EmbeddedChunk := {
  chunk : DocumentProcessor.DocumentChunk;
  embedding : option (list number)
}.

(** [chunks.map((chunk, index) => ...)], from [index] on. *)
Fixpoint attach (index : nat) (chunks : list DocumentProcessor.DocumentChunk)
  (embeddings : list (list number)) : list EmbeddedChunk :=
  match chunks with
  | [] => []
  | c :: rest =>
      {| chunk := c; embedding := nth_error embeddings index |}
        :: attach (S index) rest embeddings
  end.

Section Embeddings.

Variable config : EmbeddingModelConfig.
Variable create : nat -> list jsstring -> Settled CreateResponse.
Variable now : World -> Z.

(** [generateChunkEmbeddings(chunks, tenantId)]; the tenant is not
    consulted. *)
Definition generateChunkEmbeddings (fuel : nat)
  (chunks : list DocumentProcessor.DocumentChunk) (tenantId : jsstring)
  (w : World) : option (Settled (list EmbeddedChunk)) * World :=
  match Batching.generateBatchEmbeddings config create now fuel
          (map DocumentProcessor.content chunks) None w with
  | (None, w') => (None, w')
  | (Some (Rejected error), w') => (Some (Rejected error), w')
  | (Some (Resolved embeddings), w') =>
      (Some (Resolved (attach 0 chunks embeddings)), w')
  end.

End Embeddings.

(** *** Deletion of a document

    The manager keeps the chunks in the vector database, the documents
    in the table [knowledge_documents] and the files in a bucket, of
    which the keys are kept here in the order in which the bucket
    lists them.  The calls to the database are taken to succeed, as
    they are in [VectorDatabase]; a request to the bucket may fail, as
    the oracle [s3_fails] tells for the n-th request. *)

Section Deletion.

Variable Vector : Type.

Record Stores := {
  chunks : VectorDatabase.Table Vector;
  documents : list RAGManager.DocumentRow;
  bucket : list jsstring;
  s3_requests : nat;
  console : list jsstring
}.

Variable s3_fails : nat -> option jsstring.

(** [S3Manager.buildKey] *)
Definition buildKey (tenantId category fileName : jsstring) : jsstring :=
  js "salesflow-shared/" ++ tenantId ++ js "/" ++ category ++ js "/" ++ fileName.

(** [S3Manager.listFiles(prefix, maxKeys)]: the keys of the bucket that
    begin with the prefix, at most [maxKeys] of them. *)
Definition listFiles (prefix : jsstring) (maxKeys : Z) (st : Stores)
  : Completion (list jsstring) * Stores :=
  let st' := {| chunks := chunks st; documents := documents st;
                bucket := bucket st; s3_requests := S (s3_requests st);
                console := console st |} in
  match s3_fails (s3_requests st) with
  | Some problem => (Thrown problem, st')
  | None =>
      (Returned (firstn (Z.to_nat maxKeys)
                   (filter (starts_with prefix) (bucket st))), st')
  end.

(** [S3Manager.listTenantFiles(tenantId, category)] with the default
    of 100 keys. *)
Definition listTenantFiles (tenantId category : jsstring) (st : Stores)
  : Completion (list jsstring) * Stores :=
  listFiles (buildKey tenantId category []) 100 st.

(** [S3Manager.deleteFile(key)] *)
Definition deleteFile (key : jsstring) (st : Stores)
  : Completion unit * Stores :=
  match s3_fails (s3_requests st) with
  | Some problem =>
      (Thrown problem,
       {| chunks := chunks st; documents := documents st;
          bucket := bucket st; s3_requests := S (s3_requests st);
          console := console st |})
  | None =>
      (Returned tt,
       {| chunks := chunks st; documents := documents st;
          bucket := filter (fun k => negb (str_eqb k key)) (bucket st);
          s3_requests := S (s3_requests st);
          console := console st |})
  end.

(** [for (const file of relatedFiles) await deleteFile(file.key)] *)
Fixpoint deleteFiles (keys : list jsstring) (st : Stores)
  : Completion unit * Stores :=
  match keys with
  | [] => (Returned tt, st)
  | key :: rest =>
      match deleteFile key st with
      | (Thrown problem, st') => (Thrown problem, st')
      | (Returned _, st') => deleteFiles rest st'
      end
  end.

Definition warn_s3 (problem : jsstring) (st : Stores) : Stores :=
  {| chunks := chunks st; documents := documents st; bucket := bucket st;
     s3_requests := s3_requests st;
     console := console st ++ [js "Failed to delete S3 files: " ++ problem] |}.

(** [RAGManager.deleteDocument(documentId, tenantId)] *)
Definition deleteDocument (documentId tenantId : jsstring) (st : Stores)
  : Stores :=
  let st :=
    {| chunks := VectorDatabase.deleteDocument (chunks st) documentId tenantId;
       documents :=
         filter (fun row =>
                   negb (str_eqb (RAGManager.row_id row) documentId
                         && str_eqb (RAGManager.row_tenant_id row) tenantId))
                (documents st);
       bucket := bucket st; s3_requests := s3_requests st;
       console := console st |} in
  match listTenantFiles tenantId (js "knowledge-base") st with
  | (Thrown problem, st') => warn_s3 problem st'
  | (Returned files, st') =>
      let relatedFiles := filter (fun key => includes key documentId) files in
      match deleteFiles relatedFiles st' with
      | (Thrown problem, st'') => warn_s3 problem st''
      | (Returned _, st'') => st''
      end
  end.

End Deletion.

End Pipeline.

(** The library of tenant A with its files in the bucket: one file of
    each document, the file of [doc_y] being named after [doc_x], and a
    file of tenant B under the same name. *)
Module Shelf.

Definition key (tenant document name : string) : jsstring :=
  js "salesflow-shared/" ++ js tenant ++ js "/knowledge-base/"
  ++ js document ++ js name.

Definition bucket : list jsstring :=
  [key ToyIndex.tenant_a ToyIndex.doc_x "_prices.txt";
   key ToyIndex.tenant_a ToyIndex.doc_y
     ("_notes-on-" ++ ToyIndex.doc_x ++ ".txt");
   key ToyIndex.tenant_b ToyIndex.doc_x "_prices.txt"].

Definition stores : Pipeline.Stores ToyIndex.Vector :=
  {| Pipeline.chunks := ToyIndex.library;
     Pipeline.documents := ToyIndex.documents;
     Pipeline.bucket := bucket;
     Pipeline.s3_requests := 0;
     Pipeline.console := [] |}.

Definition always_up (n : nat) : option jsstring := None.

End Shelf.

(* ------------------------------------------------------------------ *)
(** ** Rounding never invents a NaN                                    *)
(* ------------------------------------------------------------------ *)

Section RoundingShape.

Lemma shr_1_nonneg mrs : 0 <= shr_m mrs -> 0 <= shr_m (shr_1 mrs).
Proof.
  destruct mrs as [m r s]; simpl.
  destruct m as [|p|p]; simpl; try lia.
  - destruct p; simpl; lia.
Qed.

Lemma iter_pos_shr_1_nonneg p :
  forall mrs, 0 <= shr_m mrs -> 0 <= shr_m (iter_pos shr_1 p mrs).
Proof.
  induction p as [p IH|p IH|]; intros mrs H; simpl.
  - apply IH, IH, shr_1_nonneg, H.
  - apply IH, IH, H.
  - apply shr_1_nonneg, H.
Qed.

Lemma shr_nonneg mrs e n :
  0 <= shr_m mrs -> 0 <= shr_m (fst (shr mrs e n)).
Proof.
  intros H. destruct n; simpl; auto.
  apply iter_pos_shr_1_nonneg, H.
Qed.

Lemma shr_record_of_loc_m m l : shr_m (shr_record_of_loc m l) = m.
Proof. destruct l as [|[ | | ]]; reflexivity. Qed.

Lemma shr_fexp_nonneg p x m e l :
  0 <= m -> 0 <= shr_m (fst (shr_fexp p x m e l)).
Proof.
  intros H. unfold shr_fexp. apply shr_nonneg.
  rewrite shr_record_of_loc_m. exact H.
Qed.

Lemma round_nearest_even_nonneg m l :
  0 <= m -> 0 <= round_nearest_even m l.
Proof.
  intros H. destruct l as [|[ | | ]]; simpl; try lia.
  destruct (Z.even m); lia.
Qed.

Lemma binary_round_aux_signed p x s m e l :
  0 <= m -> signed s (binary_round_aux p x s m e l).
Proof.
  intros H. unfold binary_round_aux.
  pose proof (shr_fexp_nonneg p x e l H) as H1.
  destruct (shr_fexp p x m e l) as [mrs' e']; simpl in H1.
  pose proof (round_nearest_even_nonneg (loc_of_shr_record mrs') H1) as H2.
  pose proof (shr_fexp_nonneg p x e' loc_Exact H2) as H3.
  destruct (shr_fexp p x _ e' loc_Exact) as [mrs'' e'']; simpl in H3.
  destruct (shr_m mrs'') as [|q|q].
  - constructor.
  - destruct (Z.leb e'' (x - p)); constructor.
  - lia.
Qed.

Lemma binary_round_signed p x s m e : signed s (binary_round p x s m e).
Proof.
  unfold binary_round.
  destruct (shl_align m e _) as [mz ez].
  apply binary_round_aux_signed. lia.
Qed.

Lemma binary_normalize_not_nan p x m e sz :
  not_nan (binary_normalize p x m e sz).
Proof.
  unfold not_nan, NaN.
  destruct m as [|q|q]; simpl; try discriminate.
  - destruct (binary_round_signed p x false q e); discriminate.
  - destruct (binary_round_signed p x true q e); discriminate.
Qed.

Lemma signed_not_nan s v : signed s v -> not_nan v.
Proof. intros []; discriminate. Qed.

End RoundingShape.


(* ------------------------------------------------------------------ *)
(** ** Signs of sums, squares, roots and quotients                     *)
(* ------------------------------------------------------------------ *)

Section Arithmetic.

Lemma mul_self_signed x : isFinite x = true -> signed false (mul x x).
Proof.
  destruct x as [s|s| |s m e]; simpl; try discriminate; intros _.
  - rewrite xorb_nilpotent. constructor.
  - unfold mul; simpl. rewrite xorb_nilpotent.
    apply binary_round_aux_signed. lia.
Qed.

Lemma add_signed_false a b :
  signed false a -> signed false b -> signed false (add a b).
Proof.
  intros [ | |ma ea] [ | |mb eb]; unfold add; simpl; try constructor.
  unfold binary_normalize.
  destruct (shl_align ma ea _) as [a' ?], (shl_align mb eb _) as [b' ?]; simpl.
  apply binary_round_signed.
Qed.

Lemma sqrt_signed_false a : signed false a -> signed false (sqrt a).
Proof.
  intros [ | |m e]; unfold sqrt; simpl; try constructor.
  unfold SFsqrt_core_binary.
  set (m' := match _ - _ with Z0 => _ | Zpos _ => _ | Zneg _ => _ end).
  pose proof (Z.sqrtrem_sqrt m') as Hs.
  destruct (Z.sqrtrem m') as [q r]; simpl in Hs.
  apply binary_round_aux_signed. subst q. apply Z.sqrt_nonneg.
Qed.

Lemma div_core_nonneg m1 e1 m2 e2 :
  let '(q, _, _) := SFdiv_core_binary prec emax (Zpos m1) e1 (Zpos m2) e2 in
  0 <= q.
Proof.
  unfold SFdiv_core_binary.
  set (s := _ - _ - _).
  set (m' := match s with Z0 => _ | Zpos _ => _ | Zneg _ => _ end).
  assert (Hm : 0 <= m').
  { subst m'. destruct s; try lia. apply Z.shiftl_nonneg. lia. }
  pose proof (Z.div_pos m' (Zpos m2) Hm ltac:(lia)) as Hq.
  unfold Z.div in Hq.
  destruct (Z.div_eucl m' (Zpos m2)) as [q r]. exact Hq.
Qed.

Lemma div_finite_not_nan x m :
  isFinite x = true -> signed false m -> strict_eq m zero = false ->
  not_nan (div x m).
Proof.
  intros Hx Hm Hz.
  destruct Hm as [ | |mm em]; [discriminate Hz| |];
    destruct x as [s|s| |s mx ex]; try discriminate Hx;
    unfold div; simpl; try discriminate.
  pose proof (div_core_nonneg mx ex mm em) as Hq.
  destruct (SFdiv_core_binary prec emax (Zpos mx) ex (Zpos mm) em)
    as [[q e'] l].
  apply (signed_not_nan (s := xorb s false)).
  apply binary_round_aux_signed, Hq.
Qed.

End Arithmetic.


(* ------------------------------------------------------------------ *)
(** ** Comparison, minimum and maximum                                 *)
(* ------------------------------------------------------------------ *)

Section Comparison.

Lemma SFcompare_antisym x y :
  SFcompare y x = option_map CompOpp (SFcompare x y).
Proof.
  destruct x as [[]|[]| |[] m1 e1], y as [[]|[]| |[] m2 e2];
    simpl; try reflexivity;
    rewrite (Z.compare_antisym e1 e2);
    destruct (e1 ?= e2); simpl; try reflexivity;
    change (Pos.compare_cont Eq) with Pos.compare;
    rewrite (Pos.compare_antisym m1 m2);
    destruct (m1 ?= m2)%positive; reflexivity.
Qed.

Lemma SFcompare_refl x : not_nan x -> SFcompare x x = Some Eq.
Proof.
  destruct x as [[]|[]| |[] m e]; simpl; intros H;
    try reflexivity; try (now elim H);
    rewrite Z.compare_refl;
    change (Pos.compare_cont Eq) with Pos.compare;
    rewrite Pos.compare_refl; reflexivity.
Qed.

Lemma SFcompare_defined x y :
  not_nan x -> not_nan y -> exists c, SFcompare x y = Some c.
Proof.
  destruct x, y; simpl; intros Hx Hy;
    try (now elim Hx); try (now elim Hy); eauto.
Qed.

Lemma SFleb_flip x y c :
  SFcompare x y = Some c -> c <> Lt -> SFleb y x = true.
Proof.
  intros H Hc. unfold SFleb. rewrite SFcompare_antisym, H.
  destruct c; simpl; congruence.
Qed.

(** Clamping a number that is not NaN between two bounds [lo < hi],
    neither of them a negative zero, yields a number between them. *)
Lemma clamp_between lo hi x :
  SFcompare lo hi = Some Lt ->
  is_neg_zero lo = false -> is_neg_zero hi = false ->
  not_nan x ->
  SFleb lo (math_max lo (math_min hi x)) = true /\
  SFleb (math_max lo (math_min hi x)) hi = true.
Proof.
  intros Hlt Hlo Hhi Hx.
  assert (Hnlo : not_nan lo) by (intros ->; discriminate Hlt).
  assert (Hnhi : not_nan hi) by (intros ->; destruct lo; discriminate Hlt).
  assert (Hlohi : SFleb lo hi = true) by (unfold SFleb; now rewrite Hlt).
  assert (Hlolo : SFleb lo lo = true)
    by (unfold SFleb; now rewrite SFcompare_refl).
  assert (Hhihi : SFleb hi hi = true)
    by (unfold SFleb; now rewrite SFcompare_refl).
  assert (Hm : (math_min hi x = hi) \/
               (math_min hi x = x /\ SFleb x hi = true)).
  { unfold math_min.
    destruct (SFcompare_defined Hnhi Hx) as [c Hc]. rewrite Hc, Hhi.
    destruct c; [right|left|right]; try reflexivity;
      (split; [reflexivity|]); eapply SFleb_flip; eauto; discriminate. }
  assert (Hnm : not_nan (math_min hi x))
    by (destruct Hm as [->|[-> _]]; assumption).
  unfold math_max at 1 2.
  destruct (SFcompare_defined Hnlo Hnm) as [c Hc]. rewrite Hc, Hlo.
  destruct c; try (split; assumption).
  split.
  - unfold SFleb. now rewrite Hc.
  - destruct Hm as [->|[-> H]]; assumption.
Qed.

End Comparison.

(* ------------------------------------------------------------------ *)
(** ** Operations with a positive finite operand                       *)
(* ------------------------------------------------------------------ *)

Section PositiveOperand.

Lemma of_Z_signed z : 0 <= z -> signed false (of_Z z).
Proof.
  intros H. unfold of_Z, binary_normalize.
  destruct z as [|p|p]; [constructor|apply binary_round_signed|lia].
Qed.

Lemma div_signed_false x d :
  signed false x -> positive_finite d -> signed false (div x d).
Proof.
  intros Hx [m [e ->]].
  destruct Hx as [ | |mx ex]; unfold div; simpl; try constructor.
  pose proof (div_core_nonneg mx ex m e) as Hq.
  destruct (SFdiv_core_binary prec emax (Zpos mx) ex (Zpos m) e)
    as [[q e'] l].
  apply binary_round_aux_signed, Hq.
Qed.

Lemma mul_signed_false x d :
  signed false x -> positive_finite d -> signed false (mul x d).
Proof.
  intros Hx [m [e ->]].
  destruct Hx as [ | |mx ex]; unfold mul; simpl; try constructor.
  apply binary_round_aux_signed. lia.
Qed.

Lemma sub_not_nan x d :
  not_nan x -> positive_finite d -> not_nan (sub x d).
Proof.
  intros Hx [m [e ->]].
  destruct x as [s|s| |s mx ex]; unfold sub; simpl;
    try discriminate; [now elim Hx|].
  apply binary_normalize_not_nan.
Qed.

End PositiveOperand.

(* ================================================================== *)
(** * EmbeddingService: validation and normalisation                   *)
(* ================================================================== *)

Section ValidateEmbedding.

Import EmbeddingService.

Variable config : EmbeddingModelConfig.

Lemma is_valid_component_spec v :
  is_valid_component v = true <-> exists x, v = JsNum x /\ x <> NaN.
Proof.
  split.
  - destruct v as [ | | |x| | | ]; simpl; try discriminate.
    intros H. exists x. split; [reflexivity|].
    intros ->. discriminate H.
  - intros [x [-> Hx]]. simpl.
    destruct x; try reflexivity. now elim Hx.
Qed.

Lemma every_valid_components slots :
  every is_valid_component slots = true <->
  Forall (fun slot => forall value, slot = Some value ->
                      exists x, value = JsNum x /\ x <> NaN) slots.
Proof.
  unfold every. rewrite forallb_forall, Forall_forall.
  split; intros H slot Hslot.
  - intros value ->. apply is_valid_component_spec. exact (H _ Hslot).
  - destruct slot as [value|]; [|reflexivity].
    apply is_valid_component_spec. now apply (H _ Hslot).
Qed.

(** C4 (as the code has it): [validateEmbedding] returns [true] exactly
    for arrays of the configured length all of whose components are
    numbers other than NaN, a hole of a sparse array counting for
    nothing.  Every other value is rejected; the function only answers
    with a boolean and builds no vector. *)
Theorem validateEmbedding_accepts_iff (embedding : jsvalue) :
  validateEmbedding config embedding = true <->
  numbers_of_dimension config embedding.
Proof.
  unfold validateEmbedding, numbers_of_dimension.
  destruct embedding as [ | | | | |slots| ];
    try (split; [discriminate | intros [l [Heq _]]; discriminate Heq]).
  destruct (Z.eqb_spec (Z.of_nat (length slots)) (dimensions config))
    as [Hlen|Hlen]; simpl.
  - rewrite every_valid_components. split.
    + intros H. exists slots. auto.
    + intros [l [Heq [_ H]]]. injection Heq as ->. exact H.
  - split; [discriminate|].
    intros [l [Heq [Hl _]]]. injection Heq as ->. contradiction.
Qed.

End ValidateEmbedding.

(** C4, counterexample: with one configured dimension the array
    [[Infinity]] is accepted although its component is not finite. *)
Lemma validateEmbedding_accepts_infinity :
  let config := {| EmbeddingService.provider := EmbeddingService.openai;
                   EmbeddingService.model := js "text-embedding-3-small";
                   EmbeddingService.dimensions := 1;
                   EmbeddingService.maxTokens := 8191 |} in
  let embedding :=
    EmbeddingService.JsArray [Some (EmbeddingService.JsNum Infinity)] in
  EmbeddingService.validateEmbedding config embedding = true /\
  ~ EmbeddingService.finite_of_dimension config embedding.
Proof.
  split; [reflexivity|].
  intros [l [Heq [_ H]]]. injection Heq as <-.
  apply Forall_inv in H. destruct H as [x [Hx Hfin]].
  injection Hx as <-. discriminate Hfin.
Qed.

Section NormalizeEmbedding.

Import EmbeddingService.

Lemma sumSquares_signed l :
  forall acc, signed false acc ->
  Forall (fun v => isFinite v = true) l ->
  signed false (fold_left (fun sum value => add sum (mul value value)) l acc).
Proof.
  induction l as [|v l IH]; intros acc Hacc Hl; simpl.
  - exact Hacc.
  - inversion Hl as [|? ? Hv Hl']; subst.
    apply IH; [|exact Hl'].
    apply add_signed_false; [exact Hacc|].
    apply mul_self_signed, Hv.
Qed.

Lemma magnitude_signed l :
  Forall (fun v => isFinite v = true) l -> signed false (magnitude l).
Proof.
  intros H. apply sqrt_signed_false, sumSquares_signed; [constructor|exact H].
Qed.

Lemma sumSquares_zero l :
  Forall is_zero l ->
  fold_left (fun sum value => add sum (mul value value)) l zero = zero.
Proof.
  induction l as [|v l IH]; intros H; simpl; [reflexivity|].
  inversion H as [|? ? Hv Hl]; subst.
  destruct v as [s| | | ]; try contradiction.
  destruct s; exact (IH Hl).
Qed.

Lemma finite_not_nan x : isFinite x = true -> not_nan x.
Proof. destruct x; simpl; intros H; try discriminate H; discriminate. Qed.

Lemma div_keeps_sign x m :
  isFinite x = true -> signed false m -> strict_eq m zero = false ->
  signed (sign_bit x) (div x m).
Proof.
  intros Hx Hm Hz.
  destruct Hm as [ | |mm em]; [discriminate Hz| |];
    destruct x as [s|s| |s mx ex]; try discriminate Hx;
    unfold div; simpl; rewrite ?xorb_false_r; try constructor.
  pose proof (div_core_nonneg mx ex mm em) as Hq.
  destruct (SFdiv_core_binary prec emax (Zpos mx) ex (Zpos mm) em)
    as [[q e'] l].
  apply binary_round_aux_signed, Hq.
Qed.

Lemma finite_signed x : isFinite x = true -> signed (sign_bit x) x.
Proof. destruct x; simpl; intros H; try discriminate H; constructor. Qed.


End NormalizeEmbedding.



(** Literals and the paragraph splitter on small inputs. *)
Example js_cyrillic : js "не" = [1085; 1077]%N.
Proof. reflexivity. Qed.

Example split_paragraphs_example :
  split_paragraphs (js "a
 
b
c

") = [js "a"; js "b
c"; js ""].
Proof. reflexivity. Qed.

Example split_on_example :
  split_on space (js " ab  c") = [js ""; js "ab"; js ""; js "c"].
Proof. reflexivity. Qed.

(* ------------------------------------------------------------------ *)
(** ** Throttled batches                                               *)
(* ------------------------------------------------------------------ *)

Section Throttling.

Import EmbeddingService.

Variable config : EmbeddingModelConfig.
Variable create : nat -> list jsstring -> Settled CreateResponse.
Variable texts : list jsstring.

(** The service has a client. *)
Hypothesis Hclient : provider config = openai.

#[local] Abbreviation throttled := (throttled config create texts).
#[local] Abbreviation settles := (settles config create texts).

Lemma has_client_openai : has_client config = true.
Proof. unfold has_client. rewrite Hclient. reflexivity. Qed.

(** Every throttled request is followed by a pause of five seconds and
    one more request: after [k] throttled requests in a row the call
    settles with the answer to request [k], whatever [k] is. *)
Lemma processOpenAIBatch_retries_while_throttled (k : nat) :
  forall (w : World) (fuel : nat),
    (forall i, (i < k)%nat -> throttled (requests w + i)) ->
    (exists outcome, settles (requests w + k) outcome) ->
    (k < fuel)%nat ->
    exists outcome w',
      processOpenAIBatch config create fuel texts w = (Some outcome, w') /\
      settles (requests w + k) outcome /\
      requests w' = (requests w + k + 1)%nat.
Proof.
  induction k as [|k IH]; intros w fuel Hthr [outcome Hset] Hfuel.
  - destruct fuel as [|fuel]; [lia|]. simpl. rewrite has_client_openai.
    unfold settles in *. rewrite Nat.add_0_r in *.
    destruct (create (requests w) (map (cleanText config) texts))
      as [response|error].
    + eexists _, _. split; [reflexivity|]. split; [eauto|simpl; lia].
    + destruct Hset as [Hcode _]. rewrite Hcode.
      eexists _, _. split; [reflexivity|]. split; [auto|simpl; lia].
  - destruct fuel as [|fuel]; [lia|]. simpl. rewrite has_client_openai.
    destruct (Hthr 0%nat ltac:(lia)) as [error [Hrej Hcode]].
    rewrite Nat.add_0_r in Hrej. rewrite Hrej, Hcode.
    assert (Hnext : requests (delay 5000 (sent (model config) (map (cleanText config) texts) w))
                    = S (requests w)) by reflexivity.
    destruct (IH (delay 5000 (sent (model config) (map (cleanText config) texts) w)) fuel)
      as [o [w' [Hrun [Ho Hreq]]]].
    + intros i Hi. rewrite Hnext.
      replace (S (requests w) + i)%nat with (requests w + S i)%nat by lia.
      apply Hthr. lia.
    + exists outcome. rewrite Hnext.
      replace (S (requests w) + k)%nat with (requests w + S k)%nat by lia.
      exact Hset.
    + lia.
    + rewrite Hnext in Ho, Hreq.
      replace (S (requests w) + k)%nat with (requests w + S k)%nat in Ho by lia.
      exists o, w'. split; [exact Hrun|]. split; [exact Ho|lia].
Qed.

(** Against a provider that throttles every request the call never
    settles, however many requests it is allowed. *)
Lemma processOpenAIBatch_never_gives_up :
  (forall n, throttled n) ->
  forall fuel w, fst (processOpenAIBatch config create fuel texts w) = None.
Proof.
  intros Hthr. induction fuel as [|fuel IH]; intros w; simpl; [reflexivity|].
  rewrite has_client_openai.
  destruct (Hthr (requests w)) as [error [Hrej Hcode]].
  rewrite Hrej, Hcode. apply IH.
Qed.

End Throttling.


(** C5, on the code: when the retry of a throttled batch is throttled
    too, [processOpenAIBatch] does not let that failure propagate.  It
    pauses and sends the batch a third time, and the caller receives
    the embeddings of the third request. *)
Theorem processOpenAIBatch_retries_more_than_once :
  ThrottledTwice.create 1 [js "price list"]
    = EmbeddingService.Rejected ThrottledTwice.throttling /\
  EmbeddingService.processOpenAIBatch ThrottledTwice.config
    ThrottledTwice.create 3 ThrottledTwice.texts EmbeddingService.initial
  = (Some (EmbeddingService.Resolved
             {| EmbeddingService.embeddings := [[of_Z 1; of_Z 0]];
                EmbeddingService.totalTokens := 3 |}),
     {| EmbeddingService.requests := 3;
        EmbeddingService.timeline :=
          [EmbeddingService.EvCreate (js "text-embedding-3-small") [js "price list"];
           EmbeddingService.EvDelay 5000;
           EmbeddingService.EvCreate (js "text-embedding-3-small") [js "price list"];
           EmbeddingService.EvDelay 5000;
           EmbeddingService.EvCreate (js "text-embedding-3-small") [js "price list"]] |}).
Proof. split; vm_compute; reflexivity. Qed.

(** An array of two holes has the length 2 and no component to test. *)
Example validateEmbedding_sparse :
  EmbeddingService.validateEmbedding
    {| EmbeddingService.provider := EmbeddingService.openai;
       EmbeddingService.model := js "text-embedding-3-small";
       EmbeddingService.dimensions := 2;
       EmbeddingService.maxTokens := 8191 |}
    (EmbeddingService.JsArray [None; None]) = true.
Proof. reflexivity. Qed.

(* ================================================================== *)
(** * Facts about strings and sorting                                  *)
(* ================================================================== *)

Lemma str_eqb_eq a : forall b, str_eqb a b = true <-> a = b.
Proof.
  induction a as [|x a IH]; intros [|y b]; simpl;
    try (split; [discriminate|discriminate]); [tauto|].
  rewrite andb_true_iff, N.eqb_eq, IH.
  split; [intros [-> ->]; reflexivity | intros [= -> ->]; auto].
Qed.

Lemma str_eqb_refl a : str_eqb a a = true.
Proof. apply str_eqb_eq. reflexivity. Qed.

Lemma str_eqb_neq a b : str_eqb a b = false <-> a <> b.
Proof.
  rewrite <- (str_eqb_eq a b).
  destruct (str_eqb a b); split; congruence.
Qed.

Section SortFacts.

Variable A : Type.
Variable after : A -> A -> bool.

Lemma insert_perm x l : Permutation (JsArray.insert after x l) (x :: l).
Proof.
  induction l as [|y l IH]; simpl; [reflexivity|].
  destruct (after x y); [|reflexivity].
  rewrite IH. apply perm_swap.
Qed.

Lemma sort_perm l : Permutation (JsArray.sort after l) l.
Proof.
  induction l as [|x l IH]; simpl; [reflexivity|].
  rewrite insert_perm. now constructor.
Qed.

Lemma sort_In l x : In x (JsArray.sort after l) <-> In x l.
Proof.
  split; apply Permutation_in; [|symmetry]; apply sort_perm.
Qed.

Lemma sort_length l : length (JsArray.sort after l) = length l.
Proof. apply Permutation_length, sort_perm. Qed.

End SortFacts.

Lemma starts_with_refl_app prefix rest :
  starts_with prefix (prefix ++ rest) = true.
Proof.
  induction prefix as [|c prefix IH]; simpl; [reflexivity|].
  rewrite N.eqb_refl. exact IH.
Qed.

Lemma In_firstn (A : Type) (n : nat) (l : list A) x :
  In x (firstn n l) -> In x l.
Proof.
  revert l; induction n as [|n IH]; intros [|y l]; simpl; try tauto.
  intros [->|H]; auto.
Qed.

(* ================================================================== *)
(** * VectorDatabase: what a search reads, and what can be stored      *)
(* ================================================================== *)

Section SearchRows.

Import VectorDatabase VectorUpdates.

Variable Vector : Type.
Variable similarity : Vector -> Vector -> Q.
Variable times : Q -> Q -> Q.

#[local] Abbreviation Row := (Row Vector).
#[local] Abbreviation Table := (Table Vector).

Lemma match_chunks_rows (rows : Table) q thr count data :
  match_chunks similarity rows q thr count = Some data ->
  forall row sim, In (row, sim) data -> In row rows.
Proof.
  unfold match_chunks. destruct (count <? 0); [discriminate|].
  intros [= <-] row sim H.
  apply In_firstn, sort_In, filter_In in H. destruct H as [H _].
  apply in_map_iff in H. destruct H as [r [[= -> _] Hr]]. exact Hr.
Qed.

Lemma rerankResults_made_from (results : list (VectorSearchResult Vector)) result :
  In result (rerankResults times results) ->
  exists result0, In result0 results /\
    r_id result = r_id result0 /\ r_documentId result = r_documentId result0.
Proof.
  unfold rerankResults. intros H. apply sort_In, in_map_iff in H.
  destruct H as [result0 [<- H0]]. exists result0. auto.
Qed.

(** Every result of a search is made from a row of the table. *)
Lemma search_rows (table : Table) request results :
  search similarity times table request = Returned results ->
  forall result, In result results ->
  exists row, In row table /\ made_from result row.
Proof.
  unfold search, rpc_match_chunks.
  destruct (match_chunks similarity table _ _ _) as [data|] eqn:Hm;
    [|discriminate].
  intros [= <-] result Hin.
  assert (Hplain : forall res, In res (map (to_result request) data) ->
            exists row, In row table /\ made_from res row).
  { intros res Hres. apply in_map_iff in Hres.
    destruct Hres as [[row sim] [<- Hd]].
    exists row. split; [eapply match_chunks_rows; eauto|]. split; reflexivity. }
  destruct (rerank request); [|auto].
  apply rerankResults_made_from in Hin.
  destruct Hin as [res0 [H0 [Hid Hdoc]]].
  destruct (Hplain res0 H0) as [row [Ht [Hid0 Hdoc0]]].
  exists row. unfold made_from. repeat split; congruence.
Qed.

(** The tenant and the filters of a request play no part in what a
    search returns. *)
Lemma search_ignores_scope (table : Table) request tenant f :
  search similarity times table (rescoped tenant f request)
  = search similarity times table request.
Proof. reflexivity. Qed.

(** [deleteDocument] removes every row of the document that is stored
    under the given tenant, and no other row. *)
Lemma deleteDocument_spec (table : Table) documentId tenant row :
  In row (deleteDocument table documentId tenant) <->
  In row table /\
  ~ (document_id row = documentId /\ tenant_id row = tenant).
Proof.
  unfold deleteDocument. rewrite filter_In, negb_true_iff, andb_false_iff.
  split; intros [Hin H]; (split; [exact Hin|]).
  - intros [E1 E2]. destruct H as [H|H]; apply str_eqb_neq in H; contradiction.
  - destruct (str_eqb (document_id row) documentId) eqn:E1; [|auto].
    destruct (str_eqb (tenant_id row) tenant) eqn:E2; [|auto].
    apply str_eqb_eq in E1, E2. tauto.
Qed.

(** No insertion of [indexChunks] is taken: the tenant that it writes
    into every row is not of the type of the column. *)
Lemma indexChunks_refused (table : Table) now documentId chunk chunks :
  exists value,
    is_uuid value = false /\
    indexChunks table now documentId (chunk :: chunks)
    = Thrown (js "Chunk indexing failed: Failed to index chunks: "
              ++ js "invalid input syntax for type uuid: "
              ++ quote :: value ++ [quote]).
Proof.
  unfold indexChunks, insert_rows. cbn [map first_ill_typed].
  unfold ill_typed at 1. cbn [id document_id tenant_id].
  assert (Hstub : is_uuid (extractTenantFromDocumentId documentId) = false)
    by reflexivity.
  rewrite Hstub.
  destruct (is_uuid (chunk_ident chunk)) eqn:Hid; cbn [negb];
    [destruct (is_uuid documentId) eqn:Hdoc; cbn [negb]|];
    eexists; (split; [|reflexivity]); assumption.
Qed.

End SearchRows.



(* ================================================================== *)
(** * Sorting: order and stability                                     *)
(* ================================================================== *)

Section SortOrder.

Variable A : Type.
Variable after : A -> A -> bool.

Hypothesis after_asym : forall x y, after x y = true -> after y x = false.
Hypothesis not_after_trans :
  forall x y z, after x y = false -> after y z = false -> after x z = false.

#[local] Abbreviation in_order := (fun a b : A => after a b = false).

Lemma insert_sorted x l :
  StronglySorted in_order l ->
  StronglySorted in_order (JsArray.insert after x l).
Proof.
  induction l as [|y l IH]; intros Hs; simpl.
  - repeat constructor.
  - inversion Hs as [|? ? Hl Hy]; subst.
    destruct (after x y) eqn:Hxy.
    + constructor; [apply IH, Hl|].
      apply Forall_forall. intros z Hz.
      apply (Permutation_in _ (insert_perm after x l)) in Hz.
      destruct Hz as [<-|Hz]; [apply after_asym, Hxy|].
      rewrite Forall_forall in Hy. apply Hy, Hz.
    + constructor; [exact Hs|].
      constructor; [exact Hxy|].
      apply Forall_impl with (2 := Hy).
      intros z Hz. eapply not_after_trans; eauto.
Qed.

Lemma sort_sorted l : StronglySorted in_order (JsArray.sort after l).
Proof.
  induction l as [|x l IH]; simpl; [constructor|].
  apply insert_sorted, IH.
Qed.

End SortOrder.

(** Sorting leaves a list as it is when no element has to go behind a
    later one. *)
Lemma sort_of_sorted (A : Type) (after : A -> A -> bool) l :
  StronglySorted (fun a b => after a b = false) l ->
  JsArray.sort after l = l.
Proof.
  induction 1 as [|x l Hl IH Hx]; simpl; [reflexivity|].
  rewrite IH. destruct l as [|y l']; [reflexivity|].
  simpl. inversion Hx as [|? ? Hxy _]; subst. rewrite Hxy. reflexivity.
Qed.

Lemma StronglySorted_weaken (A : Type) (R S : A -> A -> Prop) l :
  (forall a b, R a b -> S a b) -> StronglySorted R l -> StronglySorted S l.
Proof.
  intros HRS. induction 1 as [|a l Hl IH Ha]; constructor; auto.
  apply Forall_impl with (2 := Ha). apply HRS.
Qed.

Section SortStable.

Variable A : Type.
Variable after : A -> A -> bool.

(** [P] picks elements none of which has to go behind another. *)
Variable P : A -> bool.
Hypothesis P_ties : forall x y, P x = true -> P y = true -> after x y = false.

Lemma insert_stable x l :
  filter P (JsArray.insert after x l) = filter P (x :: l).
Proof.
  induction l as [|y l IH]; [reflexivity|].
  simpl JsArray.insert. destruct (after x y) eqn:Hxy; [|reflexivity].
  simpl in *. rewrite IH.
  destruct (P x) eqn:Hx, (P y) eqn:Hy; try reflexivity.
  rewrite (P_ties Hx Hy) in Hxy. discriminate.
Qed.

Lemma sort_stable l : filter P (JsArray.sort after l) = filter P l.
Proof.
  induction l as [|x l IH]; [reflexivity|].
  simpl JsArray.sort. rewrite insert_stable. simpl. now rewrite IH.
Qed.

End SortStable.

Lemma StronglySorted_firstn (A : Type) (R : A -> A -> Prop) n :
  forall l, StronglySorted R l -> StronglySorted R (firstn n l).
Proof.
  induction n as [|n IH]; intros l Hs; [constructor|].
  destruct Hs as [|a l Hl Ha]; simpl; constructor; [apply IH, Hl|].
  rewrite Forall_forall in *. intros x Hx. apply Ha. eapply In_firstn, Hx.
Qed.

Lemma StronglySorted_slice_to (A : Type) (R : A -> A -> Prop) n l :
  StronglySorted R l -> StronglySorted R (JsArray.slice_to n l).
Proof.
  intros Hs. unfold JsArray.slice_to.
  destruct (n <? 0); apply StronglySorted_firstn, Hs.
Qed.

Lemma StronglySorted_map (A B : Type) (f : A -> B) (R : B -> B -> Prop) l :
  StronglySorted (fun a b => R (f a) (f b)) l -> StronglySorted R (map f l).
Proof.
  induction 1 as [|a l Hl IH Ha]; simpl; constructor; [exact IH|].
  rewrite Forall_forall in *. intros y Hy.
  apply in_map_iff in Hy. destruct Hy as [x [<- Hx]]. apply Ha, Hx.
Qed.

Lemma Qgtb_true_iff x y : Qgtb x y = true <-> (y < x)%Q.
Proof.
  unfold Qgtb. rewrite negb_true_iff, <- not_true_iff_false, Qle_bool_iff.
  split; [apply Qnot_le_lt | apply Qlt_not_le].
Qed.

Lemma Qgtb_false_iff x y : Qgtb x y = false <-> (x <= y)%Q.
Proof.
  unfold Qgtb. rewrite negb_false_iff, Qle_bool_iff. reflexivity.
Qed.

(** Sorting by a score, highest first. *)
Lemma sort_by_score_sorted (A : Type) (f : A -> Q) l :
  StronglySorted (fun a b => (f b <= f a)%Q)
    (JsArray.sort (fun a b => Qgtb (f b) (f a)) l).
Proof.
  apply StronglySorted_weaken
    with (R := fun a b => Qgtb (f b) (f a) = false).
  - intros a b. apply Qgtb_false_iff.
  - apply sort_sorted.
    + intros x y. rewrite Qgtb_true_iff, Qgtb_false_iff. apply Qlt_le_weak.
    + intros x y z. rewrite !Qgtb_false_iff. intros H1 H2.
      eapply Qle_trans; eauto.
Qed.

(* ================================================================== *)
(** * VectorDatabase: the hits come best first                         *)
(* ================================================================== *)

Section SearchOrder.

Import VectorDatabase.

Variable Vector : Type.
Variable similarity : Vector -> Vector -> Q.
Variable times : Q -> Q -> Q.

Lemma match_chunks_sorted (rows : Table Vector) q thr count data :
  match_chunks similarity rows q thr count = Some data ->
  StronglySorted (fun x y => (snd y <= snd x)%Q) data.
Proof.
  unfold match_chunks. destruct (count <? 0); [discriminate|].
  intros [= <-]. apply StronglySorted_firstn.
  apply (sort_by_score_sorted (fun rs : Row Vector * Q => snd rs)).
Qed.

Lemma search_sorted (table : Table Vector) request results :
  search similarity times table request = Returned results ->
  StronglySorted (fun a b => (score b <= score a)%Q) results.
Proof.
  unfold search, rpc_match_chunks.
  destruct (match_chunks similarity _ _ _ _) as [data|] eqn:Hm; [|discriminate].
  intros [= <-]. destruct (rerank request).
  - apply (sort_by_score_sorted (@score Vector)).
  - apply StronglySorted_map.
    apply StronglySorted_weaken with (2 := match_chunks_sorted _ _ _ _ Hm).
    intros [r1 s1] [r2 s2] H. exact H.
Qed.

End SearchOrder.

(* ================================================================== *)
(** * RAGManager: the ranking                                          *)
(* ================================================================== *)

Section Ranking.

Import RAGManager.

Lemma ranks_after_iff a b :
  ranks_after a b = true <-> (combinedScore a < combinedScore b)%Q.
Proof.
  unfold ranks_after, compare_results, Qgtb.
  rewrite negb_true_iff, <- not_true_iff_false, Qle_bool_iff.
  split; intros H.
  - apply Qnot_le_lt in H. lra.
  - apply Qlt_not_le. lra.
Qed.

Lemma ranks_after_false_iff a b :
  ranks_after a b = false <-> (combinedScore b <= combinedScore a)%Q.
Proof.
  rewrite <- not_true_iff_false, ranks_after_iff.
  split; [apply Qnot_lt_le | apply Qle_not_lt].
Qed.

Lemma ranks_after_asym a b : ranks_after a b = true -> ranks_after b a = false.
Proof.
  rewrite ranks_after_iff, ranks_after_false_iff. apply Qlt_le_weak.
Qed.

Lemma not_ranks_after_trans a b c :
  ranks_after a b = false -> ranks_after b c = false -> ranks_after a c = false.
Proof.
  rewrite !ranks_after_false_iff. intros H1 H2. eapply Qle_trans; eauto.
Qed.

Lemma ties_not_after k a b :
  scores k a = true -> scores k b = true -> ranks_after a b = false.
Proof.
  unfold scores. intros Ha Hb.
  apply Qeq_bool_iff in Ha, Hb. apply ranks_after_false_iff.
  rewrite Ha, Hb. apply Qle_refl.
Qed.

Lemma getDocument_some documents documentId tenant doc :
  getDocument documents documentId tenant = Some doc ->
  doc_tenantId doc = tenant.
Proof.
  unfold getDocument.
  destruct (filter _ documents) as [|row [|row' rest]] eqn:Hf; try discriminate.
  intros [= <-]. simpl.
  assert (Hin : In row (filter
    (fun row => str_eqb (row_id row) documentId
                && str_eqb (row_tenant_id row) tenant) documents))
    by (rewrite Hf; now left).
  apply filter_In in Hin. destruct Hin as [_ Hb].
  apply andb_true_iff in Hb. destruct Hb as [_ Hb]. now apply str_eqb_eq.
Qed.

(** Inserting a hit that was found before all hits of a ranking and
    scores no lower on retrieval than any of them. *)
Lemma insert_ranked x l :
  StronglySorted ranked_before l ->
  Forall (fun y => (relevanceScore y <= relevanceScore x)%Q) l ->
  StronglySorted ranked_before (JsArray.insert ranks_after x l).
Proof.
  induction l as [|y l IH]; intros Hs Hx; simpl.
  - repeat constructor.
  - inversion Hs as [|? ? Hl Hy]; subst.
    inversion Hx as [|? ? Hxy Hxl]; subst.
    destruct (ranks_after x y) eqn:Hafter.
    + constructor; [apply IH; assumption|].
      apply Forall_forall. intros z Hz.
      apply (Permutation_in _ (insert_perm ranks_after x l)) in Hz.
      destruct Hz as [<-|Hz].
      * left. now apply ranks_after_iff.
      * rewrite Forall_forall in Hy. apply Hy, Hz.
    + apply ranks_after_false_iff in Hafter.
      constructor; [exact Hs|].
      assert (Hle : Forall (fun z => (combinedScore z <= combinedScore x)%Q)
                      (y :: l)).
      { constructor; [exact Hafter|].
        apply Forall_impl with (2 := Hy). intros z [Hz|[Hz _]].
        - apply Qlt_le_weak. eapply Qlt_le_trans; eauto.
        - rewrite <- Hz. exact Hafter. }
      rewrite Forall_forall in Hle, Hx |- *. intros z Hz.
      destruct (Qle_lt_or_eq _ _ (Hle z Hz)) as [Hlt|Heq].
      * left. exact Hlt.
      * right. split; [symmetry; exact Heq|apply Hx, Hz].
Qed.

(** The stable sort of hits that come in the order of their retrieval
    scores ranks by combined score first and by retrieval score
    second. *)
Lemma sort_ranked l :
  StronglySorted (fun a b => (relevanceScore b <= relevanceScore a)%Q) l ->
  StronglySorted ranked_before (JsArray.sort ranks_after l).
Proof.
  induction 1 as [|x l Hl IH Hx]; simpl; [constructor|].
  apply insert_ranked; [exact IH|].
  rewrite Forall_forall in *. intros y Hy. apply Hx.
  apply (Permutation_in _ (sort_perm ranks_after l)), Hy.
Qed.

Section Pipeline.

Variable Vector : Type.
Variable similarity : Vector -> Vector -> Q.
Variable times : Q -> Q -> Q.
Variable generateEmbedding : jsstring -> Completion Vector.
Variable highlight : jsstring -> jsstring -> Completion jsstring.
Variable config : SearchConfig.

Lemma getDocument_row documents documentId tenant doc :
  getDocument documents documentId tenant = Some doc ->
  doc_id doc = documentId /\ doc_tenantId doc = tenant /\
  doc_salesMetadata doc = None /\
  exists row, In row documents /\ doc = mapDatabaseToDocument row.
Proof.
  unfold getDocument.
  destruct (filter _ documents) as [|row [|row' rest]] eqn:Hf; try discriminate.
  intros [= <-]. simpl.
  assert (Hin : In row (filter
    (fun row => str_eqb (row_id row) documentId
                && str_eqb (row_tenant_id row) tenant) documents))
    by (rewrite Hf; now left).
  apply filter_In in Hin. destruct Hin as [Hrow Hb].
  apply andb_true_iff in Hb. destruct Hb as [Hid Hten].
  apply str_eqb_eq in Hid, Hten.
  repeat split; auto. exists row. auto.
Qed.

(** What the loop over the hits of the vector search builds. *)
Lemma collect_hits request documents
  (vectorResults : list (VectorDatabase.VectorSearchResult Vector)) :
  forall results,
  collect highlight request documents vectorResults = Returned results ->
  (length results <= length vectorResults)%nat /\
  Forall (fun r =>
            exists v, In v vectorResults /\
              getDocument documents (VectorDatabase.r_documentId v)
                (tenantId request) = Some (document r) /\
              relevanceScore r = VectorDatabase.score v /\
              salesRelevanceScore r =
              option_map (calculateSalesRelevance (document r))
                (salesContext request))
         results.
Proof.
  induction vectorResults as [|v vs IH]; intros results Hc; simpl in Hc.
  - injection Hc as <-. split; [simpl; lia | constructor].
  - destruct (getDocument documents _ _) as [doc|] eqn:Hdoc.
    2: { destruct (IH _ Hc) as [Hlen Hall]. split; [simpl; lia|].
         apply Forall_impl with (2 := Hall).
         intros r [v' [Hin Hr]]. exists v'. split; [now right | exact Hr]. }
    destruct (highlight _ _) as [highlighted|]; [|discriminate].
    destruct (collect highlight request documents vs) as [rest|];
      [|discriminate].
    injection Hc as <-. destruct (IH _ eq_refl) as [Hlen Hall].
    split; [simpl; lia|]. constructor.
    + exists v. simpl. auto.
    + apply Forall_impl with (2 := Hall).
      intros r [v' [Hin Hr]]. exists v'. split; [now right | exact Hr].
Qed.

(** The documents are loaded without sales metadata: the sales
    relevance of a hit depends on the request alone. *)
Lemma collect_sales request documents
  (vectorResults : list (VectorDatabase.VectorSearchResult Vector)) results :
  collect highlight request documents vectorResults = Returned results ->
  Forall (fun r =>
            salesRelevanceScore r =
            option_map (fun context =>
                          match urgencyLevel context with
                          | Some critical => (1 # 10)%Q
                          | _ => 0%Q
                          end)
                       (salesContext request))
         results.
Proof.
  intros Hcollect. destruct (collect_hits _ _ _ Hcollect) as [_ Hall].
  apply Forall_impl with (2 := Hall).
  intros r [v [_ [Hdoc [_ ->]]]].
  destruct (getDocument_row _ _ _ Hdoc) as [_ [_ [Hmeta _]]].
  destruct (salesContext request) as [context|]; [|reflexivity].
  simpl. f_equal. unfold calculateSalesRelevance. rewrite Hmeta.
  destruct context as [products stage segment urgency]; simpl.
  destruct products, (truthy stage), (truthy segment), urgency as [[]|];
    reflexivity.
Qed.

(** The ranking key of the hits of one request. *)
Lemma collect_key request documents
  (vectorResults : list (VectorDatabase.VectorSearchResult Vector)) results :
  collect highlight request documents vectorResults = Returned results ->
  Forall (fun r =>
            combinedScore r =
            if urgent request then ((relevanceScore r + (1 # 10)) / 2)%Q
            else relevanceScore r)
         results.
Proof.
  intros Hcollect. apply collect_sales in Hcollect.
  apply Forall_impl with (2 := Hcollect).
  intros r Hr. unfold combinedScore, urgent. rewrite Hr.
  destruct (salesContext request) as [context|]; [|reflexivity].
  simpl. destruct (urgencyLevel context) as [[]|]; reflexivity.
Qed.

(** The loop keeps the order of the vector search, and the retrieval
    score of a hit is the score of the vector search. *)
Lemma collect_sorted request documents
  (vectorResults : list (VectorDatabase.VectorSearchResult Vector)) :
  StronglySorted
    (fun a b => (VectorDatabase.score b <= VectorDatabase.score a)%Q)
    vectorResults ->
  forall results,
  collect highlight request documents vectorResults = Returned results ->
  StronglySorted (fun a b => (relevanceScore b <= relevanceScore a)%Q) results /\
  Forall (fun r => exists v, In v vectorResults /\
                             relevanceScore r = VectorDatabase.score v) results.
Proof.
  induction 1 as [|v vs Hvs IH Hv]; intros results Hc; simpl in Hc.
  - injection Hc as <-. split; constructor.
  - destruct (getDocument documents _ _) as [doc|].
    2: { destruct (IH _ Hc) as [H1 H2]. split; [exact H1|].
         apply Forall_impl with (2 := H2).
         intros r [v' [Hin Hr]]. exists v'. split; [now right|exact Hr]. }
    destruct (highlight _ _) as [highlighted|]; [|discriminate].
    destruct (collect highlight request documents vs) as [rest|] eqn:Hrest;
      [|discriminate].
    injection Hc as <-.
    destruct (IH _ eq_refl) as [H1 H2]. split.
    + constructor; [exact H1|].
      apply Forall_impl with (2 := H2). intros r [v' [Hin Hr]]. simpl.
      rewrite Hr. rewrite Forall_forall in Hv. apply Hv, Hin.
    + constructor.
      * exists v. split; [now left|reflexivity].
      * apply Forall_impl with (2 := H2).
        intros r [v' [Hin Hr]]. exists v'. split; [now right|exact Hr].
Qed.

(** Hits that share their sales relevance and come in the order of
    their retrieval scores come in the order of their ranking keys. *)
Lemma sorted_by_key (urgency : bool) (hits : list RAGSearchResult) :
  Forall (fun r =>
            combinedScore r =
            if urgency then ((relevanceScore r + (1 # 10)) / 2)%Q
            else relevanceScore r) hits ->
  StronglySorted (fun a b => (relevanceScore b <= relevanceScore a)%Q) hits ->
  StronglySorted (fun a b => (combinedScore b <= combinedScore a)%Q) hits.
Proof.
  intros Hkey. induction 1 as [|x l Hl IH Hx]; [constructor|].
  inversion Hkey as [|? ? Hkx Hkl]; subst.
  constructor; [apply IH, Hkl|].
  rewrite Forall_forall in *. intros y Hy.
  rewrite Hkx, (Hkl y Hy). specialize (Hx y Hy).
  destruct urgency; [|exact Hx].
  apply Qmult_le_compat_r; [lra|]. vm_compute. discriminate.
Qed.

(** Every hit carries a document of the tenant that asks. *)
Lemma collect_tenant request documents
  (vectorResults : list (VectorDatabase.VectorSearchResult Vector)) :
  forall results,
  collect highlight request documents vectorResults = Returned results ->
  Forall (fun r => doc_tenantId (document r) = tenantId request) results.
Proof.
  induction vectorResults as [|v vs IH]; intros results Hc; simpl in Hc.
  - injection Hc as <-. constructor.
  - destruct (getDocument documents _ _) as [doc|] eqn:Hdoc; [|now apply IH].
    destruct (highlight _ _) as [highlighted|]; [|discriminate].
    destruct (collect highlight request documents vs) as [rest|]; [|discriminate].
    injection Hc as <-. constructor; [|now apply IH].
    simpl. eapply getDocument_some, Hdoc.
Qed.


End Pipeline.

End Ranking.



(* ================================================================== *)
(** * GenerationService: the confidence heuristic                      *)
(* ================================================================== *)

Example lower_cyrillic :
  GenerationService.lower_latin_cyrillic (js "Не Уверен, MAYBE")
  = js "не уверен, maybe".
Proof. reflexivity. Qed.

Example confidence_plain :
  Answers.confidence (js "the price is fixed") (js "price list of the year")
  = add (lit 1 2) (mul (div (of_Z 1) (of_Z 5)) (lit 3 10)).
Proof. vm_compute. reflexivity. Qed.

Section ConfidenceFacts.

Import GenerationService.

Variable toLowerCase : jsstring -> jsstring.

#[local] Abbreviation base := (@base).
#[local] Abbreviation overlap := (overlap toLowerCase).
#[local] Abbreviation contextWords := (contextWords toLowerCase).
#[local] Abbreviation overlapBonus := (overlapBonus toLowerCase).
#[local] Abbreviation hedged := (hedged toLowerCase).
#[local] Abbreviation hedges := (hedges toLowerCase).
#[local] Abbreviation calculateConfidence := (calculateConfidence toLowerCase).

Lemma is_positive_finite_spec x :
  is_positive_finite x = true -> positive_finite x.
Proof.
  destruct x as [ | | |[] m e]; try discriminate. intros _. now exists m, e.
Qed.

(** The integers from 1 to 100 are positive finite numbers. *)
Lemma of_Z_small d : 1 <= d <= 100 -> positive_finite (of_Z d).
Proof.
  intros Hd. apply is_positive_finite_spec.
  assert (Hall : forallb (fun k => is_positive_finite (of_Z (Z.of_nat k)))
                   (seq 1 100) = true) by (vm_compute; reflexivity).
  rewrite forallb_forall in Hall.
  rewrite <- (Z2Nat.id d) by lia. apply Hall, in_seq. lia.
Qed.

Lemma lit_3_10_positive : positive_finite (lit 3 10).
Proof. apply is_positive_finite_spec. vm_compute. reflexivity. Qed.

Lemma lit_1_10_positive : positive_finite (lit 1 10).
Proof. apply is_positive_finite_spec. vm_compute. reflexivity. Qed.

Lemma split_on_length sep s : (1 <= length (split_on sep s))%nat.
Proof.
  induction s as [|c s IH]; simpl; [lia|].
  destruct (c =? sep)%N; simpl; [lia|].
  destruct (split_on sep s); simpl; lia.
Qed.

Lemma overlap_le answer context :
  (overlap answer context <= length (contextWords context))%nat.
Proof. unfold GenerationService.overlap. apply filter_length_le. Qed.

Lemma base_signed answer : signed false (base answer).
Proof.
  unfold GenerationService.base.
  destruct (200 <? _), (500 <? _); vm_compute; constructor.
Qed.

Lemma overlapBonus_signed answer context :
  signed false (overlapBonus answer context).
Proof.
  unfold GenerationService.overlapBonus, overlapRatio.
  apply mul_signed_false; [|exact lit_3_10_positive].
  apply div_signed_false; [apply of_Z_signed; lia|].
  apply of_Z_small.
  pose proof (split_on_length space (toLowerCase context)).
  unfold GenerationService.contextWords. lia.
Qed.

Lemma hedging_not_nan answer phrases :
  forall confidence, not_nan confidence ->
  not_nan
    (fold_left
       (fun confidence phrase =>
          if hedged answer phrase then sub confidence (lit 1 10)
          else confidence)
       phrases confidence).
Proof.
  induction phrases as [|p phrases IH]; intros c Hc; simpl; [exact Hc|].
  apply IH. destruct (hedged answer p); [|exact Hc].
  apply sub_not_nan; [exact Hc|exact lit_1_10_positive].
Qed.

Lemma hedging_iter answer phrases :
  forall confidence,
  fold_left
    (fun confidence phrase =>
       if hedged answer phrase then sub confidence (lit 1 10)
       else confidence)
    phrases confidence
  = Nat.iter (length (filter (hedged answer) phrases))
      (fun confidence => sub confidence (lit 1 10)) confidence.
Proof.
  induction phrases as [|p phrases IH]; intros c; simpl; [reflexivity|].
  rewrite IH. destruct (hedged answer p); [|reflexivity].
  simpl length. now rewrite Nat.iter_succ_r.
Qed.

(** C7: the confidence is a number between 0.1 and 0.95, both included,
    whatever the answer and the context are; in particular it is never
    NaN. *)
Theorem calculateConfidence_bounds (answer context : jsstring) :
  le (lit 1 10) (calculateConfidence answer context) = true /\
  le (calculateConfidence answer context) (lit 95 100) = true.
Proof.
  unfold GenerationService.calculateConfidence, clamp, le.
  apply clamp_between.
  - vm_compute; reflexivity.
  - vm_compute; reflexivity.
  - vm_compute; reflexivity.
  - apply hedging_not_nan.
    apply (signed_not_nan (s := false)).
    apply add_signed_false; [apply base_signed|apply overlapBonus_signed].
Qed.

(** With at most a hundred words in the context the bonus for the
    overlap does not exceed 0.3. *)
Lemma bonus_small (k n : nat) :
  (k <= n)%nat -> (1 <= n <= 100)%nat ->
  le (mul (div (of_Z (Z.of_nat k)) (of_Z (Z.of_nat n))) (lit 3 10)) (lit 3 10)
    = true.
Proof.
  intros Hk Hn.
  assert (Hall :
    forallb (fun n =>
      forallb (fun k =>
        le (mul (div (of_Z (Z.of_nat k)) (of_Z (Z.of_nat n))) (lit 3 10))
           (lit 3 10))
        (seq 0 (S n)))
      (seq 1 100) = true) by (vm_compute; reflexivity).
  rewrite forallb_forall in Hall.
  assert (Hin : In n (seq 1 100)) by (apply in_seq; lia).
  specialize (Hall n Hin). rewrite forallb_forall in Hall.
  apply Hall, in_seq. lia.
Qed.

(** C6 (as the code has it): the confidence is the clamped value of
    0.5, plus 0.1 for an answer of more than 200 code units and 0.1
    more for one of more than 500, plus the overlap bonus, minus 0.1
    for each hedging phrase of the list that the answer contains.  The
    overlap bonus is 0.3 times the number of context words of more than
    three code units that occur among the words of the answer, divided
    by the number of context words or by 100 if there are more; it is
    at most 0.3 when the context has no more than a hundred words. *)
Theorem calculateConfidence_formula (answer context : jsstring) :
  calculateConfidence answer context
    = clamp (Nat.iter (hedges answer)
               (fun confidence => sub confidence (lit 1 10))
               (add (base answer) (overlapBonus answer context))) /\
  base answer
    = (if 500 <? Z.of_nat (length answer)
       then add (add (lit 1 2) (lit 1 10)) (lit 1 10)
       else if 200 <? Z.of_nat (length answer)
            then add (lit 1 2) (lit 1 10)
            else lit 1 2) /\
  overlapBonus answer context
    = mul (div (of_Z (Z.of_nat (overlap answer context)))
             (of_Z (Z.min (Z.of_nat (length (contextWords context))) 100)))
        (lit 3 10) /\
  ((length (contextWords context) <= 100)%nat ->
   le (overlapBonus answer context) (lit 3 10) = true).
Proof.
  split; [|split; [|split]].
  - unfold GenerationService.calculateConfidence, GenerationService.hedges.
    now rewrite hedging_iter.
  - unfold GenerationService.base.
    destruct (Z.ltb_spec 200 (Z.of_nat (length answer))),
             (Z.ltb_spec 500 (Z.of_nat (length answer)));
      try reflexivity; lia.
  - reflexivity.
  - intros Hn. unfold GenerationService.overlapBonus, overlapRatio.
    pose proof (split_on_length space (toLowerCase context)) as H1.
    fold (contextWords context) in H1.
    rewrite Z.min_l by lia.
    apply bonus_small; [apply overlap_le|lia].
Qed.

End ConfidenceFacts.

(** A context of five words, one of which the answer shares: the bonus
    is a fifth of 0.3. *)
Lemma calculateConfidence_formula_witness :
  (length (GenerationService.contextWords GenerationService.lower_latin_cyrillic
             (js "price list of the year")) <= 100)%nat /\
  GenerationService.overlapBonus GenerationService.lower_latin_cyrillic
    (js "the price is fixed") (js "price list of the year")
  = mul (div (of_Z 1) (of_Z 5)) (lit 3 10) /\
  le (GenerationService.overlapBonus GenerationService.lower_latin_cyrillic
        (js "the price is fixed") (js "price list of the year"))
     (lit 3 10) = true.
Proof.
  assert (Hwords :
    (length (GenerationService.contextWords
               GenerationService.lower_latin_cyrillic
               (js "price list of the year")) <= 100)%nat)
    by (vm_compute; repeat constructor).
  split; [exact Hwords|].
  destruct (calculateConfidence_formula GenerationService.lower_latin_cyrillic
              (js "the price is fixed") (js "price list of the year"))
    as [_ [_ [_ Hcap]]].
  split; [vm_compute; reflexivity | exact (Hcap Hwords)].
Defined.

(** C6, counterexample: against a context of two hundred words, all of
    which the answer uses, the overlap bonus is 0.6, twice the 0.3 it is
    said not to exceed.  The answer is short and hedges twice, and its
    confidence is 0.9, where a bonus of at most 0.3 allows for no more
    than 0.6. *)
Lemma calculateConfidence_bonus_above_cap :
  GenerationService.overlapBonus GenerationService.lower_latin_cyrillic
    Answers.hedging_answer Answers.long_context = lit 6 10 /\
  lt (lit 3 10) (lit 6 10) = true /\
  GenerationService.hedges GenerationService.lower_latin_cyrillic
    Answers.hedging_answer = 2%nat /\
  GenerationService.base Answers.hedging_answer = lit 1 2 /\
  Answers.confidence Answers.hedging_answer Answers.long_context = lit 9 10 /\
  lt (lit 6 10) (lit 9 10) = true.
Proof. repeat split; vm_compute; reflexivity. Qed.

(* ================================================================== *)
(** * DocumentProcessor                                                *)
(* ================================================================== *)

Section ProcessorFacts.

Import DocumentProcessor.

Variable host : Host.

(** C8: when the extraction returns a text that is empty once trimmed,
    [process] returns a result, namely the unsuccessful one that carries
    no chunks, counts zero chunks created, and reports that no text
    could be extracted.  The clock has been read twice and nothing has
    been written to the console. *)
Theorem process_reports_no_content (fuel : nat)
  (request : DocumentProcessingRequest) (extracted : jsstring) (w : World) :
  extractText host (source request) = Returned extracted ->
  trim extracted = [] ->
  let (outcome, w') := process host fuel request w in
  exists result,
  outcome = Some result /\
  result = failure host (now host (S (reads w)) - now host (reads w)) (no_text) /\
  success result = false /\
  chunks result = None /\
  chunksCreated (processingMetadata result) = 0 /\
  errors (processingMetadata result)
    = Some [js "No text could be extracted from the document"] /\
  w' = {| reads := S (S (reads w)); console := console w |}.
Proof.
  intros Hext Htrim. unfold process, bind, Date_now, ret.
  rewrite Hext, Htrim. simpl length. rewrite orb_true_r.
  eexists. repeat split.
Qed.

(** *** The console plays no part in the chunking *)

Lemma clock_only_ret (A : Type) (a : A) : clock_only (ret a).
Proof. intros [r c]. reflexivity. Qed.

Lemma clock_only_Date_now : clock_only (Date_now host).
Proof. intros [r c]. reflexivity. Qed.

Lemma clock_only_bind (A B : Type) (m : M A) (k : A -> M B) :
  clock_only m -> (forall a, clock_only (k a)) -> clock_only (bind m k).
Proof.
  intros Hm Hk w. unfold bind.
  rewrite (Hm w). rewrite (Hm (at_reading (reads w))). simpl.
  set (a := fst (m (at_reading (reads w)))).
  set (r := reads (snd (m (at_reading (reads w))))).
  rewrite (Hk a {| reads := r; console := console w |}). simpl.
  fold (at_reading r). reflexivity.
Qed.

Lemma clock_only_createChunk body index start fullText :
  clock_only (createChunk host body index start fullText).
Proof.
  unfold createChunk. apply clock_only_bind.
  - apply clock_only_Date_now.
  - intros stamp. apply clock_only_ret.
Qed.

Lemma clock_only_paragraph_step fullText opts maxChunkSize acc p :
  clock_only (paragraph_step host fullText opts maxChunkSize acc p).
Proof.
  unfold paragraph_step.
  destruct (_ && _).
  - apply clock_only_bind; [apply clock_only_createChunk|].
    intros chunk. apply clock_only_ret.
  - apply clock_only_ret.
Qed.

Lemma clock_only_paragraph_loop fullText opts maxChunkSize paragraphs :
  forall acc,
    clock_only (paragraph_loop host fullText opts maxChunkSize paragraphs acc).
Proof.
  induction paragraphs as [|p rest IH]; intros acc; simpl.
  - apply clock_only_ret.
  - apply clock_only_bind; [apply clock_only_paragraph_step|exact IH].
Qed.

Lemma clock_only_chunkByParagraph fullText opts :
  clock_only (chunkByParagraph host fullText opts).
Proof.
  unfold chunkByParagraph.
  apply clock_only_bind; [apply clock_only_paragraph_loop|].
  intros acc. destruct (0 <? _).
  - apply clock_only_bind; [apply clock_only_createChunk|].
    intros chunk. apply clock_only_ret.
  - apply clock_only_ret.
Qed.

(** [chunkByParagraph] reads the size and the overlap of the options
    and nothing else. *)
Lemma paragraph_step_options fullText o1 o2 maxChunkSize acc p :
  chunkOverlap o1 = chunkOverlap o2 ->
  paragraph_step host fullText o1 maxChunkSize acc p
  = paragraph_step host fullText o2 maxChunkSize acc p.
Proof. intros Ho. unfold paragraph_step. now rewrite Ho. Qed.

Lemma paragraph_loop_options fullText o1 o2 maxChunkSize paragraphs :
  chunkOverlap o1 = chunkOverlap o2 ->
  forall acc w,
    paragraph_loop host fullText o1 maxChunkSize paragraphs acc w
    = paragraph_loop host fullText o2 maxChunkSize paragraphs acc w.
Proof.
  intros Ho. induction paragraphs as [|p rest IH]; intros acc w; simpl;
    [reflexivity|].
  unfold bind. rewrite (@paragraph_step_options fullText o1 o2 maxChunkSize acc p Ho).
  destruct (paragraph_step host fullText o2 maxChunkSize acc p w).
  apply IH.
Qed.

Lemma chunkByParagraph_options fullText o1 o2 w :
  chunkSize o1 = chunkSize o2 -> chunkOverlap o1 = chunkOverlap o2 ->
  chunkByParagraph host fullText o1 w = chunkByParagraph host fullText o2 w.
Proof.
  intros Hs Ho. unfold chunkByParagraph, bind. rewrite Hs.
  now rewrite (@paragraph_loop_options fullText o1 o2 _ _ Ho).
Qed.

(** C9: for every text and all options, [chunkBySemantic] returns the
    chunks that [chunkByParagraph] returns, with the same ids, and so
    does [createChunks] under the strategies [semantic] and [paragraph],
    which returns these chunks.  The two differ in one line on the
    console. *)
Theorem chunkBySemantic_is_chunkByParagraph (fuel : nat) (fullText : jsstring)
  (opts : ProcessingOptions) (w : World) :
  fst (chunkBySemantic host fullText opts w)
    = fst (chunkByParagraph host fullText opts w) /\
  fst (createChunks host fuel fullText (with_strategy semantic opts) w)
    = fst (createChunks host fuel fullText (with_strategy paragraph opts) w) /\
  fst (createChunks host fuel fullText (with_strategy semantic opts) w)
    = Some (fst (chunkByParagraph host fullText opts w)) /\
  reads (snd (chunkBySemantic host fullText opts w))
    = reads (snd (chunkByParagraph host fullText opts w)) /\
  console (snd (chunkBySemantic host fullText opts w))
    = console (snd (chunkByParagraph host fullText opts w))
      ++ [js "Semantic chunking not implemented, falling back to paragraph chunking"].
Proof.
  assert (Hsem : forall o,
    chunkBySemantic host fullText o w
    = chunkByParagraph host fullText o
        {| reads := reads w;
           console := console w ++
             [js "Semantic chunking not implemented, falling back to paragraph chunking"] |})
    by reflexivity.
  pose proof (clock_only_chunkByParagraph fullText opts) as Hclock.
  assert (Hfst : fst (chunkBySemantic host fullText opts w)
                 = fst (chunkByParagraph host fullText opts w)).
  { rewrite Hsem, (Hclock w), (Hclock {| reads := reads w; console := _ |}).
    reflexivity. }
  assert (Hmade : forall (m : M (list DocumentChunk)) w0,
            fst (returned m w0) = Some (fst (m w0))).
  { intros m w0. unfold returned, bind, ret. destruct (m w0). reflexivity. }
  assert (Hsemantic :
            fst (chunkBySemantic host fullText (with_strategy semantic opts) w)
            = fst (chunkByParagraph host fullText opts w)).
  { rewrite Hsem.
    rewrite (chunkByParagraph_options fullText
               (with_strategy semantic opts) opts) by reflexivity.
    rewrite <- Hsem. exact Hfst. }
  split; [exact Hfst|]. split; [|split; [|split]].
  - unfold createChunks. cbn [chunkStrategy with_strategy].
    rewrite !Hmade, Hsemantic.
    rewrite (chunkByParagraph_options fullText
               (with_strategy paragraph opts) opts) by reflexivity.
    reflexivity.
  - unfold createChunks. cbn [chunkStrategy with_strategy].
    rewrite Hmade, Hsemantic. reflexivity.
  - rewrite Hsem, (Hclock w), (Hclock {| reads := reads w; console := _ |}).
    reflexivity.
  - rewrite Hsem, (Hclock w), (Hclock {| reads := reads w; console := _ |}).
    reflexivity.
Qed.

End ProcessorFacts.

(** A text source of blanks, a line feed and a tab is reported as
    having no content. *)
Lemma process_reports_no_content_witness :
  DocumentProcessor.extractText PlainHost.host
    (DocumentProcessor.source PlainHost.blank_request)
  = Returned [space; newline; 9%N; space] /\
  trim [space; newline; 9%N; space] = [] /\
  let (outcome, w') :=
    DocumentProcessor.process PlainHost.host 0 PlainHost.blank_request
      PlainHost.start in
  exists result,
  outcome = Some result /\
  DocumentProcessor.success result = false /\
  DocumentProcessor.chunks result = None /\
  DocumentProcessor.errors (DocumentProcessor.processingMetadata result)
    = Some [js "No text could be extracted from the document"].
Proof.
  split; [reflexivity|]. split; [reflexivity|].
  pose proof (@process_reports_no_content PlainHost.host 0
                PlainHost.blank_request [space; newline; 9%N; space]
                PlainHost.start eq_refl eq_refl) as H.
  destruct (DocumentProcessor.process PlainHost.host 0 PlainHost.blank_request
              PlainHost.start) as [outcome w'].
  destruct H as [result [H0 [_ [H1 [H2 [_ [H3 _]]]]]]].
  exists result. auto.
Defined.

(** Two paragraphs that fit into one chunk, under both strategies. *)
Example chunkByParagraph_two_paragraphs :
  map (fun c => (DocumentProcessor.content c,
                 DocumentProcessor.startPosition c,
                 DocumentProcessor.endPosition c,
                 DocumentProcessor.id c))
    (fst (DocumentProcessor.chunkBySemantic PlainHost.host
            (js "Price list.

Valid for one year.")
            (PlainHost.options_for DocumentProcessor.semantic) PlainHost.start))
  = [(js "Price list.

Valid for one year.", 0, 32,
      {| DocumentProcessor.id_index := 0;
         DocumentProcessor.id_stamp := 1700000000000 |})].
Proof. vm_compute. reflexivity. Qed.

(* ================================================================== *)
(** * EmbeddingService: the text that is sent, and similarity          *)
(* ================================================================== *)

Section CleanText.

Import EmbeddingService Similarity.

Variable config : EmbeddingModelConfig.

Lemma is_whitespace_space : is_whitespace space = true.
Proof. reflexivity. Qed.

Lemma collapse_whitespace_spaced in_run s :
  single_spaced (collapse_whitespace in_run s) = true /\
  (in_run = true -> head_not_whitespace (collapse_whitespace in_run s)).
Proof.
  revert in_run. induction s as [|c rest IH]; intros in_run.
  - split; [reflexivity | intros _; exact I].
  - simpl. destruct (is_whitespace c) eqn:Hc.
    + destruct in_run.
      * apply IH.
      * split; [|discriminate].
        destruct (IH true) as [Hs Hh]. specialize (Hh eq_refl).
        simpl. rewrite Hs.
        destruct (collapse_whitespace true rest) as [|d tail]; [reflexivity|].
        simpl in Hh. rewrite Hh. reflexivity.
    + destruct (IH false) as [Hs _]. split.
      * simpl. rewrite Hc, Hs. reflexivity.
      * intros _. exact Hc.
Qed.

Lemma single_spaced_tail c s :
  single_spaced (c :: s) = true -> single_spaced s = true.
Proof.
  simpl. intros H. apply andb_true_iff in H. apply H.
Qed.

Lemma single_spaced_firstn n s :
  single_spaced s = true -> single_spaced (firstn n s) = true.
Proof.
  revert s. induction n as [|n IH]; intros [|c s] H; try reflexivity.
  simpl in H. apply andb_true_iff in H. destruct H as [Hc Hs].
  change (firstn (S n) (c :: s)) with (c :: firstn n s).
  simpl. rewrite (IH _ Hs), andb_true_r.
  destruct (is_whitespace c); [|reflexivity].
  apply andb_true_iff in Hc. destruct Hc as [Hspace Hnext].
  rewrite Hspace. simpl.
  destruct n as [|n]; [reflexivity|].
  destruct s as [|d s]; [reflexivity|]. exact Hnext.
Qed.

Lemma trimStart_suffix s : exists k, trimStart s = skipn k s.
Proof.
  induction s as [|c s [k IH]].
  - exists 0%nat. reflexivity.
  - simpl. destruct (is_whitespace c).
    + exists (S k). exact IH.
    + exists 0%nat. reflexivity.
Qed.

Lemma trimEnd_prefix s : exists k, trimEnd s = firstn k s.
Proof.
  unfold trimEnd. destruct (trimStart_suffix (rev s)) as [k ->].
  exists (length s - k)%nat.
  rewrite skipn_rev, rev_involutive. reflexivity.
Qed.

Lemma single_spaced_skipn k s :
  single_spaced s = true -> single_spaced (skipn k s) = true.
Proof.
  revert s. induction k as [|k IH]; intros [|c s] H; try exact H.
  simpl. apply IH. exact (single_spaced_tail _ _ H).
Qed.

Lemma single_spaced_trim s :
  single_spaced s = true -> single_spaced (trim s) = true.
Proof.
  intros H. unfold trim.
  destruct (trimEnd_prefix (trimStart s)) as [k ->].
  apply single_spaced_firstn.
  destruct (trimStart_suffix s) as [j ->].
  apply single_spaced_skipn. exact H.
Qed.

Lemma trimStart_head s : head_not_whitespace (trimStart s).
Proof.
  induction s as [|c s IH]; simpl; [exact I|].
  destruct (is_whitespace c) eqn:Hc; [exact IH | exact Hc].
Qed.

Lemma head_not_whitespace_firstn k s :
  head_not_whitespace s -> head_not_whitespace (firstn k s).
Proof.
  destruct k, s; simpl; auto.
Qed.

Lemma trim_head s : head_not_whitespace (trim s).
Proof.
  unfold trim. destruct (trimEnd_prefix (trimStart s)) as [k ->].
  apply head_not_whitespace_firstn, trimStart_head.
Qed.

Lemma head_not_whitespace_trimStart s :
  head_not_whitespace s -> trimStart s = s.
Proof.
  destruct s as [|c s]; simpl; [reflexivity|]. intros ->. reflexivity.
Qed.

(** X1: the text that [cleanText] hands to the provider holds no white
    space but single spaces: no tab or line feed is left, no two spaces
    stand side by side, and the text does not begin with one. *)
Theorem cleanText_single_spaced (text : jsstring) :
  single_spaced (cleanText config text) = true /\
  trimStart (cleanText config text) = cleanText config text.
Proof.
  unfold cleanText, substring_to.
  pose proof (single_spaced_trim _
                (proj1 (collapse_whitespace_spaced false text))) as Hs.
  pose proof (trim_head (collapse_whitespace false text)) as Hh.
  destruct (_ >? _).
  - split.
    + apply single_spaced_firstn. exact Hs.
    + apply head_not_whitespace_trimStart, head_not_whitespace_firstn. exact Hh.
  - split; [exact Hs|]. apply head_not_whitespace_trimStart. exact Hh.
Qed.

(** X2: [cleanText] never hands over more than four code units for each
    token of the model's limit (and nothing at all when the limit is
    negative), and never more than the text had. *)
Theorem cleanText_length (text : jsstring) :
  Z.of_nat (length (cleanText config text)) <= Z.max 0 (maxTokens config * 4) /\
  (length (cleanText config text) <= length text)%nat.
Proof.
  assert (Hcollapse : forall b s,
             (length (collapse_whitespace b s) <= length s)%nat).
  { intros b s. revert b. induction s as [|c s IH]; intros b; simpl; [lia|].
    pose proof (IH true). pose proof (IH false).
    destruct (is_whitespace c); [destruct b|]; simpl; lia. }
  assert (Htrim : forall s, (length (trim s) <= length s)%nat).
  { intros s. unfold trim.
    destruct (trimEnd_prefix (trimStart s)) as [k ->].
    destruct (trimStart_suffix s) as [j ->].
    rewrite length_firstn, length_skipn. lia. }
  specialize (Hcollapse false text).
  specialize (Htrim (collapse_whitespace false text)).
  unfold cleanText, substring_to.
  destruct (_ >? _) eqn:Hlong.
  - rewrite length_firstn. split; lia.
  - rewrite Z.gtb_ltb in Hlong. apply Z.ltb_ge in Hlong. split; lia.
Qed.

End CleanText.

Section CosineSimilarity.

Import EmbeddingService Similarity.

Lemma mul_comm x y : mul x y = mul y x.
Proof.
  destruct x as [sx|sx| |sx mx ex], y as [sy|sy| |sy my ey];
    unfold mul; simpl; try reflexivity;
    try (rewrite (xorb_comm sx sy); reflexivity).
  rewrite (xorb_comm sx sy), (Pos.mul_comm mx my), (Z.add_comm ex ey).
  reflexivity.
Qed.

Lemma sums_from_swap a b : forall d n1 n2,
  sums_from (d, n2, n1) (combine b a) =
  (let '(dot, norm1, norm2) := sums_from (d, n1, n2) (combine a b) in
   (dot, norm2, norm1)).
Proof.
  revert b. induction a as [|x a IH]; intros [|y b] d n1 n2;
    try reflexivity.
  simpl. rewrite (mul_comm y x). apply IH.
Qed.

(** X3: the cosine similarity does not depend on the order of its two
    arguments, bit for bit, and neither does its refusal of two arrays
    of different lengths. *)
Theorem calculateCosineSimilarity_symmetric (embedding1 embedding2 : list number) :
  calculateCosineSimilarity embedding1 embedding2 =
  calculateCosineSimilarity embedding2 embedding1.
Proof.
  unfold calculateCosineSimilarity.
  rewrite (Nat.eqb_sym (length embedding2) (length embedding1)).
  destruct (negb _); [reflexivity|].
  unfold sums.
  rewrite (sums_from_swap embedding1 embedding2 zero zero zero).
  destruct (sums_from _ (combine embedding1 embedding2)) as [[d n1] n2].
  rewrite (mul_comm (sqrt n2) (sqrt n1)). reflexivity.
Qed.

Lemma sums_of_zero_vector a b : forall d n2,
  Forall is_zero a -> Forall (fun y => isFinite y = true) b ->
  is_zero d -> signed false n2 ->
  exists d' n2',
    sums_from (d, zero, n2) (combine a b) = (d', zero, n2') /\
    is_zero d' /\ signed false n2'.
Proof.
  revert b. induction a as [|x a IH]; intros [|y b] d n2 Ha Hb Hd Hn;
    try (exists d, n2; split; [reflexivity | split; assumption]).
  inversion Ha as [|? ? Hx Ha']; subst.
  inversion Hb as [|? ? Hy Hb']; subst.
  destruct x as [sx|sx| |sx mx ex]; try contradiction.
  unfold sums_from. cbn [fold_left combine].
  fold (sums_from (add d (mul (S754_zero sx) y),
                   add zero (mul (S754_zero sx) (S754_zero sx)),
                   add n2 (mul y y)) (combine a b)).
  assert (Hzero : add zero (mul (S754_zero sx) (S754_zero sx)) = zero).
  { unfold add, mul, zero; simpl. rewrite xorb_nilpotent. reflexivity. }
  rewrite Hzero.
  apply IH; try assumption.
  - destruct d as [sd|sd| |sd md ed]; try contradiction.
    destruct y as [sy|sy| |sy my ey]; try discriminate Hy;
      unfold add, mul; simpl; destruct sd, (xorb sx sy); exact I.
  - apply add_signed_false; [exact Hn | apply mul_self_signed, Hy].
Qed.

(** X4: when every component of the first vector is a zero and the
    second vector is finite and as long, the similarity is NaN: the
    division by the zero magnitude is not guarded, and no error is
    thrown. *)
Theorem calculateCosineSimilarity_zero_vector (embedding1 embedding2 : list number) :
  Forall is_zero embedding1 ->
  Forall (fun y => isFinite y = true) embedding2 ->
  length embedding1 = length embedding2 ->
  calculateCosineSimilarity embedding1 embedding2 = Returned NaN.
Proof.
  intros H1 H2 Hlen. unfold calculateCosineSimilarity.
  rewrite Hlen, Nat.eqb_refl. simpl.
  destruct (@sums_of_zero_vector embedding1 embedding2 zero zero H1 H2 I
              (signed_zero false)) as [d [n2 [Hs [Hd Hn]]]].
  unfold sums. rewrite Hs.
  f_equal.
  destruct d as [sd|sd| |sd md ed]; try contradiction.
  pose proof (sqrt_signed_false Hn) as Hr.
  destruct Hr as [ | |m e]; reflexivity.
Qed.

Lemma calculateCosineSimilarity_zero_vector_witness :
  calculateCosineSimilarity [zero; S754_zero true] [of_Z 3; of_Z 4]
  = Returned NaN.
Proof.
  apply calculateCosineSimilarity_zero_vector.
  - repeat constructor.
  - repeat constructor.
  - reflexivity.
Defined.

End CosineSimilarity.

Section MostSimilar.

Import EmbeddingService Similarity.

Lemma In_slice_to (A : Type) (finish : Z) (l : list A) x :
  In x (JsArray.slice_to finish l) -> In x l.
Proof.
  unfold JsArray.slice_to. destruct (finish <? 0); apply In_firstn.
Qed.

Lemma slice_to_length (A : Type) (finish : Z) (l : list A) :
  (length (JsArray.slice_to finish l) <= length l)%nat /\
  (0 <= finish -> Z.of_nat (length (JsArray.slice_to finish l)) <= finish).
Proof.
  unfold JsArray.slice_to.
  destruct (finish <? 0) eqn:Hneg; rewrite length_firstn.
  - apply Z.ltb_lt in Hneg. split; lia.
  - split; lia.
Qed.

Lemma score_all_sound queryEmbedding candidates : forall scored,
  score_all queryEmbedding candidates = Returned scored ->
  length scored = length candidates /\
  forall result, In result scored ->
    exists candidate,
      In candidate candidates /\
      candidate_id candidate = scored_id result /\
      calculateCosineSimilarity queryEmbedding (candidate_embedding candidate)
      = Returned (similarity result).
Proof.
  induction candidates as [|c rest IH]; intros scored; simpl.
  - intros [= <-]. split; [reflexivity|]. intros ? [].
  - destruct (calculateCosineSimilarity _ _) as [s|] eqn:Hs; [|discriminate].
    destruct (score_all _ rest) as [tail|]; [|discriminate].
    intros [= <-]. destruct (IH tail eq_refl) as [Hlen Hin].
    split; [simpl; congruence|].
    intros result [<-|Hr].
    + exists c. simpl. auto.
    + destruct (Hin _ Hr) as [c' [? ?]]. exists c'. auto.
Qed.

Lemma le_not_nan x y : le x y = true -> y <> NaN.
Proof.
  intros H ->. destruct x; discriminate H.
Qed.

(** X5: whatever [findMostSimilar] returns, every entry is a candidate
    with its own cosine similarity to the query, that similarity is a
    number not below the threshold (0.7 when none is given), and there
    are no more entries than candidates, nor than a non-negative limit
    (10 when none is given). *)
Theorem findMostSimilar_sound (queryEmbedding : list number)
  (candidateEmbeddings : list Candidate) (limit : option Z)
  (threshold : option number) (results : list Scored) :
  findMostSimilar queryEmbedding candidateEmbeddings limit threshold
  = Returned results ->
  (forall result, In result results ->
     le (match threshold with Some t => t | None => lit 7 10 end)
        (similarity result) = true /\
     similarity result <> NaN /\
     exists candidate,
       In candidate candidateEmbeddings /\
       candidate_id candidate = scored_id result /\
       calculateCosineSimilarity queryEmbedding (candidate_embedding candidate)
       = Returned (similarity result)) /\
  (length results <= length candidateEmbeddings)%nat /\
  (0 <= match limit with Some l => l | None => 10 end ->
   Z.of_nat (length results) <= match limit with Some l => l | None => 10 end).
Proof.
  unfold findMostSimilar.
  destruct (score_all _ _) as [scored|] eqn:Hscored; [|discriminate].
  intros [= <-].
  destruct (@score_all_sound _ _ _ Hscored) as [Hlen Hin].
  split; [|split].
  - intros result Hr.
    apply In_slice_to, sort_In, filter_In in Hr. destruct Hr as [Hr Hle].
    split; [exact Hle|]. split; [exact (@le_not_nan _ _ Hle)|].
    apply Hin, Hr.
  - pose proof (proj1 (slice_to_length
                  (match limit with Some l => l | None => 10 end)
                  (JsArray.sort less_similar
                     (filter (fun result =>
                        le (match threshold with Some t => t | None => lit 7 10 end)
                           (similarity result)) scored)))) as H.
    rewrite sort_length in H.
    pose proof (filter_length_le
                  (fun result =>
                     le (match threshold with Some t => t | None => lit 7 10 end)
                        (similarity result)) scored).
    lia.
  - apply slice_to_length.
Qed.

Lemma findMostSimilar_sound_witness :
  exists results,
    findMostSimilar [of_Z 1; of_Z 0]
      [ {| candidate_id := js "a"; candidate_embedding := [of_Z 3; of_Z 4] |};
        {| candidate_id := js "b"; candidate_embedding := [of_Z 2; of_Z 0] |} ]
      None None = Returned results /\
    (length results <= 2)%nat.
Proof.
  eexists. split; [vm_compute; reflexivity|].
  refine (proj1 (proj2 (@findMostSimilar_sound [of_Z 1; of_Z 0]
    [ {| candidate_id := js "a"; candidate_embedding := [of_Z 3; of_Z 4] |};
      {| candidate_id := js "b"; candidate_embedding := [of_Z 2; of_Z 0] |} ]
    None None _ _))).
  vm_compute. reflexivity.
Defined.

Lemma score_all_throws queryEmbedding candidates :
  Exists (fun candidate =>
            length (candidate_embedding candidate) <> length queryEmbedding)
         candidates ->
  score_all queryEmbedding candidates
  = Thrown (js "Embeddings must have the same length").
Proof.
  induction candidates as [|c rest IH]; intros H; [inversion H|].
  simpl. unfold calculateCosineSimilarity at 1.
  destruct (length queryEmbedding =? length (candidate_embedding c))%nat
    eqn:Hlen; simpl; [|reflexivity].
  destruct (sums _ _) as [[d n1] n2].
  rewrite IH; [reflexivity|].
  inversion H as [? ? Hc|? ? Hrest]; subst; [|exact Hrest].
  apply Nat.eqb_eq in Hlen. congruence.
Qed.

(** X6: one candidate whose embedding is not as long as the query makes
    [findMostSimilar] throw 'Embeddings must have the same length'; the
    candidate is not skipped, and the other candidates are not
    returned. *)
Theorem findMostSimilar_throws (queryEmbedding : list number)
  (candidateEmbeddings : list Candidate) (limit : option Z)
  (threshold : option number) :
  Exists (fun candidate =>
            length (candidate_embedding candidate) <> length queryEmbedding)
         candidateEmbeddings ->
  findMostSimilar queryEmbedding candidateEmbeddings limit threshold
  = Thrown (js "Embeddings must have the same length").
Proof.
  intros H. unfold findMostSimilar.
  rewrite (@score_all_throws _ _ H). reflexivity.
Qed.

Lemma findMostSimilar_throws_witness :
  findMostSimilar [of_Z 1; of_Z 0]
    [ {| candidate_id := js "a"; candidate_embedding := [of_Z 1; of_Z 0] |};
      {| candidate_id := js "b"; candidate_embedding := [of_Z 1] |} ]
    None None
  = Thrown (js "Embeddings must have the same length").
Proof.
  apply findMostSimilar_throws.
  apply Exists_cons_tl, Exists_cons_hd. simpl. discriminate.
Defined.

End MostSimilar.

(* ================================================================== *)
(** * EmbeddingService: batches                                        *)
(* ================================================================== *)

Section BatchingFacts.

Import EmbeddingService Batching.

Variable config : EmbeddingModelConfig.
Variable create : nat -> list jsstring -> Settled CreateResponse.
Variable now : World -> Z.

Lemma delays_sent model_id input w : delays (sent model_id input w) = delays w.
Proof.
  unfold delays, sent; simpl. rewrite flat_map_app. simpl. apply app_nil_r.
Qed.

Lemma delays_delay ms w : delays (delay ms w) = delays w ++ [ms].
Proof.
  unfold delays, delay; simpl. rewrite flat_map_app. reflexivity.
Qed.

Lemma processBatch_served embed fuel batch w :
  serves create embed -> provider config = openai ->
  exists tokens w',
    processBatch config create (S fuel) batch w =
    (Some (Resolved
       {| EmbeddingService.embeddings :=
            map (fun text => embed (cleanText config text)) batch;
          EmbeddingService.totalTokens := tokens |}), w') /\
    requests w' = S (requests w) /\ delays w' = delays w.
Proof.
  intros Hserves Hprovider.
  assert (Hopenai : forall w0, exists tokens w',
    processOpenAIBatch config create (S fuel) batch w0 =
    (Some (Resolved
       {| EmbeddingService.embeddings :=
            map (fun text => embed (cleanText config text)) batch;
          EmbeddingService.totalTokens := tokens |}), w') /\
    requests w' = S (requests w0) /\ delays w' = delays w0).
  { intros w0. cbn [processOpenAIBatch].
    unfold has_client. rewrite Hprovider.
    destruct (Hserves (requests w0) (map (cleanText config) batch))
      as [tokens ->].
    eexists _, _. split; [|split].
    - cbn [data usage_total_tokens]. rewrite map_map. reflexivity.
    - reflexivity.
    - apply delays_sent. }
  unfold processBatch. rewrite Hprovider. apply Hopenai.
Qed.

Lemma slice_batch (A : Type) (l : list A) i size :
  0 <= i < Z.of_nat (length l) -> 0 < size ->
  JsArray.slice i (i + size) l = firstn (Z.to_nat size) (skipn (Z.to_nat i) l).
Proof.
  intros Hi Hsize. unfold JsArray.slice, JsArray.relative.
  destruct (i <? 0) eqn:Hneg; [apply Z.ltb_lt in Hneg; lia|].
  destruct (i + size <? 0) eqn:Hneg'; [apply Z.ltb_lt in Hneg'; lia|].
  rewrite (Z.min_l i) by lia.
  destruct (Z.le_gt_cases (i + size) (Z.of_nat (length l))) as [Hle|Hgt].
  - rewrite Z.min_l by lia. f_equal. lia.
  - rewrite Z.min_r by lia.
    rewrite !firstn_all2; [reflexivity| |]; rewrite length_skipn; lia.
Qed.

Lemma batch_count_step n i size :
  0 < size -> i < n ->
  batch_count (n - i) size = S (batch_count (n - (i + size)) size).
Proof.
  intros Hsize Hi. unfold batch_count.
  replace (n - i + size - 1) with ((n - (i + size) + size - 1) + 1 * size)
    by lia.
  rewrite Z.div_add by lia.
  assert (0 <= (n - (i + size) + size - 1) / size)
    by (apply Z.div_pos; lia).
  lia.
Qed.

Lemma batch_count_done n i size :
  0 < size -> n <= i -> batch_count (n - i) size = 0%nat.
Proof.
  intros Hsize Hi. unfold batch_count.
  assert ((n - i + size - 1) / size < 1)
    by (apply Z.div_lt_upper_bound; lia).
  lia.
Qed.

Lemma batches_served embed texts size :
  serves create embed -> provider config = openai -> 0 < size ->
  forall fuel i allEmbeddings total w,
    0 <= i ->
    (batch_count (Z.of_nat (length texts) - i) size < fuel)%nat ->
    exists total' w',
      batches config create fuel texts size i allEmbeddings total w =
      (Some (Resolved
         (allEmbeddings
            ++ map (fun text => embed (cleanText config text))
                   (skipn (Z.to_nat i) texts),
          total')), w') /\
      requests w' =
      (requests w + batch_count (Z.of_nat (length texts) - i) size)%nat /\
      delays w' =
      delays w
        ++ repeat 100 (pred (batch_count (Z.of_nat (length texts) - i) size)).
Proof.
  intros Hserves Hprovider Hsize.
  induction fuel as [|fuel IH]; intros i allEmbeddings total w Hi Hfuel;
    [lia|].
  cbn [batches].
  destruct (i <? Z.of_nat (length texts)) eqn:Hin.
  - apply Z.ltb_lt in Hin.
    destruct (@processBatch_served embed fuel
                (JsArray.slice i (i + size) texts) w Hserves Hprovider)
      as [tokens [w1 [Hrun [Hreq Hdel]]]].
    rewrite Hrun. cbn [EmbeddingService.embeddings EmbeddingService.totalTokens].
    rewrite (batch_count_step Hsize Hin) in Hfuel |- *.
    set (w2 := if i + size <? Z.of_nat (length texts)
               then delay 100 w1 else w1).
    destruct (IH (i + size)
                (allEmbeddings
                   ++ map (fun text => embed (cleanText config text))
                          (JsArray.slice i (i + size) texts))
                (total + tokens) w2 ltac:(lia) ltac:(lia))
      as [total' [w' [Hloop [Hreq' Hdel']]]].
    exists total', w'. split; [|split].
    + rewrite Hloop. do 3 f_equal.
      rewrite <- app_assoc. f_equal.
      rewrite slice_batch by lia.
      rewrite <- map_app.
      replace (Z.to_nat (i + size)) with (Z.to_nat size + Z.to_nat i)%nat
        by lia.
      rewrite <- skipn_skipn, firstn_skipn. reflexivity.
    + rewrite Hreq'. subst w2.
      destruct (i + size <? _); cbn [requests delay]; lia.
    + rewrite Hdel'. subst w2. cbn [pred].
      destruct (i + size <? Z.of_nat (length texts)) eqn:Hmore.
      * apply Z.ltb_lt in Hmore.
        rewrite (batch_count_step Hsize Hmore).
        rewrite delays_delay, Hdel, <- app_assoc. reflexivity.
      * apply Z.ltb_ge in Hmore.
        rewrite (batch_count_done Hsize Hmore), Hdel. reflexivity.
  - apply Z.ltb_ge in Hin.
    exists total, w. split; [|split].
    + rewrite skipn_all2 by lia. rewrite app_nil_r. reflexivity.
    + rewrite (batch_count_done Hsize Hin). lia.
    + rewrite (batch_count_done Hsize Hin). simpl. now rewrite app_nil_r.
Qed.

(** X7: for the provider ['openai'], the one that the service has a
    client for, with a positive batch size (100 when none is given) and
    every request served, [generateEmbeddings] returns
    one embedding for each text, in the order of the texts, each that
    of the cleaned text; it sends one request for every batch and
    pauses for 100 ms between two batches, not after the last one. *)
Theorem generateEmbeddings_served (embed : jsstring -> list number)
  (texts : list jsstring) (batchSize : option Z) (fuel : nat) (w : World) :
  serves create embed ->
  provider config = openai ->
  0 < match batchSize with Some size => size | None => 100 end ->
  (batch_count (Z.of_nat (length texts))
     match batchSize with Some size => size | None => 100 end < fuel)%nat ->
  exists response w',
    generateEmbeddings config create now fuel texts batchSize w
    = (Some (Resolved response), w') /\
    embeddings response = map (fun text => embed (cleanText config text)) texts /\
    requests w' =
    (requests w
     + batch_count (Z.of_nat (length texts))
         match batchSize with Some size => size | None => 100 end)%nat /\
    delays w' =
    delays w
      ++ repeat 100
           (pred (batch_count (Z.of_nat (length texts))
                    match batchSize with Some size => size | None => 100 end)).
Proof.
  intros Hserves Hprovider Hsize Hfuel.
  unfold generateEmbeddings.
  destruct (@batches_served embed texts _ Hserves Hprovider Hsize
              fuel 0 [] 0 w ltac:(lia)
              ltac:(rewrite Z.sub_0_r; exact Hfuel))
    as [total' [w' [Hloop [Hreq Hdel]]]].
  rewrite Hloop. rewrite Z.sub_0_r in Hreq, Hdel.
  eexists _, w'. split; [reflexivity|]. split; [reflexivity|].
  split; assumption.
Qed.

End BatchingFacts.

Lemma generateEmbeddings_served_witness :
  exists response w',
    Batching.generateEmbeddings ThreeTexts.config ThreeTexts.create
      ThreeTexts.now 3 ThreeTexts.texts (Some 2) EmbeddingService.initial
    = (Some (EmbeddingService.Resolved response), w') /\
    Batching.embeddings response =
    map (fun text =>
           ThreeTexts.embed (EmbeddingService.cleanText ThreeTexts.config text))
        ThreeTexts.texts /\
    EmbeddingService.requests w' = 2%nat /\
    Batching.delays w' = [100].
Proof.
  apply (@generateEmbeddings_served ThreeTexts.config ThreeTexts.create
           ThreeTexts.now ThreeTexts.embed ThreeTexts.texts (Some 2) 3
           EmbeddingService.initial).
  - intros n input. eexists. reflexivity.
  - reflexivity.
  - reflexivity.
  - vm_compute. lia.
Defined.

Section BatchSizeZero.

Import EmbeddingService Batching.

Variable config : EmbeddingModelConfig.
Variable create : nat -> list jsstring -> Settled CreateResponse.
Variable now : World -> Z.

Lemma batches_never_end embed texts size :
  serves create embed -> provider config = openai ->
  size <= 0 -> texts <> [] ->
  forall fuel i allEmbeddings total w,
    i <= 0 ->
    fst (batches config create fuel texts size i allEmbeddings total w) = None.
Proof.
  intros Hserves Hprovider Hsize Htexts.
  induction fuel as [|fuel IH]; intros i allEmbeddings total w Hi;
    [reflexivity|].
  cbn [batches].
  assert (Hin : (i <? Z.of_nat (length texts)) = true).
  { apply Z.ltb_lt. destruct texts; [congruence | simpl length; lia]. }
  rewrite Hin.
  destruct (@processBatch_served config create embed fuel
              (JsArray.slice i (i + size) texts) w Hserves Hprovider)
    as [tokens [w1 [-> _]]].
  apply IH. lia.
Qed.

(** X8: a batch size of zero, or a negative one, is not replaced by the
    default of 100: for the provider ['openai'], with at least one text
    and every request served, the loop of [generateEmbeddings] never
    ends, however many requests it is granted. *)
Theorem generateEmbeddings_batch_size_zero (embed : jsstring -> list number)
  (texts : list jsstring) (size : Z) (fuel : nat) (w : World) :
  serves create embed ->
  provider config = openai ->
  size <= 0 ->
  texts <> [] ->
  fst (generateEmbeddings config create now fuel texts (Some size) w) = None.
Proof.
  intros Hserves Hprovider Hsize Htexts.
  unfold generateEmbeddings.
  pose proof (@batches_never_end embed texts size Hserves Hprovider Hsize
                Htexts fuel 0 [] 0 w ltac:(lia)) as H.
  destruct (batches _ _ _ _ _ _ _ _ _) as [[[[all total]|error]|] w'];
    try discriminate H.
  reflexivity.
Qed.

End BatchSizeZero.

Lemma generateEmbeddings_batch_size_zero_witness :
  fst (Batching.generateEmbeddings ThreeTexts.config ThreeTexts.create
         ThreeTexts.now 50 ThreeTexts.texts (Some 0) EmbeddingService.initial)
  = None.
Proof.
  apply (@generateEmbeddings_batch_size_zero ThreeTexts.config
           ThreeTexts.create ThreeTexts.now ThreeTexts.embed).
  - intros n input. eexists. reflexivity.
  - reflexivity.
  - lia.
  - discriminate.
Defined.

(* ================================================================== *)
(** * VectorDatabase: what a search returns, and what updates leave    *)
(* ================================================================== *)

Section SearchContract.

Import VectorDatabase VectorUpdates.

Variable Vector : Type.
Variable similarity : Vector -> Vector -> Q.
Variable times : Q -> Q -> Q.

Lemma filter_filter (A : Type) (p q : A -> bool) l :
  filter q (filter p l) = filter (fun x => p x && q x) l.
Proof.
  induction l as [|x l IH]; simpl; [reflexivity|].
  destruct (p x) eqn:Hp; simpl; [|exact IH].
  destruct (q x); simpl; rewrite IH; reflexivity.
Qed.

Lemma filter_true (A : Type) (l : list A) : filter (fun _ => true) l = l.
Proof.
  induction l as [|x l IH]; simpl; [reflexivity|]. now rewrite IH.
Qed.

(** X9: the filters of a search are conjunctive: [applyFilters] keeps
    exactly the rows that satisfy every filter that is given and not
    empty, in the order of the table; a filter that is left out or is
    an empty list excludes nothing. *)
Theorem applyFilters_conjunctive (rows : Table Vector) (f : VectorSearchFilters) :
  applyFilters rows f = filter (passes f) rows.
Proof.
  unfold applyFilters, passes.
  destruct (f_documentTypes f) as [|t ts], (f_salesCategories f) as [|c cs],
    (f_dateRange f) as [[from to]|], (f_productIds f) as [|p ps],
    (f_salesStages f) as [|s ss], (f_customerSegments f) as [|g gs];
    rewrite ?filter_filter;
    try (symmetry; apply filter_true);
    apply filter_ext; intros r;
    rewrite ?andb_true_r, ?andb_true_l, ?andb_assoc; reflexivity.
Qed.

Lemma match_chunks_count (rows : Table Vector) q thr count data :
  match_chunks similarity rows q thr count = Some data ->
  0 <= count /\ Z.of_nat (length data) <= count /\
  forall row sim, In (row, sim) data -> (thr < sim)%Q.
Proof.
  unfold match_chunks. destruct (count <? 0) eqn:Hc; [discriminate|].
  apply Z.ltb_ge in Hc. intros [= <-]. split; [exact Hc|]. split.
  - rewrite length_firstn. lia.
  - intros row sim H. apply In_firstn, sort_In, filter_In in H.
    destruct H as [_ H]. apply Qgtb_true_iff in H. exact H.
Qed.

Lemma search_length (table : Table Vector)
  (request : VectorSearchRequest Vector)
  (results : list (VectorSearchResult Vector)) :
  search similarity times table request = Returned results ->
  0 <= Z_or (limit request) 10 /\
  Z.of_nat (length results) <= Z_or (limit request) 10.
Proof.
  unfold search, rpc_match_chunks.
  destruct (match_chunks similarity _ _ _ _) as [data|] eqn:Hm; [|discriminate].
  intros [= <-]. apply match_chunks_count in Hm. destruct Hm as [Hpos [Hlen _]].
  split; [exact Hpos|].
  destruct (rerank request).
  - unfold rerankResults. rewrite sort_length, !length_map. exact Hlen.
  - rewrite length_map. exact Hlen.
Qed.

(** X10: a search that returns, returns at most [limit] hits, and at
    most 10 when the request gives no limit, or gives 0. *)
Theorem search_at_most_limit (table : Table Vector)
  (request : VectorSearchRequest Vector)
  (results : list (VectorSearchResult Vector)) :
  search similarity times table request = Returned results ->
  Z.of_nat (length results) <= Z_or (limit request) 10.
Proof.
  intros H. apply (search_length _ _ H).
Qed.

(** X11: every hit of a search was strictly more similar to the query
    than the threshold of the request, 0.7 when the request gives none
    or gives 0; after a reranking this holds of the score that the hit
    had before. *)
Theorem search_above_threshold (table : Table Vector)
  (request : VectorSearchRequest Vector)
  (results : list (VectorSearchResult Vector))
  (result : VectorSearchResult Vector) :
  search similarity times table request = Returned results ->
  In result results ->
  (Q_or (threshold request) (7 # 10) < retrieved result)%Q.
Proof.
  unfold search, rpc_match_chunks.
  destruct (match_chunks similarity _ _ _ _) as [data|] eqn:Hm; [|discriminate].
  intros [= <-] Hin. apply match_chunks_count in Hm. destruct Hm as [_ [_ Hthr]].
  assert (Hplain : forall res, In res (map (to_result request) data) ->
            originalScore res = None /\
            (Q_or (threshold request) (7 # 10) < score res)%Q).
  { intros res Hres. apply in_map_iff in Hres.
    destruct Hres as [[row sim] [<- Hd]]. split; [reflexivity|].
    exact (Hthr _ _ Hd). }
  destruct (rerank request).
  - unfold rerankResults in Hin. apply sort_In, in_map_iff in Hin.
    destruct Hin as [res [<- Hres]]. apply Hplain in Hres.
    unfold retrieved. simpl. apply Hres.
  - apply Hplain in Hin. destruct Hin as [Horig Hs].
    unfold retrieved. rewrite Horig. exact Hs.
Qed.

(** X12: the hits of a search come best first: no hit has a higher
    score than one that stands before it, with or without reranking. *)
Theorem search_best_first (table : Table Vector)
  (request : VectorSearchRequest Vector)
  (results : list (VectorSearchResult Vector)) :
  search similarity times table request = Returned results ->
  StronglySorted (fun a b => (score b <= score a)%Q) results.
Proof.
  intros H. exact (search_sorted _ _ _ _ H).
Qed.

(** X13: the reranking returns the hits it was given, each once, in
    the descending order of their new scores; it records the score a
    hit had as [originalScore] and the new one as [rerankingScore].
    The new score is the old one, multiplied by 1.1 when the content is
    longer than 100 and shorter than 1000 units, and then by 1.05 when
    the chunk has sales metadata; a hit of neither kind keeps its
    score.  (The products are those of the floating-point numbers,
    whatever they round to.) *)
Theorem rerankResults_boost (results : list (VectorSearchResult Vector)) :
  Permutation (map (@r_id Vector) (rerankResults times results))
              (map (@r_id Vector) results) /\
  StronglySorted (fun a b => (score b <= score a)%Q)
    (rerankResults times results) /\
  forall result, In result (rerankResults times results) ->
    rerankingScore result = Some (score result) /\
    exists before,
      In before results /\ r_id result = r_id before /\
      r_content result = r_content before /\
      originalScore result = Some (score before) /\
      score result =
      match of_boosted_length before, salesMetadata (r_metadata before) with
      | false, false => score before
      | true, false => times (score before) (11 # 10)
      | false, true => times (score before) (21 # 20)
      | true, true => times (times (score before) (11 # 10)) (21 # 20)
      end.
Proof.
  unfold rerankResults. split; [|split].
  - rewrite sort_perm, map_map. reflexivity.
  - apply (sort_by_score_sorted (@score Vector)).
  - intros result H. apply sort_In, in_map_iff in H.
    destruct H as [before [<- Hb]]. split; [reflexivity|].
    exists before. repeat split; auto.
    unfold rerank_one, of_boosted_length. cbn [score].
    destruct (_ && _), (salesMetadata _); reflexivity.
Qed.

End SearchContract.

Lemma search_at_most_limit_witness :
  exists results,
    VectorDatabase.search ToyIndex.similarity ToyIndex.times ToyIndex.library
      (ToyIndex.ask ToyIndex.tenant_a 1%Q) = Returned results /\
    Z.of_nat (length results) <= 10.
Proof.
  eexists. split; [vm_compute; reflexivity|].
  apply (@search_at_most_limit ToyIndex.Vector ToyIndex.similarity
           ToyIndex.times ToyIndex.library (ToyIndex.ask ToyIndex.tenant_a 1%Q)).
  vm_compute. reflexivity.
Defined.

Lemma search_above_threshold_witness :
  (1 # 4 < VectorUpdates.retrieved (ToyIndex.hit ToyIndex.doc_x "chunk-x" (9 # 10)))%Q.
Proof.
  apply (@search_above_threshold ToyIndex.Vector ToyIndex.similarity
           ToyIndex.times ToyIndex.library (ToyIndex.ask ToyIndex.tenant_a 1%Q)
           [ToyIndex.hit ToyIndex.doc_x "chunk-x" (9 # 10);
            ToyIndex.hit ToyIndex.doc_y "chunk-y" (4 # 5)]).
  - vm_compute. reflexivity.
  - left. reflexivity.
Defined.

Lemma search_best_first_witness :
  StronglySorted
    (fun a b => (VectorDatabase.score b <= VectorDatabase.score a)%Q)
    [ToyIndex.hit ToyIndex.doc_x "chunk-x" (9 # 10);
     ToyIndex.hit ToyIndex.doc_y "chunk-y" (4 # 5)].
Proof.
  apply (@search_best_first ToyIndex.Vector ToyIndex.similarity
           ToyIndex.times ToyIndex.library (ToyIndex.ask ToyIndex.tenant_a 1%Q)).
  vm_compute. reflexivity.
Defined.

Section UpdatesAndSearch.

Import VectorDatabase VectorUpdates.

Variable Vector : Type.
Variable similarity : Vector -> Vector -> Q.
Variable times : Q -> Q -> Q.

Lemma str_eqb_other a b c :
  str_eqb a b = true -> b <> c -> str_eqb a c = false.
Proof.
  intros Hab Hbc. apply str_eqb_eq in Hab. subst a.
  apply str_eqb_neq. exact Hbc.
Qed.

Lemma own_rows_after_removal (table : Table Vector)
  (selected : Row Vector -> bool) tenant other :
  other <> tenant ->
  filter (fun r => str_eqb (tenant_id r) other)
    (filter (fun r => negb (selected r && str_eqb (tenant_id r) tenant)) table)
  = filter (fun r => str_eqb (tenant_id r) other) table.
Proof.
  intros Hother. rewrite filter_filter. apply filter_ext. intros r.
  destruct (str_eqb (tenant_id r) other) eqn:Hr; [|apply andb_false_r].
  rewrite (str_eqb_other _ Hr Hother), andb_false_r. reflexivity.
Qed.

Lemma own_rows_after_update (table : Table Vector) chunkId tenant
  new_embedding other :
  other <> tenant ->
  filter (fun r => str_eqb (tenant_id r) other)
    (updateChunkEmbeddings table chunkId tenant new_embedding)
  = filter (fun r => str_eqb (tenant_id r) other) table.
Proof.
  intros Hother. unfold updateChunkEmbeddings.
  induction table as [|r table IH]; [reflexivity|].
  cbn [map filter].
  destruct (str_eqb (chunk_id r) chunkId && str_eqb (tenant_id r) tenant)
    eqn:Hsel.
  - apply andb_true_iff in Hsel. destruct Hsel as [_ Hten].
    cbn [tenant_id].
    assert (Hr : str_eqb (tenant_id r) other = false).
    { apply str_eqb_eq in Hten. apply str_eqb_neq. congruence. }
    rewrite Hr. exact IH.
  - destruct (str_eqb (tenant_id r) other); rewrite IH; reflexivity.
Qed.


End UpdatesAndSearch.




Lemma rerankResults_boost_witness :
  Permutation
    (map (@VectorDatabase.r_id ToyIndex.Vector)
       (VectorDatabase.rerankResults ToyIndex.times
          [ToyIndex.hit ToyIndex.doc_y "chunk-y" (4 # 5);
           ToyIndex.hit ToyIndex.doc_x "chunk-x" (9 # 10)]))
    (map (@VectorDatabase.r_id ToyIndex.Vector)
       [ToyIndex.hit ToyIndex.doc_y "chunk-y" (4 # 5);
        ToyIndex.hit ToyIndex.doc_x "chunk-x" (9 # 10)]).
Proof.
  apply (proj1 (@rerankResults_boost ToyIndex.Vector ToyIndex.times
                  [ToyIndex.hit ToyIndex.doc_y "chunk-y" (4 # 5);
                   ToyIndex.hit ToyIndex.doc_x "chunk-x" (9 # 10)])).
Defined.

(* ================================================================== *)
(** * RAGManager: what [searchDocuments] returns                       *)
(* ================================================================== *)

Section SearchDocumentsFacts.

Import RAGManager.

Variable Vector : Type.
Variable similarity : Vector -> Vector -> Q.
Variable times : Q -> Q -> Q.
Variable generateEmbedding : jsstring -> Completion Vector.
Variable highlight : jsstring -> jsstring -> Completion jsstring.
Variable config : SearchConfig.

Lemma In_rankResults requested default results r :
  In r (rankResults requested default results) -> In r results.
Proof.
  unfold rankResults. intros H. apply In_slice_to, sort_In in H. exact H.
Qed.


Lemma Z_or_some_nonzero z d : z <> 0 -> Z_or (Some z) d = z.
Proof.
  unfold Z_or. destruct (z =? 0) eqn:Hz; [apply Z.eqb_eq in Hz; lia | auto].
Qed.

(** X17: [searchDocuments] returns no more hits than the limit of the
    request, the default limit of the configuration standing in for a
    missing or zero one; with a negative limit it does not return. *)
Theorem searchDocuments_at_most_limit
  (chunks : VectorDatabase.Table Vector) (documents : list DocumentRow)
  (request : RAGSearchRequest) (out : list RAGSearchResult) :
  searchDocuments similarity times generateEmbedding highlight config
    chunks documents request = Returned out ->
  0 <= Z_or (limit request) (defaultLimit config) /\
  Z.of_nat (length out) <= Z_or (limit request) (defaultLimit config).
Proof.
  unfold searchDocuments.
  destruct (generateEmbedding _) as [queryEmbedding|]; [|discriminate].
  destruct (VectorDatabase.search _ _ _ _) as [vectorResults|] eqn:Hsearch;
    [|discriminate].
  destruct (collect _ _ _ _) as [hits|] eqn:Hcollect; [|discriminate].
  intros [= <-].
  apply search_length in Hsearch. destruct Hsearch as [Hpos _].
  cbn [vectorSearchRequest VectorDatabase.limit] in Hpos.
  assert (Hlimit : 0 <= Z_or (limit request) (defaultLimit config)).
  { destruct (Z.eq_dec (Z_or (limit request) (defaultLimit config)) 0)
      as [->|Hnz]; [lia|].
    rewrite (Z_or_some_nonzero _ Hnz) in Hpos. exact Hpos. }
  split; [exact Hlimit|].
  unfold rankResults. apply slice_to_length. exact Hlimit.
Qed.

(** X18: the documents that [searchDocuments] loads carry no sales
    metadata, so the sales relevance of every hit is 0.1 when the
    urgency of the sales context is critical and 0 otherwise: the
    products, the sales stage and the customer segment of the context
    add nothing to it. *)
Theorem searchDocuments_sales_relevance
  (chunks : VectorDatabase.Table Vector) (documents : list DocumentRow)
  (request : RAGSearchRequest) (out : list RAGSearchResult)
  (hit : RAGSearchResult) :
  searchDocuments similarity times generateEmbedding highlight config
    chunks documents request = Returned out ->
  In hit out ->
  salesRelevanceScore hit =
  option_map (fun context =>
                match urgencyLevel context with
                | Some critical => (1 # 10)%Q
                | _ => 0%Q
                end)
             (salesContext request).
Proof.
  unfold searchDocuments.
  destruct (generateEmbedding _) as [queryEmbedding|]; [|discriminate].
  destruct (VectorDatabase.search _ _ _ _) as [vectorResults|]; [|discriminate].
  destruct (collect _ _ _ _) as [hits|] eqn:Hcollect; [|discriminate].
  intros [= <-] Hin. apply In_rankResults in Hin.
  destruct (collect_hits _ _ _ _ Hcollect) as [_ Hall].
  rewrite Forall_forall in Hall.
  destruct (Hall _ Hin) as [v [_ [Hdoc [_ ->]]]].
  destruct (getDocument_row _ _ _ Hdoc) as [_ [_ [Hmeta _]]].
  destruct (salesContext request) as [context|]; [|reflexivity].
  simpl. f_equal. unfold calculateSalesRelevance. rewrite Hmeta.
  destruct context as [products stage segment urgency]; simpl.
  destruct products, (truthy stage), (truthy segment), urgency as [[]|];
    reflexivity.
Qed.

End SearchDocumentsFacts.

Section QueryAsPattern.

Import RAGManager.

Variable Vector : Type.
Variable similarity : Vector -> Vector -> Q.
Variable times : Q -> Q -> Q.
Variable generateEmbedding : jsstring -> Completion Vector.
Variable highlight : jsstring -> jsstring -> Completion jsstring.
Variable config : SearchConfig.

Lemma collect_throws request documents problem
  (vectorResults : list (VectorDatabase.VectorSearchResult Vector)) v doc :
  (forall matched, highlight (query request) matched = Thrown problem) ->
  In v vectorResults ->
  getDocument documents (VectorDatabase.r_documentId v) (tenantId request)
  = Some doc ->
  collect highlight request documents vectorResults = Thrown problem.
Proof.
  intros Hbad. induction vectorResults as [|v' vs IH]; intros Hin Hdoc;
    [contradiction|].
  simpl.
  destruct (getDocument documents (VectorDatabase.r_documentId v') _)
    as [doc'|] eqn:Hdoc'.
  - rewrite Hbad. reflexivity.
  - destruct Hin as [->|Hin]; [congruence|]. apply IH; assumption.
Qed.

(** X19: the query is used as a regular expression to highlight every
    hit.  When it is not one (the constructor throws), a search that
    finds at least one document fails as a whole with that error,
    behind 'Search failed: '. *)
Theorem searchDocuments_query_not_a_pattern
  (chunks : VectorDatabase.Table Vector) (documents : list DocumentRow)
  (request : RAGSearchRequest) (queryEmbedding : Vector)
  (vectorResults : list (VectorDatabase.VectorSearchResult Vector))
  (v : VectorDatabase.VectorSearchResult Vector) (doc : RAGDocument)
  (problem : jsstring) :
  (forall matched, highlight (query request) matched = Thrown problem) ->
  generateEmbedding (query request) = Returned queryEmbedding ->
  VectorDatabase.search similarity times chunks
    (vectorSearchRequest config request queryEmbedding)
  = Returned vectorResults ->
  In v vectorResults ->
  getDocument documents (VectorDatabase.r_documentId v) (tenantId request)
  = Some doc ->
  searchDocuments similarity times generateEmbedding highlight config
    chunks documents request
  = Thrown (js "Search failed: " ++ problem).
Proof.
  intros Hbad Hembed Hsearch Hin Hdoc. unfold searchDocuments.
  rewrite Hembed, Hsearch.
  rewrite (@collect_throws request documents problem vectorResults v doc
             Hbad Hin Hdoc).
  reflexivity.
Qed.

End QueryAsPattern.


Lemma searchDocuments_at_most_limit_witness :
  Z.of_nat (length [ToyIndex.found ToyIndex.doc_x "X" 2000 (9 # 10);
                    ToyIndex.found ToyIndex.doc_y "Y" 1000 (4 # 5)]) <= 5.
Proof.
  apply (@searchDocuments_at_most_limit ToyIndex.Vector ToyIndex.similarity
           ToyIndex.times (fun _ => Returned 1%Q) (fun _ matched => Returned matched)
           ToyIndex.config ToyIndex.library ToyIndex.documents
           ToyIndex.question).
  vm_compute. reflexivity.
Defined.

Lemma searchDocuments_sales_relevance_witness :
  RAGManager.salesRelevanceScore (ToyIndex.found ToyIndex.doc_x "X" 2000 (9 # 10))
  = None.
Proof.
  refine (@searchDocuments_sales_relevance ToyIndex.Vector ToyIndex.similarity
            ToyIndex.times (fun _ => Returned 1%Q)
            (fun _ matched => Returned matched)
            ToyIndex.config ToyIndex.library ToyIndex.documents
            ToyIndex.question
            [ToyIndex.found ToyIndex.doc_x "X" 2000 (9 # 10);
             ToyIndex.found ToyIndex.doc_y "Y" 1000 (4 # 5)]
            (ToyIndex.found ToyIndex.doc_x "X" 2000 (9 # 10)) _ _).
  - vm_compute. reflexivity.
  - left. reflexivity.
Defined.

Lemma searchDocuments_query_not_a_pattern_witness :
  RAGManager.searchDocuments ToyIndex.similarity ToyIndex.times
    (fun _ => Returned 1%Q)
    (fun _ _ => Thrown (js "Invalid regular expression"))
    ToyIndex.config ToyIndex.library ToyIndex.documents ToyIndex.question
  = Thrown (js "Search failed: " ++ js "Invalid regular expression").
Proof.
  eapply (@searchDocuments_query_not_a_pattern ToyIndex.Vector
            ToyIndex.similarity ToyIndex.times (fun _ => Returned 1%Q)
            (fun _ _ => Thrown (js "Invalid regular expression"))
            ToyIndex.config ToyIndex.library ToyIndex.documents
            ToyIndex.question 1%Q).
  - intros matched. reflexivity.
  - reflexivity.
  - vm_compute. reflexivity.
  - left. reflexivity.
  - vm_compute. reflexivity.
Defined.

(* ================================================================== *)
(** * GenerationService: the prompt                                    *)
(* ================================================================== *)

Section PromptFacts.

Import Prompting.

Variable show : number -> jsstring.

Lemma includes_here sub rest : includes (sub ++ rest) sub = true.
Proof.
  destruct (sub ++ rest) eqn:E; simpl; rewrite <- E;
    rewrite starts_with_refl_app; reflexivity.
Qed.

Lemma includes_behind before s sub :
  includes s sub = true -> includes (before ++ s) sub = true.
Proof.
  intros H. induction before as [|c before IH]; simpl; [exact H|].
  rewrite IH. apply orb_true_r.
Qed.

Lemma includes_middle before sub rest :
  includes (before ++ sub ++ rest) sub = true.
Proof. apply includes_behind, includes_here. Qed.

Lemma extends_refl prompt : extends prompt prompt.
Proof. exists []. now rewrite app_nil_r. Qed.

Lemma extends_app prompt prompt' tail :
  extends prompt prompt' -> extends prompt (prompt' ++ tail).
Proof.
  intros [t ->]. exists (t ++ tail). now rewrite app_assoc.
Qed.

Lemma extends_line prompt prompt' label value :
  extends prompt prompt' -> extends prompt (line label value prompt').
Proof.
  intros H. unfold line. destruct (RAGManager.truthy value); [|exact H].
  apply extends_app, H.
Qed.

Ltac extend :=
  repeat first
    [ apply extends_refl
    | apply extends_line
    | apply extends_app
    | match goal with
      | |- extends _ (match ?x with _ => _ end) => destruct x
      end ].

Lemma buildSystemPrompt_extends salesContext :
  extends instructions (buildSystemPrompt show salesContext).
Proof.
  unfold buildSystemPrompt, deal. cbv zeta. extend.
Qed.

(** X20: whatever the request, the prompt begins with the fixed
    instructions of the assistant and contains the context and the
    question of the client as they were given, unescaped and
    untruncated. *)
Theorem buildPrompt_contains (request : GenerationRequest) :
  starts_with instructions (buildPrompt show request) = true /\
  includes (buildPrompt show request) (context request) = true /\
  includes (buildPrompt show request) (query request) = true.
Proof.
  unfold buildPrompt. split; [|split].
  - destruct (buildSystemPrompt_extends (salesContext request)) as [tail ->].
    rewrite <- app_assoc. apply starts_with_refl_app.
  - apply includes_behind.
    change (includes
              ((newline :: newline :: js "Доступная информация для ответа:"
                ++ [newline; newline])
               ++ context request
               ++ newline :: newline
                  :: buildQueryPrompt (query request) (responseFormat request))
              (context request) = true).
    apply includes_middle.
  - apply includes_behind.
    apply (includes_behind
             (newline :: newline :: buildContextPrompt (context request))).
    apply (includes_behind [newline; newline]).
    unfold buildQueryPrompt.
    destruct (responseFormat request);
      rewrite <- ?app_assoc; apply includes_middle.
Qed.

End PromptFacts.

(* ================================================================== *)
(** * DocumentProcessor: the chunks of the paragraph strategy          *)
(* ================================================================== *)

Section TrimFacts.

Import ChunkShape.

Lemma trimStart_idempotent s : trimStart (trimStart s) = trimStart s.
Proof. apply head_not_whitespace_trimStart, trimStart_head. Qed.

Lemma trim_idempotent s : trim (trim s) = trim s.
Proof.
  unfold trim at 1.
  rewrite (head_not_whitespace_trimStart _ (trim_head s)).
  unfold trim, trimEnd.
  rewrite rev_involutive, trimStart_idempotent. reflexivity.
Qed.

Lemma trimStart_nil_iff s : trimStart s = [] <-> has_ink s = false.
Proof.
  unfold has_ink. induction s as [|c s IH]; simpl; [tauto|].
  destruct (is_whitespace c); simpl; [exact IH|].
  split; discriminate.
Qed.

Lemma has_ink_rev s : has_ink (rev s) = has_ink s.
Proof.
  unfold has_ink. induction s as [|c s IH]; simpl; [reflexivity|].
  rewrite existsb_app, IH. simpl. rewrite orb_false_r. apply orb_comm.
Qed.

Lemma has_ink_app a b : has_ink (a ++ b) = has_ink a || has_ink b.
Proof. apply existsb_app. Qed.

Lemma has_ink_trimStart s : has_ink (trimStart s) = has_ink s.
Proof.
  unfold has_ink. induction s as [|c s IH]; simpl; [reflexivity|].
  destruct (is_whitespace c) eqn:Hc; simpl; [exact IH|].
  rewrite Hc. reflexivity.
Qed.

Lemma has_ink_trim s : has_ink (trim s) = has_ink s.
Proof.
  unfold trim, trimEnd.
  rewrite has_ink_rev, has_ink_trimStart, has_ink_rev, has_ink_trimStart.
  reflexivity.
Qed.

Lemma trim_nil_iff s : trim s = [] <-> has_ink s = false.
Proof.
  rewrite <- (has_ink_trim s). split.
  - intros ->. reflexivity.
  - intros H. unfold trim, trimEnd in *.
    rewrite has_ink_rev in H. apply trimStart_nil_iff in H.
    rewrite trimStart_idempotent in H. rewrite H. reflexivity.
Qed.

Lemma trim_length_positive s :
  (0 <? Z.of_nat (length (trim s))) = has_ink s.
Proof.
  destruct (has_ink s) eqn:H.
  - apply Z.ltb_lt. destruct (trim s) eqn:E; [|simpl; lia].
    apply trim_nil_iff in E. congruence.
  - apply trim_nil_iff in H. rewrite H. reflexivity.
Qed.

Lemma trim_length_le s : (length (trim s) <= length s)%nat.
Proof.
  unfold trim.
  destruct (trimEnd_prefix (trimStart s)) as [k ->].
  destruct (trimStart_suffix s) as [j ->].
  rewrite length_firstn, length_skipn. lia.
Qed.

End TrimFacts.

Section ParagraphChunks.

Import DocumentProcessor ChunkShape.

Variable host : Host.

Lemma createChunk_fields body index start fullText w :
  content (fst (createChunk host body index start fullText w)) = trim body /\
  chunkIndex (fst (createChunk host body index start fullText w)) = index /\
  startPosition (fst (createChunk host body index start fullText w)) = start /\
  endPosition (fst (createChunk host body index start fullText w))
  = start + Z.of_nat (length body) /\
  id_index (id (fst (createChunk host body index start fullText w))) = index.
Proof. repeat split. Qed.

(** The two ways a paragraph is taken in. *)
Lemma paragraph_step_cases fullText opts maxChunkSize acc p w :
  ((Z.of_nat (length (currentChunk acc)) + Z.of_nat (length p) >? maxChunkSize)
   && (Z.of_nat (length (currentChunk acc)) >? 0) = true /\
   fst (paragraph_step host fullText opts maxChunkSize acc p w) =
   {| made :=
        made acc
        ++ [fst (createChunk host (trim (currentChunk acc))
                   (Z.of_nat (length (made acc))) (start_of_current acc)
                   fullText w)];
      currentChunk :=
        if (Z_or (chunkOverlap opts) 0 >? 0)
           && (Z.of_nat (length (currentChunk acc))
               >? Z_or (chunkOverlap opts) 0)
        then slice_last (Z_or (chunkOverlap opts) 0) (currentChunk acc)
             ++ blank_line ++ p
        else p;
      start_of_current := indexOf fullText p |}) \/
  ((Z.of_nat (length (currentChunk acc)) + Z.of_nat (length p) >? maxChunkSize)
   && (Z.of_nat (length (currentChunk acc)) >? 0) = false /\
   fst (paragraph_step host fullText opts maxChunkSize acc p w) =
   {| made := made acc;
      currentChunk :=
        currentChunk acc
        ++ (if Z.of_nat (length (currentChunk acc)) >? 0
            then blank_line else [])
        ++ p;
      start_of_current :=
        if Z.of_nat (length (currentChunk acc)) =? 0 then indexOf fullText p
        else start_of_current acc |}).
Proof.
  unfold paragraph_step.
  destruct (_ && _); [left | right]; split; reflexivity.
Qed.

Lemma paragraph_loop_invariant (Inv : Accumulator -> Prop)
  (P : jsstring -> Prop) fullText opts maxChunkSize :
  (forall acc p w, Inv acc -> P p ->
     Inv (fst (paragraph_step host fullText opts maxChunkSize acc p w))) ->
  forall paragraphs acc w,
    Forall P paragraphs -> Inv acc ->
    Inv (fst (paragraph_loop host fullText opts maxChunkSize paragraphs acc w)).
Proof.
  intros Hstep. induction paragraphs as [|p rest IH]; intros acc w HP Hacc.
  - exact Hacc.
  - inversion HP as [|? ? Hp Hrest]; subst.
    cbn [paragraph_loop]. unfold bind.
    pose proof (Hstep acc p w Hacc Hp) as Hnext.
    destruct (paragraph_step host fullText opts maxChunkSize acc p w)
      as [acc' w'].
    apply IH; assumption.
Qed.

Lemma chunkByParagraph_cases fullText opts w :
  exists acc w',
    paragraph_loop host fullText opts (Z_or (chunkSize opts) 1000)
      (filter (fun p => 0 <? Z.of_nat (length (trim p)))
         (split_paragraphs fullText))
      {| made := []; currentChunk := []; start_of_current := 0 |} w
    = (acc, w') /\
    fst (chunkByParagraph host fullText opts w) =
    if has_ink (currentChunk acc)
    then made acc
         ++ [fst (createChunk host (trim (currentChunk acc))
                    (Z.of_nat (length (made acc))) (start_of_current acc)
                    fullText w')]
    else made acc.
Proof.
  unfold chunkByParagraph, bind.
  destruct (paragraph_loop _ _ _ _ _ _ w) as [acc w'].
  exists acc, w'. split; [reflexivity|].
  rewrite trim_length_positive.
  destruct (has_ink (currentChunk acc)); reflexivity.
Qed.

Lemma paragraphs_have_ink fullText :
  Forall (fun p => has_ink p = true)
    (filter (fun p => 0 <? Z.of_nat (length (trim p)))
       (split_paragraphs fullText)).
Proof.
  apply Forall_forall. intros p Hp. apply filter_In in Hp.
  destruct Hp as [_ Hp]. rewrite trim_length_positive in Hp. exact Hp.
Qed.

Lemma numbered_snoc chunks c :
  numbered chunks -> chunkIndex c = Z.of_nat (length chunks) ->
  numbered (chunks ++ [c]).
Proof.
  unfold numbered. intros Hn Hc.
  rewrite map_app, length_app, Nat.add_1_r, seq_S, map_app, Hn.
  simpl. rewrite Hc. reflexivity.
Qed.

Lemma well_formed_created body index start fullText w :
  has_ink body = true ->
  well_formed (fst (createChunk host (trim body) index start fullText w)).
Proof.
  intros Hink.
  destruct (createChunk_fields (trim body) index start fullText w)
    as [Hcontent [Hindex [Hstart [Hend Hid]]]].
  unfold well_formed. rewrite Hcontent, Hindex, Hstart, Hend, Hid.
  rewrite !trim_idempotent. repeat split.
  intros Hnil. apply trim_nil_iff in Hnil. congruence.
Qed.

Lemma paragraph_step_in_order fullText opts maxChunkSize acc p w :
  in_order acc -> has_ink p = true ->
  in_order (fst (paragraph_step host fullText opts maxChunkSize acc p w)).
Proof.
  intros [Hnum [Hwf Hcur]] Hp.
  destruct (paragraph_step_cases fullText opts maxChunkSize acc p w)
    as [[Hcond ->]|[Hcond ->]]; unfold in_order; cbn [made currentChunk].
  - apply andb_true_iff in Hcond. destruct Hcond as [_ Hlen].
    assert (Hink : has_ink (currentChunk acc) = true).
    { destruct Hcur as [Hnil|Hink]; [|exact Hink].
      rewrite Hnil in Hlen. discriminate Hlen. }
    split; [|split].
    + apply numbered_snoc; [exact Hnum|].
      apply createChunk_fields.
    + apply Forall_app. split; [exact Hwf|].
      constructor; [|constructor]. apply well_formed_created, Hink.
    + right. destruct (_ && _); [|exact Hp].
      rewrite !has_ink_app, Hp, !orb_true_r. reflexivity.
  - split; [exact Hnum|]. split; [exact Hwf|].
    right. rewrite !has_ink_app, Hp, !orb_true_r. reflexivity.
Qed.

(** X21: the chunks of the paragraph strategy are numbered 0, 1, 2, ...
    in their order, in [chunkIndex] and in their ids; none is empty,
    each is trimmed, and the two positions of a chunk are as far apart
    as its content is long. *)
Theorem chunkByParagraph_well_formed (fullText : jsstring)
  (opts : ProcessingOptions) (w : World) :
  numbered (fst (chunkByParagraph host fullText opts w)) /\
  Forall well_formed (fst (chunkByParagraph host fullText opts w)).
Proof.
  destruct (chunkByParagraph_cases fullText opts w) as [acc [w' [Hloop ->]]].
  assert (Hinv : in_order acc).
  { change acc with (fst (acc, w')). rewrite <- Hloop.
    apply paragraph_loop_invariant with (P := fun p => has_ink p = true).
    - intros. apply paragraph_step_in_order; assumption.
    - apply paragraphs_have_ink.
    - repeat split; [constructor | left; reflexivity]. }
  destruct Hinv as [Hnum [Hwf _]].
  destruct (has_ink (currentChunk acc)) eqn:Hink; [|split; assumption].
  split.
  - apply numbered_snoc; [exact Hnum | apply createChunk_fields].
  - apply Forall_app. split; [exact Hwf|].
    constructor; [|constructor]. apply well_formed_created, Hink.
Qed.

End ParagraphChunks.

Section ParagraphSizes.

Import DocumentProcessor ChunkShape.

Variable host : Host.

Lemma slice_last_length n s :
  0 <= n <= Z.of_nat (length s) ->
  Z.of_nat (length (slice_last n s)) = n.
Proof.
  intros H. unfold slice_last. rewrite length_skipn. lia.
Qed.

Lemma split_blank_lines_nonempty s : forall skip current,
  split_blank_lines skip current s <> [].
Proof.
  induction s as [|c s IH]; intros skip current; simpl; [discriminate|].
  destruct skip; [|apply IH].
  destruct (c =? newline)%N; [|apply IH].
  destruct (blank_line_match s); [discriminate | apply IH].
Qed.

Lemma paragraph_step_within fullText opts maxChunkSize longest acc p w :
  maxChunkSize <= longest ->
  within (longest + 2 + Z.max 0 (Z_or (chunkOverlap opts) 0)) acc ->
  Z.of_nat (length p) <= longest ->
  within (longest + 2 + Z.max 0 (Z_or (chunkOverlap opts) 0))
    (fst (paragraph_step host fullText opts maxChunkSize acc p w)).
Proof.
  intros Hmax [Hmade Hcur] Hp.
  destruct (paragraph_step_cases host fullText opts maxChunkSize acc p w)
    as [[Hcond ->]|[Hcond ->]]; unfold within; cbn [made currentChunk].
  - split.
    + apply Forall_app. split; [exact Hmade|].
      constructor; [|constructor].
      rewrite (proj1 (createChunk_fields host _ _ _ _ _)).
      pose proof (trim_length_le (trim (currentChunk acc))).
      pose proof (trim_length_le (currentChunk acc)). lia.
    + clear Hcond.
      destruct ((Z_or (chunkOverlap opts) 0 >? 0) && _) eqn:Hoverlap; [|lia].
      apply andb_true_iff in Hoverlap. destruct Hoverlap as [Hpos Hlong].
      rewrite Z.gtb_ltb in Hpos, Hlong.
      apply Z.ltb_lt in Hpos, Hlong.
      rewrite !length_app, !Nat2Z.inj_add, slice_last_length by lia.
      simpl length. lia.
  - split; [exact Hmade|].
    rewrite !length_app, !Nat2Z.inj_add.
    apply andb_false_iff in Hcond.
    destruct (Z.of_nat (length (currentChunk acc)) >? 0) eqn:Hsome.
    + destruct Hcond as [Hfit|]; [|discriminate].
      rewrite Z.gtb_ltb in Hfit. apply Z.ltb_ge in Hfit.
      simpl length. lia.
    + rewrite Z.gtb_ltb in Hsome. apply Z.ltb_ge in Hsome.
      simpl length. lia.
Qed.

(** X22: the chunk size of the paragraph strategy is not a bound by
    itself, since a paragraph is never split and the separators and the
    overlap are not counted.  What holds is this: when no paragraph is
    longer than [longest], which is at least the chunk size (1000 when
    none is given), no chunk is longer than [longest] plus 2 plus the
    overlap. *)
Theorem chunkByParagraph_sizes (fullText : jsstring)
  (opts : ProcessingOptions) (w : World) (longest : Z) :
  Forall (fun p => Z.of_nat (length p) <= longest) (split_paragraphs fullText) ->
  Z_or (chunkSize opts) 1000 <= longest ->
  Forall (fun c =>
            Z.of_nat (length (content c))
            <= longest + 2 + Z.max 0 (Z_or (chunkOverlap opts) 0))
         (fst (chunkByParagraph host fullText opts w)).
Proof.
  intros Hparagraphs Hmax.
  destruct (chunkByParagraph_cases host fullText opts w)
    as [acc [w' [Hloop ->]]].
  assert (Hlongest : 0 <= longest).
  { pose proof (split_blank_lines_nonempty fullText 0 []) as Hsome.
    fold (split_paragraphs fullText) in Hsome.
    destruct (split_paragraphs fullText) as [|p ps]; [congruence|].
    inversion Hparagraphs; subst. lia. }
  assert (Hinv : within (longest + 2 + Z.max 0 (Z_or (chunkOverlap opts) 0))
                   acc).
  { change acc with (fst (acc, w')). rewrite <- Hloop.
    apply paragraph_loop_invariant
      with (P := fun p => Z.of_nat (length p) <= longest).
    - intros. apply paragraph_step_within; assumption.
    - apply Forall_forall. intros p Hp. apply filter_In in Hp.
      rewrite Forall_forall in Hparagraphs. apply Hparagraphs, Hp.
    - split; [constructor | simpl; lia]. }
  destruct Hinv as [Hmade Hcur].
  destruct (has_ink (currentChunk acc)); [|exact Hmade].
  apply Forall_app. split; [exact Hmade|].
  constructor; [|constructor].
  rewrite (proj1 (createChunk_fields host _ _ _ _ _)).
  pose proof (trim_length_le (trim (currentChunk acc))).
  pose proof (trim_length_le (currentChunk acc)). lia.
Qed.

End ParagraphSizes.

Section NoTextIsLost.

Import DocumentProcessor ChunkShape.

Variable host : Host.

Lemma blank_line_match_whitespace s : forall n,
  blank_line_match s = Some n ->
  forallb is_whitespace (firstn n s) = true.
Proof.
  induction s as [|c s IH]; intros n; simpl; [discriminate|].
  destruct (is_whitespace c) eqn:Hc; [|discriminate].
  destruct (blank_line_match s) as [m|].
  - intros [= <-]. simpl. rewrite Hc. apply IH. reflexivity.
  - destruct (c =? newline)%N; [|discriminate].
    intros [= <-]. simpl. rewrite Hc. reflexivity.
Qed.

(** The separators between two paragraphs are white space: what is not
    white space ends up in a paragraph. *)
Lemma split_blank_lines_ink s : forall skip current,
  forallb is_whitespace (firstn skip s) = true ->
  has_ink current || has_ink s = true ->
  existsb has_ink (split_blank_lines skip current s) = true.
Proof.
  induction s as [|c s IH]; intros skip current Hskip Hink.
  - simpl. rewrite has_ink_rev. simpl in Hink.
    rewrite orb_false_r in Hink |- *. exact Hink.
  - cbn [split_blank_lines]. destruct skip as [|k].
    + destruct (c =? newline)%N eqn:Hc.
      * apply N.eqb_eq in Hc. subst c.
        destruct (blank_line_match s) as [n|] eqn:Hmatch.
        -- cbn [existsb]. rewrite has_ink_rev.
           destruct (has_ink current); [reflexivity|].
           apply IH.
           ++ apply blank_line_match_whitespace, Hmatch.
           ++ exact Hink.
        -- apply IH; [reflexivity|].
           unfold has_ink in *. simpl in *. exact Hink.
      * apply IH; [reflexivity|].
        unfold has_ink in *. simpl in *.
        destruct (is_whitespace c); simpl in *; [exact Hink|].
        reflexivity.
    + simpl in Hskip. apply andb_true_iff in Hskip.
      destruct Hskip as [Hc Hrest].
      apply IH; [exact Hrest|].
      unfold has_ink in *. simpl in Hink. rewrite Hc in Hink.
      exact Hink.
Qed.

Lemma paragraph_step_under_way fullText opts maxChunkSize acc p w :
  has_ink p = true ->
  under_way (fst (paragraph_step host fullText opts maxChunkSize acc p w)).
Proof.
  intros Hp.
  destruct (paragraph_step_cases host fullText opts maxChunkSize acc p w)
    as [[_ ->]|[_ ->]]; unfold under_way; cbn [made currentChunk].
  - left. intros Hnil. apply app_eq_nil in Hnil.
    destruct Hnil as [_ Hnil]. discriminate Hnil.
  - right. rewrite !has_ink_app, Hp, !orb_true_r. reflexivity.
Qed.

Lemma paragraph_step_made fullText opts maxChunkSize acc p w :
  made acc <> [] ->
  made (fst (paragraph_step host fullText opts maxChunkSize acc p w)) <> [].
Proof.
  intros Hmade.
  destruct (paragraph_step_cases host fullText opts maxChunkSize acc p w)
    as [[_ ->]|[_ ->]]; cbn [made]; [|exact Hmade].
  intros Hnil. apply app_eq_nil in Hnil. destruct Hnil as [_ Hnil].
  discriminate Hnil.
Qed.

Lemma paragraph_loop_under_way fullText opts maxChunkSize paragraphs :
  paragraphs <> [] ->
  Forall (fun p => has_ink p = true) paragraphs ->
  forall acc w,
    under_way
      (fst (paragraph_loop host fullText opts maxChunkSize paragraphs acc w)).
Proof.
  induction paragraphs as [|p rest IH]; intros Hsome Hink acc w;
    [congruence|].
  inversion Hink as [|? ? Hp Hrest]; subst.
  cbn [paragraph_loop]. unfold bind.
  pose proof (@paragraph_step_under_way fullText opts maxChunkSize acc p w Hp)
    as Hstep.
  destruct (paragraph_step host fullText opts maxChunkSize acc p w)
    as [acc' w'].
  destruct rest as [|q rest]; [exact Hstep|].
  apply IH; [discriminate | exact Hrest].
Qed.

Lemma chunkByParagraph_not_empty fullText opts w :
  has_ink fullText = true ->
  fst (chunkByParagraph host fullText opts w) <> [].
Proof.
  intros Hink.
  destruct (chunkByParagraph_cases host fullText opts w)
    as [acc [w' [Hloop ->]]].
  assert (Hsome : filter (fun p => 0 <? Z.of_nat (length (trim p)))
                    (split_paragraphs fullText) <> []).
  { pose proof (@split_blank_lines_ink fullText 0 [] eq_refl Hink) as Hex.
    apply existsb_exists in Hex. destruct Hex as [p [Hp Hpink]].
    intros Hnil.
    assert (Hin : In p (filter (fun p => 0 <? Z.of_nat (length (trim p)))
                          (split_paragraphs fullText))).
    { apply filter_In. split; [exact Hp|].
      rewrite trim_length_positive. exact Hpink. }
    rewrite Hnil in Hin. exact Hin. }
  pose proof (@paragraph_loop_under_way fullText opts
                (Z_or (chunkSize opts) 1000) _ Hsome
                (paragraphs_have_ink fullText)
                {| made := []; currentChunk := []; start_of_current := 0 |} w)
    as Hway.
  rewrite Hloop in Hway. cbn [fst] in Hway.
  destruct (has_ink (currentChunk acc)) eqn:Hcur.
  - intros Hnil. apply app_eq_nil in Hnil. destruct Hnil as [_ Hnil].
    discriminate Hnil.
  - destruct Hway as [Hmade|Hcur']; [exact Hmade | congruence].
Qed.

Lemma returned_some (m : M (list DocumentChunk)) w :
  fst (returned m w) = Some (fst (m w)).
Proof. unfold returned, bind, ret. destruct (m w). reflexivity. Qed.

(** Only the loops of the strategies [sentence] and [fixed_size] can
    keep [createChunks] from returning. *)
Lemma createChunks_returns fuel fullText opts w :
  fst (createChunks host fuel fullText opts w) = None ->
  chunkStrategy opts = sentence \/ chunkStrategy opts = fixed_size.
Proof.
  unfold createChunks.
  destruct (chunkStrategy opts); auto; rewrite returned_some; discriminate.
Qed.

(** X23: [process] never throws.  Under the strategies [paragraph],
    [section] and [semantic] it always returns; under [sentence] and
    [fixed_size] it returns unless the loop of the chunker does not
    end, which needs an extracted text that holds more than white
    space.  A result that it returns is of one of two kinds.  A success
    carries the extracted text, which holds more than white space, the
    chunks that [createChunks] made and their count, and no errors.  A
    failure carries no text and no chunks, counts zero chunks and names
    exactly one error. *)
Theorem process_result_kinds (fuel : nat) (request : DocumentProcessingRequest)
  (w : World) :
  match fst (process host fuel request w) with
  | Some result =>
      (success result = true /\
       exists extracted cs,
         extractText host (source request) = Returned extracted /\
         has_ink extracted = true /\
         extractedText result = Some extracted /\
         fst (createChunks host fuel extracted (options request)
                {| reads := S (reads w); console := console w |}) = Some cs /\
         chunks result = Some cs /\
         chunksCreated (processingMetadata result) = Z.of_nat (length cs) /\
         errors (processingMetadata result) = None) \/
      (success result = false /\
       extractedText result = None /\
       chunks result = None /\
       chunksCreated (processingMetadata result) = 0 /\
       exists problem, errors (processingMetadata result) = Some [problem])
  | None =>
      (chunkStrategy (options request) = sentence \/
       chunkStrategy (options request) = fixed_size) /\
      exists extracted,
        extractText host (source request) = Returned extracted /\
        has_ink extracted = true /\
        fst (createChunks host fuel extracted (options request)
               {| reads := S (reads w); console := console w |}) = None
  end.
Proof.
  unfold process, bind, Date_now, ret.
  destruct (extractText host (source request)) as [extracted|problem].
  2: { right. cbn. repeat split. exists problem. reflexivity. }
  destruct ((Z.of_nat (length extracted) =? 0)
            || (Z.of_nat (length (trim extracted)) =? 0)) eqn:Hblank.
  - right. cbn. repeat split. exists no_text. reflexivity.
  - apply orb_false_iff in Hblank. destruct Hblank as [_ Hblank].
    apply Z.eqb_neq in Hblank.
    assert (Hink : has_ink extracted = true).
    { destruct (has_ink extracted) eqn:Hink; [reflexivity|].
      apply trim_nil_iff in Hink. rewrite Hink in Hblank. now elim Hblank. }
    destruct (createChunks host fuel extracted (options request) _)
      as [[cs|] w'] eqn:Hmade; cbn.
    + left. split; [reflexivity|]. exists extracted, cs.
      repeat split; auto. rewrite Hmade. reflexivity.
    + split.
      * apply (createChunks_returns fuel extracted (options request)
                 {| reads := S (reads w); console := console w |}).
        rewrite Hmade. reflexivity.
      * exists extracted. repeat split; auto. rewrite Hmade. reflexivity.
Qed.

(** X24: under the strategies [paragraph] and [semantic], [process]
    returns, and a successful result holds at least one chunk: no text
    that holds more than white space is dropped as a whole. *)
Theorem process_makes_a_chunk (fuel : nat) (request : DocumentProcessingRequest)
  (w : World) :
  chunkStrategy (options request) = paragraph \/
  chunkStrategy (options request) = semantic ->
  exists result,
    fst (process host fuel request w) = Some result /\
    (success result = true ->
     exists c cs, chunks result = Some (c :: cs)).
Proof.
  intros Hstrategy. unfold process, bind, Date_now, ret.
  destruct (extractText host (source request)) as [extracted|problem];
    [|eexists; split; [reflexivity | discriminate]].
  destruct ((Z.of_nat (length extracted) =? 0)
            || (Z.of_nat (length (trim extracted)) =? 0)) eqn:Hblank;
    [eexists; split; [reflexivity | discriminate]|].
  apply orb_false_iff in Hblank. destruct Hblank as [_ Hblank].
  apply Z.eqb_neq in Hblank.
  assert (Hink : has_ink extracted = true).
  { destruct (has_ink extracted) eqn:Hink; [reflexivity|].
    apply trim_nil_iff in Hink. rewrite Hink in Hblank. now elim Hblank. }
  set (w1 := {| reads := S (reads w); console := console w |}).
  assert (Hchunks : exists c cs,
            fst (createChunks host fuel extracted (options request) w1)
            = Some (c :: cs)).
  { unfold createChunks. destruct Hstrategy as [-> | ->];
      rewrite returned_some.
    - pose proof (chunkByParagraph_not_empty extracted (options request) w1
                    Hink) as Hne.
      destruct (fst (chunkByParagraph host extracted (options request) w1))
        as [|c cs]; [congruence|]. exists c, cs. reflexivity.
    - set (w2 := {| reads := reads w1;
                    console := console w1 ++
                      [js "Semantic chunking not implemented, falling back to paragraph chunking"] |}).
      change (chunkBySemantic host extracted (options request) w1)
        with (chunkByParagraph host extracted (options request) w2).
      pose proof (chunkByParagraph_not_empty extracted (options request) w2
                    Hink) as Hne.
      destruct (fst (chunkByParagraph host extracted (options request) w2))
        as [|c cs]; [congruence|]. exists c, cs. reflexivity. }
  destruct Hchunks as [c [cs Hchunks]].
  destruct (createChunks host fuel extracted (options request) w1)
    as [made w'].
  cbn in Hchunks. subst made. cbn.
  eexists. split; [reflexivity|]. intros _. exists c, cs. reflexivity.
Qed.

End NoTextIsLost.

Section SalesRelevance.

Import DocumentProcessor.

Variable host : Host.

(** X25: the sales relevance of a chunk is a number between 0 and 1,
    never NaN, whatever the content and the case mapping and the
    pattern matcher of the host. *)
Theorem calculateSalesRelevance_range (content : jsstring) :
  le zero (calculateSalesRelevance host content) = true /\
  le (calculateSalesRelevance host content) (of_Z 1) = true.
Proof.
  unfold calculateSalesRelevance, salesTerms. cbn [fold_left].
  destruct (hasProductInfo host content),
    (matchesPricing host content),
    (hasCompetitorInfo host content),
    (includes (toLowerCase host content) (js "продажи")),
    (includes (toLowerCase host content) (js "клиент")),
    (includes (toLowerCase host content) (js "сделка")),
    (includes (toLowerCase host content) (js "договор")),
    (includes (toLowerCase host content) (js "контракт"));
    vm_compute; split; reflexivity.
Qed.

End SalesRelevance.

Lemma chunkByParagraph_sizes_witness :
  Forall (fun c => Z.of_nat (length (DocumentProcessor.content c)) <= 1002)
    (fst (DocumentProcessor.chunkByParagraph PlainHost.host
            TwoParagraphs.fullText
            (PlainHost.options_for DocumentProcessor.paragraph)
            PlainHost.start)).
Proof.
  apply (@chunkByParagraph_sizes PlainHost.host TwoParagraphs.fullText
           (PlainHost.options_for DocumentProcessor.paragraph)
           PlainHost.start 1000).
  - apply Forall_forall. intros p Hp. vm_compute in Hp.
    destruct Hp as [<-|[<-|[]]]; simpl; lia.
  - vm_compute. discriminate.
Defined.

Lemma process_makes_a_chunk_witness :
  exists result,
    fst (DocumentProcessor.process PlainHost.host 0 TwoParagraphs.request
           PlainHost.start)
    = Some result /\
    (DocumentProcessor.success result = true ->
     exists c cs, DocumentProcessor.chunks result = Some (c :: cs)).
Proof.
  apply (@process_makes_a_chunk PlainHost.host 0 TwoParagraphs.request
           PlainHost.start).
  left. reflexivity.
Defined.

(* ================================================================== *)
(** * DocumentProcessor: chunks of a fixed size and of sentences       *)
(* ================================================================== *)

Section StrideFacts.

Import DocumentProcessor ChunkShape.

Variable host : Host.

Lemma fixed_size_loop_stalls fullText size overlap :
  fullText <> [] -> size <= overlap ->
  forall fuel i made w,
    i <= 0 ->
    fst (fixed_size_loop host fuel fullText size overlap i made w) = None.
Proof.
  intros Htext Hstep.
  induction fuel as [|fuel IH]; intros i made w Hi; [reflexivity|].
  cbn [fixed_size_loop].
  assert (Hin : (i <? Z.of_nat (length fullText)) = true).
  { apply Z.ltb_lt. destruct fullText; [congruence | simpl length; lia]. }
  rewrite Hin.
  destruct (0 <? Z.of_nat (length (trim (JsArray.slice i (i + size) fullText)))).
  - unfold bind.
    destruct (createChunk host _ _ _ _ w) as [c w'].
    apply IH. lia.
  - apply IH. lia.
Qed.

Lemma sentence_loop_stalls fullText sentences size overlap :
  sentences <> [] -> size <= overlap ->
  forall fuel i made w,
    i <= 0 ->
    fst (sentence_loop host fuel fullText sentences size overlap i made w)
    = None.
Proof.
  intros Hsentences Hstep.
  induction fuel as [|fuel IH]; intros i made w Hi; [reflexivity|].
  cbn [sentence_loop].
  assert (Hin : (i <? Z.of_nat (length sentences)) = true).
  { apply Z.ltb_lt. destruct sentences; [congruence | simpl length; lia]. }
  rewrite Hin.
  destruct (0 <? Z.of_nat (length (trim _))).
  - unfold bind.
    destruct (createChunk host _ _ _ _ w) as [c w'].
    apply IH. lia.
  - apply IH. lia.
Qed.

(** X26: the strategies [fixed_size] and [sentence] advance by the
    chunk size minus the overlap.  When the overlap is not smaller than
    the chunk size -- a chunk size of 100 with the default overlap of
    100, or one sentence a chunk with the default overlap of one -- the
    loop never ends on a text that is not empty, or has a sentence:
    within no number of rounds does it return. *)
Theorem strides_that_do_not_advance (fullText : jsstring)
  (opts : ProcessingOptions) (fuel : nat) (w : World) :
  (fullText <> [] ->
   Z_or (chunkSize opts) 1000 <= Z_or (chunkOverlap opts) 100 ->
   fst (chunkByFixedSize host fuel fullText opts w) = None) /\
  (splitIntoSentences fullText <> [] ->
   Z_or (chunkSize opts) 3 <= Z_or (chunkOverlap opts) 1 ->
   fst (chunkBySentence host fuel fullText opts w) = None).
Proof.
  split; intros Hsome Hstep.
  - apply fixed_size_loop_stalls; [exact Hsome | exact Hstep | lia].
  - apply sentence_loop_stalls; [exact Hsome | exact Hstep | lia].
Qed.

Lemma slice_length_le (A : Type) (l : list A) start size :
  0 <= start -> 0 <= size ->
  Z.of_nat (length (JsArray.slice start (start + size) l)) <= size.
Proof.
  intros Hstart Hsize. unfold JsArray.slice, JsArray.relative.
  destruct (start <? 0) eqn:Hneg; [apply Z.ltb_lt in Hneg; lia|].
  destruct (start + size <? 0) eqn:Hneg'; [apply Z.ltb_lt in Hneg'; lia|].
  rewrite length_firstn, length_skipn. lia.
Qed.

(** A chunk of the fixed-size strategy: it starts at a multiple of the
    stride, inside the text, and is no longer than the chunk size. *)
Lemma fixed_size_loop_ends fullText size overlap :
  0 < size - overlap -> 0 <= size ->
  forall fuel i made w,
    0 <= i ->
    (Batching.batch_count (Z.of_nat (length fullText) - i) (size - overlap)
     < fuel)%nat ->
    exists added,
      fst (fixed_size_loop host fuel fullText size overlap i made w)
      = Some (made ++ added) /\
      (length added
       <= Batching.batch_count (Z.of_nat (length fullText) - i)
            (size - overlap))%nat /\
      Forall (fun c =>
                i <= startPosition c < Z.of_nat (length fullText) /\
                (startPosition c - i) mod (size - overlap) = 0 /\
                Z.of_nat (length (content c)) <= size)
             added.
Proof.
  intros Hstep Hsize.
  induction fuel as [|fuel IH]; intros i made w Hi Hfuel; [lia|].
  cbn [fixed_size_loop].
  destruct (i <? Z.of_nat (length fullText)) eqn:Hin.
  - apply Z.ltb_lt in Hin.
    rewrite (batch_count_step Hstep Hin) in Hfuel |- *.
    assert (Hrest : forall made' w',
      exists added,
        fst (fixed_size_loop host fuel fullText size overlap
               (i + (size - overlap)) made' w')
        = Some (made' ++ added) /\
        (length added
         <= Batching.batch_count
              (Z.of_nat (length fullText) - (i + (size - overlap)))
              (size - overlap))%nat /\
        Forall (fun c =>
                  i <= startPosition c < Z.of_nat (length fullText) /\
                  (startPosition c - i) mod (size - overlap) = 0 /\
                  Z.of_nat (length (content c)) <= size)
               added).
    { intros made' w'.
      destruct (IH (i + (size - overlap)) made' w' ltac:(lia) ltac:(lia))
        as [added [Hrun [Hcount Hall]]].
      exists added. split; [exact Hrun|]. split; [exact Hcount|].
      apply Forall_impl with (2 := Hall).
      intros c [Hpos [Hmod Hlen]]. split; [lia|]. split; [|exact Hlen].
      replace (startPosition c - i)
        with (startPosition c - (i + (size - overlap)) + 1 * (size - overlap))
        by lia.
      rewrite Z.mod_add by lia. exact Hmod. }
    destruct (0 <? Z.of_nat (length (trim (JsArray.slice i (i + size) fullText)))).
    + unfold bind.
      pose proof (createChunk_fields host
                    (JsArray.slice i (i + size) fullText)
                    (Z.of_nat (length made)) i fullText w) as Hc.
      destruct (createChunk host _ _ _ _ w) as [c w'].
      cbn [fst] in Hc. destruct Hc as [Hcontent [_ [Hstart _]]].
      destruct (Hrest (made ++ [c]) w') as [added [Hrun [Hcount Hall]]].
      exists (c :: added). split; [|split].
      * rewrite Hrun, <- app_assoc. reflexivity.
      * simpl. lia.
      * constructor; [|exact Hall].
        rewrite Hstart, Hcontent, Z.sub_diag. split; [lia|].
        split; [apply Z.mod_0_l; lia|].
        pose proof (trim_length_le (JsArray.slice i (i + size) fullText)).
        pose proof (@slice_length_le N fullText i size Hi Hsize). lia.
    + destruct (Hrest made w) as [added [Hrun [Hcount Hall]]].
      exists added. split; [exact Hrun|]. split; [lia | exact Hall].
  - exists []. rewrite app_nil_r. split; [reflexivity|].
    split; [simpl; lia | constructor].
Qed.

(** X27: when the chunk size is positive and above the overlap,
    [chunkByFixedSize] ends after one round for each stride of the
    text; it makes at most that many chunks, each starting at a
    multiple of the stride inside the text and none longer than the
    chunk size. *)
Theorem chunkByFixedSize_ends (fullText : jsstring)
  (opts : ProcessingOptions) (fuel : nat) (w : World) :
  0 < Z_or (chunkSize opts) 1000 ->
  Z_or (chunkOverlap opts) 100 < Z_or (chunkSize opts) 1000 ->
  (Batching.batch_count (Z.of_nat (length fullText))
     (Z_or (chunkSize opts) 1000 - Z_or (chunkOverlap opts) 100) < fuel)%nat ->
  exists cs,
    fst (chunkByFixedSize host fuel fullText opts w) = Some cs /\
    (length cs
     <= Batching.batch_count (Z.of_nat (length fullText))
          (Z_or (chunkSize opts) 1000 - Z_or (chunkOverlap opts) 100))%nat /\
    Forall (fun c =>
              0 <= startPosition c < Z.of_nat (length fullText) /\
              startPosition c
                mod (Z_or (chunkSize opts) 1000 - Z_or (chunkOverlap opts) 100)
              = 0 /\
              Z.of_nat (length (content c)) <= Z_or (chunkSize opts) 1000)
           cs.
Proof.
  intros Hsize Hstep Hfuel. unfold chunkByFixedSize.
  destruct (@fixed_size_loop_ends fullText (Z_or (chunkSize opts) 1000)
              (Z_or (chunkOverlap opts) 100) ltac:(lia) ltac:(lia) fuel 0 [] w
              ltac:(lia) ltac:(rewrite Z.sub_0_r; exact Hfuel))
    as [added [Hrun [Hcount Hall]]].
  exists added. rewrite Z.sub_0_r in Hcount.
  split; [exact Hrun|]. split; [exact Hcount|].
  apply Forall_impl with (2 := Hall).
  intros c [Hpos [Hmod Hlen]]. rewrite Z.sub_0_r in Hmod. auto.
Qed.

End StrideFacts.

Lemma strides_that_do_not_advance_witness :
  fst (DocumentProcessor.chunkByFixedSize PlainHost.host 1000 TwoParagraphs.fullText
         TwoParagraphs.hundred PlainHost.start) = None.
Proof.
  apply (proj1 (@strides_that_do_not_advance PlainHost.host
                  TwoParagraphs.fullText TwoParagraphs.hundred 1000
                  PlainHost.start)).
  - discriminate.
  - vm_compute. discriminate.
Defined.

Lemma chunkByFixedSize_ends_witness :
  exists cs,
    fst (DocumentProcessor.chunkByFixedSize PlainHost.host 10 TwoParagraphs.fullText
           TwoParagraphs.ten_by_four PlainHost.start) = Some cs /\
    (length cs <= 8)%nat.
Proof.
  destruct (@chunkByFixedSize_ends PlainHost.host TwoParagraphs.fullText
              TwoParagraphs.ten_by_four 10 PlainHost.start)
    as [cs [Hrun [Hcount _]]].
  - reflexivity.
  - reflexivity.
  - vm_compute. lia.
  - exists cs. split; [exact Hrun | exact Hcount].
Defined.

(* ================================================================== *)
(** * RAGManager: every chunk gets its own embedding                   *)
(* ================================================================== *)

Section ChunkEmbeddings.

Import EmbeddingService Pipeline.

Variable config : EmbeddingModelConfig.
Variable create : nat -> list jsstring -> Settled CreateResponse.
Variable now : World -> Z.

Lemma attach_aligned (f : DocumentProcessor.DocumentChunk -> list number)
  chunks : forall index before,
  length before = index ->
  attach index chunks (before ++ map f chunks) =
  map (fun c => {| chunk := c; embedding := Some (f c) |}) chunks.
Proof.
  induction chunks as [|c rest IH]; intros index before Hlen; [reflexivity|].
  cbn [attach map]. f_equal.
  - f_equal. rewrite nth_error_app2 by lia.
    rewrite Hlen, Nat.sub_diag. reflexivity.
  - change (before ++ f c :: map f rest)
      with (before ++ [f c] ++ map f rest).
    rewrite app_assoc. apply IH.
    rewrite length_app. simpl. lia.
Qed.

(** X28: for the provider ['openai'], with every request served,
    [generateChunkEmbeddings] returns the chunks in their order, each
    with the embedding of its own cleaned content; the batches of 100
    into which the contents are cut do not show. *)
Theorem generateChunkEmbeddings_aligned (embed : jsstring -> list number)
  (chunks : list DocumentProcessor.DocumentChunk) (tenantId : jsstring)
  (fuel : nat) (w : World) :
  Batching.serves create embed ->
  provider config = openai ->
  (Batching.batch_count (Z.of_nat (length chunks)) 100 < fuel)%nat ->
  exists w',
    generateChunkEmbeddings config create now fuel chunks tenantId w
    = (Some (Resolved
         (map (fun c =>
                 {| chunk := c;
                    embedding :=
                      Some (embed (cleanText config
                                     (DocumentProcessor.content c))) |})
              chunks)),
       w').
Proof.
  intros Hserves Hprovider Hfuel.
  unfold generateChunkEmbeddings, Batching.generateBatchEmbeddings,
    Batching.generateEmbeddings.
  destruct (@batches_served config create embed
              (map DocumentProcessor.content chunks) 100
              Hserves Hprovider ltac:(lia) fuel 0 [] 0 w ltac:(lia)
              ltac:(rewrite Z.sub_0_r, length_map; exact Hfuel))
    as [total [w' [-> _]]].
  exists w'. cbn [Batching.embeddings app skipn Z.to_nat]. rewrite map_map.
  pose proof (@attach_aligned
                (fun c => embed (cleanText config (DocumentProcessor.content c)))
                chunks 0 [] eq_refl) as Haligned.
  cbn [app] in Haligned. rewrite Haligned. reflexivity.
Qed.

End ChunkEmbeddings.

Lemma generateChunkEmbeddings_aligned_witness :
  exists w',
    Pipeline.generateChunkEmbeddings ThreeTexts.config ThreeTexts.create
      ThreeTexts.now 2
      (fst (DocumentProcessor.chunkByParagraph PlainHost.host
              TwoParagraphs.fullText
              (PlainHost.options_for DocumentProcessor.paragraph)
              PlainHost.start))
      (js ToyIndex.tenant_a) EmbeddingService.initial
    = (Some (EmbeddingService.Resolved
         (map (fun c =>
                 {| Pipeline.chunk := c;
                    Pipeline.embedding :=
                      Some (ThreeTexts.embed
                              (EmbeddingService.cleanText ThreeTexts.config
                                 (DocumentProcessor.content c))) |})
              (fst (DocumentProcessor.chunkByParagraph PlainHost.host
                      TwoParagraphs.fullText
                      (PlainHost.options_for DocumentProcessor.paragraph)
                      PlainHost.start)))),
       w').
Proof.
  apply (@generateChunkEmbeddings_aligned ThreeTexts.config ThreeTexts.create
           ThreeTexts.now ThreeTexts.embed).
  - intros n input. eexists. reflexivity.
  - reflexivity.
  - vm_compute. lia.
Defined.

(* ================================================================== *)
(** * RAGManager: deletion of a document                               *)
(* ================================================================== *)

Section DocumentDeletion.

Import RAGManager Pipeline.

Variable Vector : Type.
Variable similarity : Vector -> Vector -> Q.
Variable times : Q -> Q -> Q.
Variable generateEmbedding : jsstring -> Completion Vector.
Variable highlight : jsstring -> jsstring -> Completion jsstring.
Variable config : SearchConfig.
Variable s3_fails : nat -> option jsstring.

Lemma deleteFile_tables key (st : Stores Vector) :
  chunks (snd (deleteFile s3_fails key st)) = chunks st /\
  documents (snd (deleteFile s3_fails key st)) = documents st /\
  (forall k, In k (bucket (snd (deleteFile s3_fails key st))) ->
             In k (bucket st)) /\
  (forall k, In k (bucket st) ->
             ~ In k (bucket (snd (deleteFile s3_fails key st))) -> k = key).
Proof.
  unfold deleteFile. destruct (s3_fails _); cbn [snd chunks documents bucket].
  - repeat split; auto; intros k Hk Hgone; contradiction.
  - split; [reflexivity|]. split; [reflexivity|]. split.
    + intros k Hk. apply filter_In in Hk. apply Hk.
    + intros k Hk Hgone.
      destruct (str_eqb k key) eqn:Heq; [now apply str_eqb_eq|].
      elim Hgone. apply filter_In. rewrite Heq. auto.
Qed.

Lemma deleteFiles_tables keys : forall st : Stores Vector,
  chunks (snd (deleteFiles s3_fails keys st)) = chunks st /\
  documents (snd (deleteFiles s3_fails keys st)) = documents st /\
  (forall k, In k (bucket (snd (deleteFiles s3_fails keys st))) ->
             In k (bucket st)) /\
  (forall k, In k (bucket st) ->
             ~ In k (bucket (snd (deleteFiles s3_fails keys st))) ->
             In k keys).
Proof.
  induction keys as [|key rest IH]; intros st.
  - cbn. repeat split; auto; intros k Hk Hgone; contradiction.
  - cbn [deleteFiles].
    destruct (deleteFile_tables key st) as [Hc [Hd [Hsub Hgone]]].
    destruct (deleteFile s3_fails key st) as [[[]|problem] st'].
    + cbn [snd] in Hc, Hd, Hsub, Hgone.
      destruct (IH st') as [Hc' [Hd' [Hsub' Hgone']]].
      split; [congruence|]. split; [congruence|]. split.
      * intros k Hk. apply Hsub, Hsub', Hk.
      * intros k Hk Hmissing.
        destruct (in_dec (list_eq_dec N.eq_dec) k (bucket st')) as [Hin|Hout].
        -- right. apply Hgone'; assumption.
        -- left. symmetry. apply Hgone; assumption.
    + cbn [snd] in *. split; [exact Hc|]. split; [exact Hd|].
      split; [exact Hsub|].
      intros k Hk Hmissing. left. symmetry. apply Hgone; assumption.
Qed.

(** The tables and the bucket after [deleteDocument]. *)
Lemma deleteDocument_stores documentId tenant (st : Stores Vector) :
  chunks (deleteDocument s3_fails documentId tenant st)
  = VectorDatabase.deleteDocument (chunks st) documentId tenant /\
  documents (deleteDocument s3_fails documentId tenant st)
  = filter (fun row =>
              negb (str_eqb (row_id row) documentId
                    && str_eqb (row_tenant_id row) tenant))
           (documents st) /\
  (forall k, In k (bucket (deleteDocument s3_fails documentId tenant st)) ->
             In k (bucket st)) /\
  (forall k, In k (bucket st) ->
             ~ In k (bucket (deleteDocument s3_fails documentId tenant st)) ->
             starts_with (buildKey tenant (js "knowledge-base") []) k = true /\
             includes k documentId = true).
Proof.
  unfold deleteDocument, listTenantFiles, listFiles. cbn [bucket s3_requests].
  destruct (s3_fails (s3_requests st)) as [problem|].
  - cbn. repeat split; auto; intros k Hk Hgone; contradiction.
  - match goal with
    | |- context [deleteFiles s3_fails ?keys ?st0] =>
        destruct (deleteFiles_tables keys st0) as [Hc [Hd [Hsub Hgone]]];
        destruct (deleteFiles s3_fails keys st0) as [[[]|problem] st']
    end; cbn [snd chunks documents bucket warn_s3] in *;
      (split; [exact Hc|]; split; [exact Hd|]; split; [exact Hsub|]);
      intros k Hk Hmissing;
      specialize (Hgone k Hk Hmissing);
      apply filter_In in Hgone; destruct Hgone as [Hlisted Hincludes];
      apply In_firstn, filter_In in Hlisted; destruct Hlisted as [_ Hprefix];
      split; assumption.
Qed.

(** X29: once [deleteDocument] has run for a tenant, the document is
    gone for that tenant, whether or not the bucket could be reached:
    the documents table has no row of it, and no search of the tenant
    returns it. *)
Theorem deleted_document_is_not_found (documentId tenant : jsstring)
  (st : Stores Vector) :
  getDocument (documents (deleteDocument s3_fails documentId tenant st))
    documentId tenant = None /\
  forall request out hit,
    tenantId request = tenant ->
    searchDocuments similarity times generateEmbedding highlight config
      (chunks (deleteDocument s3_fails documentId tenant st))
      (documents (deleteDocument s3_fails documentId tenant st)) request
    = Returned out ->
    In hit out ->
    doc_id (document hit) <> documentId.
Proof.
  destruct (deleteDocument_stores documentId tenant st) as [_ [Hd _]].
  rewrite Hd.
  assert (Hgone : forall row,
    In row (filter (fun row =>
                      negb (str_eqb (row_id row) documentId
                            && str_eqb (row_tenant_id row) tenant))
              (documents st)) ->
    ~ (row_id row = documentId /\ row_tenant_id row = tenant)).
  { intros row Hrow [Hid Hten]. apply filter_In in Hrow.
    destruct Hrow as [_ Hkept].
    rewrite Hid, Hten, !str_eqb_refl in Hkept. discriminate Hkept. }
  split.
  - destruct (getDocument _ documentId tenant) as [doc|] eqn:Hdoc;
      [|reflexivity].
    destruct (getDocument_row _ _ _ Hdoc) as [Hid [Hten [_ [row [Hrow Hmap]]]]].
    subst doc. elim (Hgone row Hrow). auto.
  - intros request out hit Htenant Hsearch Hin Hid.
    unfold searchDocuments in Hsearch.
    destruct (generateEmbedding _) as [queryEmbedding|]; [|discriminate].
    destruct (VectorDatabase.search _ _ _ _) as [vectorResults|];
      [|discriminate].
    destruct (collect _ _ _ _) as [hits|] eqn:Hcollect; [|discriminate].
    injection Hsearch as <-. apply In_rankResults in Hin.
    destruct (collect_hits _ _ _ _ Hcollect) as [_ Hall].
    rewrite Forall_forall in Hall.
    destruct (Hall _ Hin) as [v [_ [Hdoc _]]].
    destruct (getDocument_row _ _ _ Hdoc)
      as [Hdid [Hten [_ [row [Hrow Hmap]]]]].
    apply (Hgone row Hrow). rewrite Hmap in Hid, Hten. cbn in Hid, Hten.
    split; congruence.
Qed.

Lemma deleteFiles_all_served keys : forall st : Stores Vector,
  (forall n, s3_fails n = None) ->
  bucket (snd (deleteFiles s3_fails keys st))
  = filter (fun k => negb (existsb (fun key => str_eqb k key) keys))
           (bucket st).
Proof.
  induction keys as [|key rest IH]; intros st Hup.
  - cbn. symmetry. apply filter_true.
  - cbn [deleteFiles]. unfold deleteFile. rewrite Hup.
    rewrite IH by exact Hup. cbn [bucket].
    rewrite filter_filter. apply filter_ext. intros k. cbn [existsb].
    rewrite negb_orb. reflexivity.
Qed.

(** X30: the clean-up of the bucket by [deleteDocument] removes no key
    outside the folder [knowledge-base] of the tenant, and none that
    does not contain the document id.  When the bucket answers every
    request and lists at most 100 keys of that folder, exactly the keys
    of the folder that contain the document id are removed -- also
    those of other documents whose key happens to contain it. *)
Theorem deleteDocument_files (documentId tenant : jsstring)
  (st : Stores Vector) :
  (forall k, In k (bucket (deleteDocument s3_fails documentId tenant st)) ->
             In k (bucket st)) /\
  (forall k, In k (bucket st) ->
             ~ In k (bucket (deleteDocument s3_fails documentId tenant st)) ->
             starts_with (buildKey tenant (js "knowledge-base") []) k = true /\
             includes k documentId = true) /\
  ((forall n, s3_fails n = None) ->
   (length (filter (starts_with (buildKey tenant (js "knowledge-base") []))
              (bucket st)) <= 100)%nat ->
   bucket (deleteDocument s3_fails documentId tenant st)
   = filter (fun k =>
               negb (starts_with (buildKey tenant (js "knowledge-base") []) k
                     && includes k documentId))
            (bucket st)).
Proof.
  destruct (deleteDocument_stores documentId tenant st)
    as [_ [_ [Hsub Hgone]]].
  split; [exact Hsub|]. split; [exact Hgone|].
  intros Hup Hfew.
  unfold deleteDocument, listTenantFiles, listFiles.
  cbn [bucket s3_requests]. rewrite Hup.
  match goal with
  | |- context [deleteFiles s3_fails ?keys ?st0] =>
      pose proof (deleteFiles_all_served keys st0 Hup) as Hbucket;
      destruct (deleteFiles s3_fails keys st0) as [[[]|problem] st']
  end; cbn [snd bucket warn_s3] in *; rewrite Hbucket;
    apply filter_ext_in; intros k Hk; f_equal;
    rewrite firstn_all2 by (change (Z.to_nat 100) with 100%nat; lia);
    rewrite filter_filter.
  all: destruct (starts_with (buildKey tenant (js "knowledge-base") []) k
                 && includes k documentId) eqn:Hsel.
  all: try (apply existsb_exists; exists k;
            split; [apply filter_In; auto | apply str_eqb_refl]).
  all: apply not_true_iff_false; intros Hex;
       apply existsb_exists in Hex; destruct Hex as [key [Hkey Heq]];
       apply str_eqb_eq in Heq; subst key;
       apply filter_In in Hkey; destruct Hkey as [_ Hkey]; congruence.
Qed.

End DocumentDeletion.

Lemma deleted_document_is_not_found_witness :
  RAGManager.getDocument
    (Pipeline.documents
       (Pipeline.deleteDocument Shelf.always_up (js ToyIndex.doc_x) (js ToyIndex.tenant_a)
          Shelf.stores))
    (js ToyIndex.doc_x) (js ToyIndex.tenant_a) = None.
Proof.
  apply (proj1 (@deleted_document_is_not_found ToyIndex.Vector
                  ToyIndex.similarity ToyIndex.times (fun _ => Returned 1%Q)
                  (fun _ matched => Returned matched) ToyIndex.config
                  Shelf.always_up (js ToyIndex.doc_x) (js ToyIndex.tenant_a) Shelf.stores)).
Defined.

Lemma deleteDocument_files_witness :
  Pipeline.bucket
    (Pipeline.deleteDocument Shelf.always_up (js ToyIndex.doc_x) (js ToyIndex.tenant_a)
       Shelf.stores)
  = filter (fun k =>
              negb (starts_with
                      (Pipeline.buildKey (js ToyIndex.tenant_a) (js "knowledge-base") [])
                      k
                    && includes k (js ToyIndex.doc_x)))
           (Pipeline.bucket Shelf.stores).
Proof.
  apply (proj2 (proj2 (@deleteDocument_files ToyIndex.Vector Shelf.always_up
                         (js ToyIndex.doc_x) (js ToyIndex.tenant_a) Shelf.stores))).
  - intros n. reflexivity.
  - vm_compute. lia.
Defined.

(** The file of [doc_y] goes with [doc_x]; the file of tenant B stays. *)
Example deleteDocument_files_of_doc_x :
  Pipeline.bucket
    (Pipeline.deleteDocument Shelf.always_up (js ToyIndex.doc_x) (js ToyIndex.tenant_a)
       Shelf.stores)
  = [Shelf.key ToyIndex.tenant_b ToyIndex.doc_x "_prices.txt"].
Proof. vm_compute. reflexivity. Qed.
